(** * voltha/main.py: the process entry point of Voltha, embedded in Rocq

    The development follows [src/voltha/main.py]:
    - Python values, exceptions and the pieces of the standard library the
      module calls ([os.path], [int], the [%] operator, [argparse] actions);
    - [defs], [parse_args] and [load_config];
    - the class [Main]: [__init__], [startup_components],
      [shutdown_components], [start_reactor], [start_heartbeat], as
      computations of a state-and-exception monad that records a trace of
      the calls made to the collaborators (logger, subsystems, reactor);
    - theorems about the traces. *)

From Stdlib Require Import Ascii String ZArith.
From Stdlib Require Import Floats.PrimFloat.
From stdpp Require Import base option list strings gmap pretty.

Open Scope string_scope.

(** ** Python values and exceptions *)

(** The values that reach the settings: [None], an [int], a [str]. *)
Inductive py_value : Type :=
| PyNone
| PyInt (z : Z)
| PyStr (s : string).

Inductive component : Type :=
| Coordinator
| RestService
| GrpcServer.

Definition component_eqb (c k : component) : bool :=
  match c, k with
  | Coordinator, Coordinator | RestService, RestService
  | GrpcServer, GrpcServer => true
  | _, _ => false
  end.

Inductive exn : Type :=
| TypeError
| ValueError
| AttributeError
| IOError
| YAMLError
| SystemExit (code : Z)
| ComponentError (c : component).

Inductive result (A : Type) : Type :=
| Ok (a : A)
| Raise (e : exn).
Arguments Ok {A} a.
Arguments Raise {A} e.

Definition rbind {A B} (r : result A) (k : A -> result B) : result B :=
  match r with
  | Ok a => k a
  | Raise e => Raise e
  end.

Declare Scope result_scope.
Delimit Scope result_scope with result.
Notation "'let!' x ':=' r 'in' k" := (rbind r (fun x => k))
  (at level 10, x name, r at level 200, k at level 200) : result_scope.

#[global] Instance py_value_eq_dec : EqDecision py_value.
Proof. solve_decision. Defined.
#[global] Instance component_eq_dec : EqDecision component.
Proof. solve_decision. Defined.
#[global] Instance exn_eq_dec : EqDecision exn.
Proof. solve_decision. Defined.

(** ** Strings: [str.startswith], [str.endswith], [str.split], [str.join] *)

Module Str.

Definition startswith (s p : string) : bool := String.prefix p s.

Fixpoint endswith_slash (s : string) : bool :=
  match s with
  | EmptyString => false
  | String c EmptyString => Ascii.eqb c "/"%char
  | String _ rest => endswith_slash rest
  end.

(** [s.split('/')]: the pieces between the slashes, never an empty list. *)
Fixpoint split_slash (s : string) : list string :=
  match s with
  | EmptyString => [EmptyString]
  | String c rest =>
      if Ascii.eqb c "/"%char then EmptyString :: split_slash rest
      else match split_slash rest with
           | [] => [String c EmptyString]
           | piece :: pieces => String c piece :: pieces
           end
  end.

(** ['/'.join(pieces)] *)
Fixpoint join_slash (pieces : list string) : string :=
  match pieces with
  | [] => EmptyString
  | [p] => p
  | p :: rest => p +:+ "/" +:+ join_slash rest
  end.

(** [s.rstrip('/')] *)
Fixpoint rstrip_slash (s : string) : string :=
  match s with
  | EmptyString => EmptyString
  | String c rest =>
      match rstrip_slash rest with
      | EmptyString => if Ascii.eqb c "/"%char then EmptyString else String c EmptyString
      | kept => String c kept
      end
  end.

(** [s == '/' * len(s)] *)
Fixpoint all_slashes (s : string) : bool :=
  match s with
  | EmptyString => true
  | String c rest => Ascii.eqb c "/"%char && all_slashes rest
  end.

(** [s[:s.rfind('/') + 1]]: the prefix up to and including the last slash,
    empty when [s] has no slash. *)
Fixpoint upto_last_slash (s : string) : string :=
  match s with
  | EmptyString => EmptyString
  | String c rest =>
      match upto_last_slash rest with
      | EmptyString => if Ascii.eqb c "/"%char then String c EmptyString else EmptyString
      | kept => String c kept
      end
  end.

Definition is_space (c : ascii) : bool :=
  let n := Ascii.nat_of_ascii c in
  (n =? 32)%nat || ((9 <=? n)%nat && (n <=? 13)%nat).

Fixpoint lstrip (s : string) : string :=
  match s with
  | String c rest => if is_space c then lstrip rest else s
  | EmptyString => EmptyString
  end.

Fixpoint rstrip (s : string) : string :=
  match s with
  | EmptyString => EmptyString
  | String c rest =>
      match rstrip rest with
      | EmptyString => if is_space c then EmptyString else String c EmptyString
      | kept => String c kept
      end
  end.

Definition strip (s : string) : string := rstrip (lstrip s).

End Str.

(** ** [os.path] on POSIX (posixpath.py) *)

Module os_path.

Definition isabs (s : string) : bool := Str.startswith s "/".

(** [join(a, b)] with one extra component. *)
Definition join (a b : string) : string :=
  if Str.startswith b "/" then b
  else if String.eqb a "" || Str.endswith_slash a then a +:+ b
  else a +:+ "/" +:+ b.

Definition dirname (p : string) : string :=
  let head := Str.upto_last_slash p in
  if negb (String.eqb head "") && negb (Str.all_slashes head)
  then Str.rstrip_slash head
  else head.

(** The loop of [normpath] over the components; [new_comps] grows at its
    end, as the Python list does. *)
Fixpoint normpath_loop (initial_slashes : nat) (comps new_comps : list string)
  : list string :=
  match comps with
  | [] => new_comps
  | comp :: comps' =>
      if String.eqb comp "" || String.eqb comp "." then
        normpath_loop initial_slashes comps' new_comps
      else if negb (String.eqb comp "..")
              || ((initial_slashes =? 0)%nat && (length new_comps =? 0)%nat)
              || (negb (length new_comps =? 0)%nat
                  && String.eqb (List.last new_comps "") "..")
      then normpath_loop initial_slashes comps' (new_comps ++ [comp])
      else if negb (length new_comps =? 0)%nat
      then normpath_loop initial_slashes comps' (removelast new_comps)
      else normpath_loop initial_slashes comps' new_comps
  end.

Definition normpath (path : string) : string :=
  if String.eqb path "" then "."
  else
    let initial_slashes :=
      if Str.startswith path "/" then
        if Str.startswith path "//" && negb (Str.startswith path "///")
        then 2%nat else 1%nat
      else 0%nat in
    let comps := normpath_loop initial_slashes (Str.split_slash path) [] in
    let path := Str.join_slash comps in
    let path :=
      match initial_slashes with
      | O => path
      | 1%nat => "/" +:+ path
      | _ => "//" +:+ path
      end in
    if String.eqb path "" then "." else path.

(** [abspath(path)], with the result of [os.getcwd()] as an argument. *)
Definition abspath (cwd path : string) : string :=
  let path := if isabs path then path else join cwd path in
  normpath path.

End os_path.

(** ** Builtins: [int(str)] and the [%] operator *)

Module builtins.

Definition is_digit (c : ascii) : bool :=
  let n := Ascii.nat_of_ascii c in (48 <=? n)%nat && (n <=? 57)%nat.

Fixpoint digits_value (s : string) (acc : Z) : option Z :=
  match s with
  | EmptyString => Some acc
  | String c rest =>
      if is_digit c
      then digits_value rest (10 * acc + Z.of_nat (Ascii.nat_of_ascii c - 48))
      else None
  end.

(** [int(s)] in base 10 (Python 2): surrounding white space, one optional
    sign, then at least one digit and digits only. *)
Definition int (s : string) : result Z :=
  let s := Str.strip s in
  let '(negative, body) :=
    match s with
    | String "-"%char rest => (true, rest)
    | String "+"%char rest => (false, rest)
    | _ => (false, s)
    end in
  match body with
  | EmptyString => Raise ValueError
  | _ =>
      match digits_value body 0 with
      | Some z => Ok (if negative then (- z)%Z else z)
      | None => Raise ValueError
      end
  end.

(** ['... %d' % v]: a number is required. *)
Definition percent_d (v : py_value) : result string :=
  match v with
  | PyInt z => Ok (pretty z)
  | PyStr _ | PyNone => Raise TypeError
  end.

(** ['... %s' % v] takes any value. *)
Definition percent_s (v : py_value) : string :=
  match v with
  | PyNone => "None"
  | PyInt z => pretty z
  | PyStr s => s
  end.

End builtins.

(** ** The collaborators and the process environment *)

(** What [yaml.load] returns. *)
#[warnings="-register-all"] Inductive yaml_value : Type :=
| YNull
| YScalar (s : string)
| YSeq (items : list yaml_value)
| YMap (entries : list (string * yaml_value)).


(** How the Deferred returned by one call of a subsystem's [shutdown()]
    ends, and after how many firings of the timers of the reactor. A
    [shutdown()] that raises where it should return a Deferred is an
    [Errbacks 0]: under [inlineCallbacks] the generator ends at that line in
    both cases. *)
Inductive deferred_outcome : Type :=
| Fires (ticks : nat)
| Errbacks (ticks : nat) (e : exn)
| NeverFires.

(** A started subsystem, as [Main] holds it. What a call of its
    [shutdown()] does may depend on the calls made before:
    [handle_shutdown h n] is the outcome of the call that follows [n]
    earlier ones. *)
Record handle : Type := Handle {
  handle_shutdown : nat -> deferred_outcome
}.

(** The command line, argument by argument and in order, as argparse reads
    it: an occurrence of one of the options of the parser, with its value
    when it takes one, or an argument the parser refuses. *)
Inductive cli_option : Type :=
| opt_config (v : string)
| opt_consul (v : string)
| opt_external_host_address (v : string)
| opt_fluentd (v : string)
| opt_internal_host_address (v : string)
| opt_instance_id (v : string)
| opt_interface (v : string)
| opt_no_banner
| opt_no_heartbeat
| opt_rest_port (v : string)
| opt_quiet
| opt_verbose
| opt_instance_id_is_container_name
| opt_help              (* -h, --help, which argparse adds *)
| opt_ambiguous         (* an abbreviation that several options match *)
| opt_invalid           (* an option without the value it takes, a flag with a value *)
| arg_unrecognized.     (* an option the parser does not have, a stray argument *)

(** Everything [main.py] takes from outside: the process environment, the
    file system, the clock, the behaviour of the modules it imports, and
    what happens while the reactor runs. *)
Record world : Type := World {
  environ : gmap string string;                 (* os.environ *)
  argv : list cli_option;                       (* sys.argv[1:] *)
  getcwd : string;                              (* os.getcwd() *)
  module_file : string;                         (* __file__ *)
  file_contents : string -> option string;      (* open(path), by absolute path *)
  yaml_load : string -> option yaml_value;      (* None: yaml.load raises *)
  get_my_primary_interface : string;
  get_my_primary_local_ipv4 : string;
  get_my_containers_name : result string;
  clock : nat -> float;                         (* the n-th reading of time.time() *)
  time_ctime : float -> string;
  new_Coordinator :
    string -> string -> py_value -> string -> string -> result handle;
  init_rest_service : py_value -> result unit;
  VolthaGrpcServer_run : result (option handle);
  keyboard_interrupt : option nat;              (* Ctrl-C, after that many firings of
                                                   the timers; None: it never comes *)
  ticks_watched : nat                           (* the firings that are recorded of a
                                                   wait that has no end *)
}.

(** ** [defs] *)

Definition environ_get {A} (w : world) (key : string) (inject : string -> A)
    (default : A) : A :=
  match environ w !! key with
  | Some v => inject v
  | None => default
  end.

Record defs_t : Type := Defs {
  defs_consul : string;
  defs_instance_id : string;
  defs_config : string;
  defs_interface : string;
  defs_internal_host_address : string;
  defs_external_host_address : string;
  defs_fluentd : py_value;
  defs_rest_port : py_value
}.

Definition defs (w : world) : defs_t :=
  {| defs_consul := environ_get w "CONSUL" id "localhost:8500";
     defs_instance_id :=
       environ_get w "INSTANCE_ID" id (environ_get w "HOSTNAME" id "1");
     defs_config := environ_get w "CONFIG" id "./voltha.yml";
     defs_interface := environ_get w "INTERFACE" id (get_my_primary_interface w);
     defs_internal_host_address :=
       environ_get w "INTERNAL_HOST_ADDRESS" id (get_my_primary_local_ipv4 w);
     defs_external_host_address :=
       environ_get w "EXTERNAL_HOST_ADDRESS" id (get_my_primary_local_ipv4 w);
     defs_fluentd := environ_get w "FLUENTD" PyStr PyNone;
     defs_rest_port := environ_get w "REST_PORT" PyStr (PyInt 8880) |}.

(** ** [argparse]: the namespace and the actions *)

Record Namespace : Type := MkNamespace {
  config : string;
  consul : string;
  external_host_address : string;
  fluentd : py_value;
  internal_host_address : string;
  instance_id : string;
  interface : string;
  no_banner : bool;
  no_heartbeat : bool;
  rest_port : py_value;
  quiet : option Z;
  verbose : option Z;
  instance_id_is_container_name : bool
}.

Module argparse.

(** The namespace before any argument is consumed: every [default=]. *)
Definition defaults (d : defs_t) : Namespace :=
  {| config := defs_config d;
     consul := defs_consul d;
     external_host_address := defs_external_host_address d;
     fluentd := defs_fluentd d;
     internal_host_address := defs_internal_host_address d;
     instance_id := defs_instance_id d;
     interface := defs_interface d;
     no_banner := false;
     no_heartbeat := false;
     rest_port := defs_rest_port d;
     quiet := None;
     verbose := None;
     instance_id_is_container_name := false |}.

(** [action='count'] *)
Definition count (n : option Z) : option Z := Some (default 0%Z n + 1)%Z.

(** [type=int]; a [ValueError] becomes [parser.error], which exits with 2. *)
Definition get_value_int (v : string) : result py_value :=
  match builtins.int v with
  | Ok z => Ok (PyInt z)
  | Raise _ => Raise (SystemExit 2)
  end.

(** One argument: its action on the namespace. The help action prints and
    exits with 0; [parser.error] exits with 2; an argument that is not
    recognised is set aside and the parsing goes on. *)
Definition take_action (ns : Namespace) (o : cli_option) : result Namespace :=
  let 'MkNamespace cf cs ex fl ih ii nf nb nh rp qu vb cn := ns in
  match o with
  | opt_config s => Ok (MkNamespace s cs ex fl ih ii nf nb nh rp qu vb cn)
  | opt_consul s => Ok (MkNamespace cf s ex fl ih ii nf nb nh rp qu vb cn)
  | opt_external_host_address s => Ok (MkNamespace cf cs s fl ih ii nf nb nh rp qu vb cn)
  | opt_fluentd s => Ok (MkNamespace cf cs ex (PyStr s) ih ii nf nb nh rp qu vb cn)
  | opt_internal_host_address s => Ok (MkNamespace cf cs ex fl s ii nf nb nh rp qu vb cn)
  | opt_instance_id s => Ok (MkNamespace cf cs ex fl ih s nf nb nh rp qu vb cn)
  | opt_interface s => Ok (MkNamespace cf cs ex fl ih ii s nb nh rp qu vb cn)
  | opt_no_banner => Ok (MkNamespace cf cs ex fl ih ii nf true nh rp qu vb cn)
  | opt_no_heartbeat => Ok (MkNamespace cf cs ex fl ih ii nf nb true rp qu vb cn)
  | opt_rest_port s =>
      (let! p := get_value_int s in
       Ok (MkNamespace cf cs ex fl ih ii nf nb nh p qu vb cn))%result
  | opt_quiet => Ok (MkNamespace cf cs ex fl ih ii nf nb nh rp (count qu) vb cn)
  | opt_verbose => Ok (MkNamespace cf cs ex fl ih ii nf nb nh rp qu (count vb) cn)
  | opt_instance_id_is_container_name =>
      Ok (MkNamespace cf cs ex fl ih ii nf nb nh rp qu vb true)
  | opt_help => Raise (SystemExit 0)
  | opt_ambiguous | opt_invalid => Raise (SystemExit 2)
  | arg_unrecognized => Ok ns
  end.

Fixpoint consume (ns : Namespace) (args : list cli_option) : result Namespace :=
  match args with
  | [] => Ok ns
  | o :: rest => (let! ns' := take_action ns o in consume ns' rest)%result
  end.

Definition is_rest_port (o : cli_option) : bool :=
  match o with opt_rest_port _ => true | _ => false end.

Definition is_ambiguous (o : cli_option) : bool :=
  match o with opt_ambiguous => true | _ => false end.

Definition is_unrecognized (o : cli_option) : bool :=
  match o with arg_unrecognized => true | _ => false end.

(** After the arguments: a default that is a string and whose option was
    not seen goes through the option's [type]. Only [--rest-port] has one. *)
Definition convert_defaults (args : list cli_option) (ns : Namespace)
  : result Namespace :=
  if existsb is_rest_port args then Ok ns
  else
    match rest_port ns with
    | PyStr s =>
        let 'MkNamespace cf cs ex fl ih ii nf nb nh _ qu vb cn := ns in
        (let! p := get_value_int s in
         Ok (MkNamespace cf cs ex fl ih ii nf nb nh p qu vb cn))%result
    | _ => Ok ns
    end.

(** [parser.parse_args()]: the arguments are first told apart, and an
    ambiguous abbreviation is an error there; then they are consumed from
    left to right; then the defaults are converted; what was set aside as
    not recognised is an error at the end. *)
Definition parse_args (d : defs_t) (args : list cli_option) : result Namespace :=
  if existsb is_ambiguous args then Raise (SystemExit 2)
  else
    (let! ns := consume (defaults d) args in
     let! ns := convert_defaults args ns in
     if existsb is_unrecognized args then Raise (SystemExit 2) else Ok ns)%result.

End argparse.

(** ** [parse_args] *)

Definition set_instance_id (name : string) (ns : Namespace) : Namespace :=
  let 'MkNamespace cf cs ex fl ih _ nf nb nh rp qu vb cn := ns in
  MkNamespace cf cs ex fl ih name nf nb nh rp qu vb cn.

Definition parse_args (w : world) : result Namespace :=
  let d := defs w in
  (* the help texts: those built with %s take any value, the one of
     --rest-port is built with %d *)
  (let! _help := builtins.percent_d (defs_rest_port d) in
   let! args := argparse.parse_args d (argv w) in
   (* post-processing *)
   if instance_id_is_container_name args then
     let! name := get_my_containers_name w in
     Ok (set_instance_id name args)
   else Ok args)%result.

(** ** [load_config] *)

(** The file that [load_config] opens. *)
Definition config_path (w : world) (args : Namespace) : string :=
  let path := config args in
  let path :=
    if Str.startswith path "." then
      let dir := os_path.dirname (os_path.abspath (getcwd w) (module_file w)) in
      os_path.join dir path
    else path in
  os_path.abspath (getcwd w) path.

Definition load_config (w : world) (args : Namespace) : result yaml_value :=
  match file_contents w (config_path w args) with
  | None => Raise IOError
  | Some fd =>
      match yaml_load w fd with
      | None => Raise YAMLError
      | Some config => Ok config
      end
  end.

(** ** The class [Main] *)

(** The calls [Main] makes to its collaborators, as they are observed. *)
Inductive event : Type :=
| ev_setup_logging (instance_id : string) (verbosity_adjust : Z) (fluentd : py_value)
| ev_log_info (msg : string)
| ev_log_debug (status since : string) (uptime : float)
| ev_LoopingCall_start (interval : Z)
| ev_start (c : component)
| ev_shutdown (c : component)
| ev_shutdown_done (c : component)
| ev_reactor_callWhenRunning
| ev_reactor_addSystemEventTrigger
| ev_reactor_run
| ev_reactor_stopped.

(** The subsystems whose [shutdown()] was called, in the order of the calls. *)
Definition shutdowns (t : list event) : list component :=
  omap (fun e => match e with ev_shutdown c => Some c | _ => None end) t.

(** The number of calls of [shutdown()] made on the subsystem [c]. *)
Definition shutdown_calls (c : component) (t : list event) : nat :=
  length (List.filter (component_eqb c) (shutdowns t)).

(** The closure [heartbeat], with the [t0] and [t0s] it captures. *)
Record heartbeat_closure : Type := Heartbeat {
  t0 : float;
  t0s : string
}.

(** A [LoopingCall] that was started. *)
Record LoopingCall : Type := MkLoopingCall {
  lc_f : heartbeat_closure;
  lc_interval : Z
}.

(** The attributes of [self] that change, the timers of the reactor, the
    number of readings of the clock so far, and the trace (oldest first). *)
Record state : Type := State {
  coordinator : option handle;
  grpc_server : option handle;
  looping_calls : list LoopingCall;
  clock_reads : nat;
  trace : list event
}.

Definition initial_state : state :=
  {| coordinator := None; grpc_server := None; looping_calls := [];
     clock_reads := 0; trace := [] |}.

(** A computation ends with a value, with an exception, or it never ends: it
    waits on a Deferred that never fires, or the reactor runs on and is not
    stopped. Of a computation that never ends the trace is a part of what
    happens. *)
Inductive outcome (A : Type) : Type :=
| Done (a : A)
| Raised (e : exn)
| Waiting.
Arguments Done {A} a.
Arguments Raised {A} e.
Arguments Waiting {A}.

Definition M (A : Type) : Type := state -> outcome A * state.

Definition ret {A} (a : A) : M A := fun s => (Done a, s).

Definition bind {A B} (m : M A) (k : A -> M B) : M B :=
  fun s =>
    match m s with
    | (Done a, s') => k a s'
    | (Raised e, s') => (Raised e, s')
    | (Waiting, s') => (Waiting, s')
    end.

Definition raise {A} (e : exn) : M A := fun s => (Raised e, s).

Definition never_returns {A} : M A := fun s => (Waiting, s).

Definition lift {A} (r : result A) : M A :=
  match r with
  | Ok a => ret a
  | Raise e => raise e
  end.

Declare Scope M_scope.
Delimit Scope M_scope with M.
Bind Scope M_scope with M.
Notation "x <- m ;; k" := (bind m (fun x => k))
  (at level 100, m at next level, right associativity) : M_scope.
Notation "m ;; k" := (bind m (fun _ => k))
  (at level 100, right associativity) : M_scope.

Definition emit (e : event) : M unit :=
  fun s => (Done tt,
            {| coordinator := coordinator s; grpc_server := grpc_server s;
               looping_calls := looping_calls s; clock_reads := clock_reads s;
               trace := trace s ++ [e] |}).

Definition get {A} (field : state -> A) : M A := fun s => (Done (field s), s).

Definition set_coordinator (h : option handle) : M unit :=
  fun s => (Done tt,
            {| coordinator := h; grpc_server := grpc_server s;
               looping_calls := looping_calls s; clock_reads := clock_reads s;
               trace := trace s |}).

Definition set_grpc_server (h : option handle) : M unit :=
  fun s => (Done tt,
            {| coordinator := coordinator s; grpc_server := h;
               looping_calls := looping_calls s; clock_reads := clock_reads s;
               trace := trace s |}).

Definition add_looping_call (lc : LoopingCall) : M unit :=
  fun s => (Done tt,
            {| coordinator := coordinator s; grpc_server := grpc_server s;
               looping_calls := looping_calls s ++ [lc];
               clock_reads := clock_reads s; trace := trace s |}).

(** [time.time()]: the next reading of the clock, a double. *)
Definition time_time (w : world) : M float :=
  fun s => (Done (clock w (clock_reads s)),
            {| coordinator := coordinator s; grpc_server := grpc_server s;
               looping_calls := looping_calls s;
               clock_reads := S (clock_reads s); trace := trace s |}).

(** [config.get(key, {})]: only a mapping has [get]. *)
Definition yaml_get (config : yaml_value) (key : string) : result yaml_value :=
  match config with
  | YMap entries =>
      Ok (default (YMap [])
            (snd <$> List.find (fun kv => String.eqb (fst kv) key) entries))
  | _ => Raise AttributeError
  end.

Definition print_banner : M unit :=
  (emit (ev_log_info " _    ______  __  ________  _____ ");;
   emit (ev_log_info "| |  / / __ \/ / /_  __/ / / /   |");;
   emit (ev_log_info "| | / / / / / /   / / / /_/ / /| |");;
   emit (ev_log_info "| |/ / /_/ / /___/ / / __  / ___ |");;
   emit (ev_log_info "|___/\____/_____/_/ /_/ /_/_/  |_|");;
   emit (ev_log_info "(to stop: press Ctrl-C)"))%M.

Module Main.

(** The body of the closure [heartbeat]: the subtraction is that of two
    doubles. *)
Definition heartbeat (w : world) (f : heartbeat_closure) : M unit :=
  (now <- time_time w;;
   emit (ev_log_debug "up" (t0s f) (now - t0 f)%float))%M.

(** Every started [LoopingCall] of the reactor fires once. *)
Fixpoint fire_each (w : world) (lcs : list LoopingCall) : M unit :=
  match lcs with
  | [] => ret tt
  | lc :: rest => (heartbeat w (lc_f lc);; fire_each w rest)%M
  end.

(** The timers of the reactor fire [n] times. *)
Fixpoint fire_timers (w : world) (n : nat) : M unit :=
  match n with
  | O => ret tt
  | S n' =>
      (lcs <- get looping_calls;;
       fire_each w lcs;;
       fire_timers w n')%M
  end.

(** A wait that has no end: the reactor goes on firing its timers, and the
    computation is never resumed. *)
Definition wait_for_ever {A} (w : world) : M A :=
  (fire_timers w (ticks_watched w);; never_returns)%M.

(** [LoopingCall(f).start(interval)]: with [now=True], the default, the
    first call is made at once. *)
Definition LoopingCall_start (w : world) (f : heartbeat_closure) (interval : Z)
  : M unit :=
  (emit (ev_LoopingCall_start interval);;
   add_looping_call {| lc_f := f; lc_interval := interval |};;
   heartbeat w f)%M.

Definition start_heartbeat (w : world) : M unit :=
  (t0 <- time_time w;;
   let t0s := time_ctime w t0 in
   LoopingCall_start w {| t0 := t0; t0s := t0s |} 10)%M.

Definition startup_components (w : world) (args : Namespace) : M unit :=
  (emit (ev_log_info "starting-internal-components");;
   emit (ev_start Coordinator);;
   c <- lift (new_Coordinator w (internal_host_address args)
                (external_host_address args) (rest_port args)
                (instance_id args) (consul args));;
   set_coordinator (Some c);;
   emit (ev_start RestService);;
   lift (init_rest_service w (rest_port args));;
   emit (ev_start GrpcServer);;
   g <- lift (VolthaGrpcServer_run w);;
   set_grpc_server g;;
   emit (ev_log_info "started-internal-services"))%M.

(** [yield h.shutdown()] under [inlineCallbacks]: the call is made, and the
    generator is resumed when the Deferred fires, the reactor firing its
    timers in the meantime; an errback is raised at the [yield]; without a
    result the generator stays suspended. *)
Definition yield_shutdown (w : world) (c : component) (h : handle) : M unit :=
  (calls <- get (fun s => shutdown_calls c (trace s));;
   emit (ev_shutdown c);;
   match handle_shutdown h calls with
   | Fires ticks => fire_timers w ticks;; emit (ev_shutdown_done c)
   | Errbacks ticks e => fire_timers w ticks;; raise e
   | NeverFires => wait_for_ever w
   end)%M.

Definition shutdown_components (w : world) : M unit :=
  (emit (ev_log_info "exiting-on-keyboard-interrupt");;
   c <- get coordinator;;
   match c with
   | Some h => yield_shutdown w Coordinator h
   | None => ret tt
   end;;
   g <- get grpc_server;;
   match g with
   | Some h => yield_shutdown w GrpcServer h
   | None => ret tt
   end)%M.

Definition __init__ (w : world) : M Namespace :=
  (args <- lift (parse_args w);;
   config <- lift (load_config w args);;
   let verbosity_adjust := (default 0 (verbose args) - default 0 (quiet args))%Z in
   logging <- lift (yaml_get config "logging");;
   emit (ev_setup_logging (instance_id args) verbosity_adjust (fluentd args));;
   (* components *)
   set_coordinator None;;
   set_grpc_server None;;
   (if negb (no_banner args) then print_banner else ret tt);;
   (if negb (no_heartbeat args) then start_heartbeat w else ret tt);;
   startup_components w args;;
   ret args)%M.

(** A failure of a 'before' 'shutdown' trigger is logged by the reactor,
    which then stops; a trigger whose Deferred never fires keeps it. *)
Definition before_shutdown (trigger : M unit) : M unit :=
  fun s =>
    match trigger s with
    | (Done _, s') => (Done tt, s')
    | (Raised _, s') => (Done tt, s')
    | (Waiting, s') => (Waiting, s')
    end.

(** [reactor.run()]: the timers fire until Ctrl-C, which stops the reactor
    through the 'before' 'shutdown' trigger; without Ctrl-C the reactor
    runs on and [run()] does not return. *)
Definition reactor_run (w : world) (when_running : M unit) (trigger : M unit)
  : M unit :=
  (emit ev_reactor_run;;
   when_running;;
   match keyboard_interrupt w with
   | Some ticks =>
       fire_timers w ticks;;
       before_shutdown trigger;;
       emit ev_reactor_stopped
   | None => wait_for_ever w
   end)%M.

Definition start_reactor (w : world) : M unit :=
  (emit ev_reactor_callWhenRunning;;
   emit ev_reactor_addSystemEventTrigger;;
   reactor_run w (emit (ev_log_info "twisted-reactor-started"))
               (shutdown_components w))%M.

Definition start (w : world) : M unit := start_reactor w.

End Main.

(** [Main().start()] *)
Definition main (w : world) : outcome unit * state :=
  (_ <- Main.__init__ w;; Main.start w)%M initial_state.

(** ** Worlds *)

(** A [shutdown()] whose Deferred fires after [ticks] firings of the timers,
    at every call. *)
Definition fires_after (ticks : nat) : handle := Handle (fun _ => Fires ticks).

Fixpoint float_of_nat (n : nat) : float :=
  match n with
  | O => 0%float
  | S n' => (float_of_nat n' + 1)%float
  end.

(** A world in which everything works: no variable is set in the environment,
    no option is given, the configuration file is there and holds a mapping,
    every subsystem starts, Ctrl-C comes after two firings of the timers, and
    every shutdown fires, that of the Coordinator after one more firing. *)
Definition quiet_world : world :=
  {| environ := ∅;
     argv := [];
     getcwd := "/home/voltha";
     module_file := "/opt/voltha/voltha/main.py";
     file_contents := fun p =>
       if String.eqb p "/opt/voltha/voltha/voltha.yml" then Some "logging: {}" else None;
     yaml_load := fun _ => Some (YMap [("logging", YMap [])]);
     get_my_primary_interface := "eth0";
     get_my_primary_local_ipv4 := "10.0.0.2";
     get_my_containers_name := Ok "voltha_1";
     clock := fun n => (100 + 10 * float_of_nat n)%float;
     time_ctime := fun _ => "Thu Jan  1 00:01:40 1970";
     new_Coordinator := fun _ _ _ _ _ => Ok (fires_after 1);
     init_rest_service := fun _ => Ok tt;
     VolthaGrpcServer_run := Ok (Some (fires_after 0));
     keyboard_interrupt := Some 2;
     ticks_watched := 1 |}.

(** Variations of a world. *)
Definition with_environ (env : gmap string string) (w : world) : world :=
  {| environ := env; argv := argv w; getcwd := getcwd w;
     module_file := module_file w; file_contents := file_contents w;
     yaml_load := yaml_load w;
     get_my_primary_interface := get_my_primary_interface w;
     get_my_primary_local_ipv4 := get_my_primary_local_ipv4 w;
     get_my_containers_name := get_my_containers_name w;
     clock := clock w; time_ctime := time_ctime w;
     new_Coordinator := new_Coordinator w;
     init_rest_service := init_rest_service w;
     VolthaGrpcServer_run := VolthaGrpcServer_run w;
     keyboard_interrupt := keyboard_interrupt w;
     ticks_watched := ticks_watched w |}.

Definition with_argv (args : list cli_option) (w : world) : world :=
  {| environ := environ w; argv := args; getcwd := getcwd w;
     module_file := module_file w; file_contents := file_contents w;
     yaml_load := yaml_load w;
     get_my_primary_interface := get_my_primary_interface w;
     get_my_primary_local_ipv4 := get_my_primary_local_ipv4 w;
     get_my_containers_name := get_my_containers_name w;
     clock := clock w; time_ctime := time_ctime w;
     new_Coordinator := new_Coordinator w;
     init_rest_service := init_rest_service w;
     VolthaGrpcServer_run := VolthaGrpcServer_run w;
     keyboard_interrupt := keyboard_interrupt w;
     ticks_watched := ticks_watched w |}.

Definition with_getcwd (cwd : string) (w : world) : world :=
  {| environ := environ w; argv := argv w; getcwd := cwd;
     module_file := module_file w; file_contents := file_contents w;
     yaml_load := yaml_load w;
     get_my_primary_interface := get_my_primary_interface w;
     get_my_primary_local_ipv4 := get_my_primary_local_ipv4 w;
     get_my_containers_name := get_my_containers_name w;
     clock := clock w; time_ctime := time_ctime w;
     new_Coordinator := new_Coordinator w;
     init_rest_service := init_rest_service w;
     VolthaGrpcServer_run := VolthaGrpcServer_run w;
     keyboard_interrupt := keyboard_interrupt w;
     ticks_watched := ticks_watched w |}.

Definition with_yaml_load (load : string -> option yaml_value) (w : world)
  : world :=
  {| environ := environ w; argv := argv w; getcwd := getcwd w;
     module_file := module_file w; file_contents := file_contents w;
     yaml_load := load;
     get_my_primary_interface := get_my_primary_interface w;
     get_my_primary_local_ipv4 := get_my_primary_local_ipv4 w;
     get_my_containers_name := get_my_containers_name w;
     clock := clock w; time_ctime := time_ctime w;
     new_Coordinator := new_Coordinator w;
     init_rest_service := init_rest_service w;
     VolthaGrpcServer_run := VolthaGrpcServer_run w;
     keyboard_interrupt := keyboard_interrupt w;
     ticks_watched := ticks_watched w |}.

Definition with_init_rest_service (init : py_value -> result unit) (w : world)
  : world :=
  {| environ := environ w; argv := argv w; getcwd := getcwd w;
     module_file := module_file w; file_contents := file_contents w;
     yaml_load := yaml_load w;
     get_my_primary_interface := get_my_primary_interface w;
     get_my_primary_local_ipv4 := get_my_primary_local_ipv4 w;
     get_my_containers_name := get_my_containers_name w;
     clock := clock w; time_ctime := time_ctime w;
     new_Coordinator := new_Coordinator w;
     init_rest_service := init;
     VolthaGrpcServer_run := VolthaGrpcServer_run w;
     keyboard_interrupt := keyboard_interrupt w;
     ticks_watched := ticks_watched w |}.

Definition with_new_Coordinator
    (new : string -> string -> py_value -> string -> string -> result handle)
    (w : world) : world :=
  {| environ := environ w; argv := argv w; getcwd := getcwd w;
     module_file := module_file w; file_contents := file_contents w;
     yaml_load := yaml_load w;
     get_my_primary_interface := get_my_primary_interface w;
     get_my_primary_local_ipv4 := get_my_primary_local_ipv4 w;
     get_my_containers_name := get_my_containers_name w;
     clock := clock w; time_ctime := time_ctime w;
     new_Coordinator := new;
     init_rest_service := init_rest_service w;
     VolthaGrpcServer_run := VolthaGrpcServer_run w;
     keyboard_interrupt := keyboard_interrupt w;
     ticks_watched := ticks_watched w |}.

Definition with_VolthaGrpcServer_run (run : result (option handle)) (w : world)
  : world :=
  {| environ := environ w; argv := argv w; getcwd := getcwd w;
     module_file := module_file w; file_contents := file_contents w;
     yaml_load := yaml_load w;
     get_my_primary_interface := get_my_primary_interface w;
     get_my_primary_local_ipv4 := get_my_primary_local_ipv4 w;
     get_my_containers_name := get_my_containers_name w;
     clock := clock w; time_ctime := time_ctime w;
     new_Coordinator := new_Coordinator w;
     init_rest_service := init_rest_service w;
     VolthaGrpcServer_run := run;
     keyboard_interrupt := keyboard_interrupt w;
     ticks_watched := ticks_watched w |}.


Definition with_keyboard_interrupt (ticks : option nat) (w : world) : world :=
  {| environ := environ w; argv := argv w; getcwd := getcwd w;
     module_file := module_file w; file_contents := file_contents w;
     yaml_load := yaml_load w;
     get_my_primary_interface := get_my_primary_interface w;
     get_my_primary_local_ipv4 := get_my_primary_local_ipv4 w;
     get_my_containers_name := get_my_containers_name w;
     clock := clock w; time_ctime := time_ctime w;
     new_Coordinator := new_Coordinator w;
     init_rest_service := init_rest_service w;
     VolthaGrpcServer_run := VolthaGrpcServer_run w;
     keyboard_interrupt := ticks;
     ticks_watched := ticks_watched w |}.

(** The REST service does not start. *)
Definition rest_fails_world : world :=
  with_init_rest_service (fun _ => Raise (ComponentError RestService)) quiet_world.

(** The configuration file is not YAML. *)
Definition bad_yaml_world : world := with_yaml_load (fun _ => None) quiet_world.

(** [REST_PORT=7000] in the environment, and no option. *)
Definition rest_port_env_world : world :=
  with_environ {[ "REST_PORT" := "7000" ]} quiet_world.

(** [REST_PORT=7000] in the environment and [--rest-port 6000]. *)
Definition rest_port_env_cli_world : world :=
  with_argv [opt_rest_port "6000"] rest_port_env_world.

(** [--config voltha.yml], from the working directory [cwd]. *)
Definition plain_relative_world (cwd : string) : world :=
  with_getcwd cwd (with_argv [opt_config "voltha.yml"] quiet_world).

(** Some variables are set and several options are given, some of them
    twice. *)
Definition settings_world : world :=
  with_environ
    {[ "CONSUL" := "consul:8500"; "INSTANCE_ID" := "voltha-7";
       "HOSTNAME" := "host-3"; "FLUENTD" := "fluentd:24224" ]}
    (with_argv
       [opt_consul "a:1"; opt_verbose; opt_consul "b:2"; opt_verbose;
        opt_quiet; opt_rest_port "6000"; opt_instance_id "cli-id";
        opt_instance_id_is_container_name]
       quiet_world).

(** [--config /etc/voltha/voltha.yml] *)
Definition absolute_config_world : world :=
  with_argv [opt_config "/etc/voltha/voltha.yml"] quiet_world.

(** [--no-heartbeat] and [--no-banner] *)
Definition silent_world : world :=
  with_argv [opt_no_heartbeat; opt_no_banner] quiet_world.

(** The [shutdown()] of the Coordinator fails. *)
Definition coordinator_errback_world : world :=
  with_new_Coordinator
    (fun _ _ _ _ _ =>
       Ok (Handle (fun _ => Errbacks 1 (ComponentError Coordinator))))
    quiet_world.

(** The [shutdown()] of the gRPC server never completes. *)
Definition grpc_hangs_world : world :=
  with_VolthaGrpcServer_run (Ok (Some (Handle (fun _ => NeverFires)))) quiet_world.

(** Nobody presses Ctrl-C. *)
Definition no_interrupt_world : world := with_keyboard_interrupt None quiet_world.

(** The first [shutdown()] of the Coordinator fires, a second one fails. *)
Definition second_shutdown_fails_world : world :=
  with_new_Coordinator
    (fun _ _ _ _ _ =>
       Ok (Handle (fun calls =>
                     match calls with
                     | O => Fires 0
                     | S _ => Errbacks 0 (ComponentError Coordinator)
                     end)))
    quiet_world.



(** [--rest-port -5] *)
Definition negative_port_world : world := with_argv [opt_rest_port "-5"] quiet_world.

(** [--help], and then an option that the parser does not have. *)
Definition help_world : world := with_argv [opt_help; arg_unrecognized] quiet_world.


(** ** Reading a command line *)

(** The value of the last occurrence of an option. *)
Fixpoint cli_last {A} (sel : cli_option -> option A) (args : list cli_option)
  : option A :=
  match args with
  | [] => None
  | o :: rest =>
      match cli_last sel rest with
      | Some v => Some v
      | None => sel o
      end
  end.

Definition given_config (o : cli_option) : option string :=
  match o with opt_config v => Some v | _ => None end.
Definition given_consul (o : cli_option) : option string :=
  match o with opt_consul v => Some v | _ => None end.
Definition given_external_host_address (o : cli_option) : option string :=
  match o with opt_external_host_address v => Some v | _ => None end.
Definition given_fluentd (o : cli_option) : option string :=
  match o with opt_fluentd v => Some v | _ => None end.
Definition given_internal_host_address (o : cli_option) : option string :=
  match o with opt_internal_host_address v => Some v | _ => None end.
Definition given_instance_id (o : cli_option) : option string :=
  match o with opt_instance_id v => Some v | _ => None end.
Definition given_interface (o : cli_option) : option string :=
  match o with opt_interface v => Some v | _ => None end.
Definition given_rest_port (o : cli_option) : option string :=
  match o with opt_rest_port v => Some v | _ => None end.
Definition given_container_name (o : cli_option) : option unit :=
  match o with opt_instance_id_is_container_name => Some tt | _ => None end.

Definition is_quiet (o : cli_option) : bool :=
  match o with opt_quiet => true | _ => false end.
Definition is_verbose (o : cli_option) : bool :=
  match o with opt_verbose => true | _ => false end.
Definition is_no_banner (o : cli_option) : bool :=
  match o with opt_no_banner => true | _ => false end.
Definition is_no_heartbeat (o : cli_option) : bool :=
  match o with opt_no_heartbeat => true | _ => false end.
Definition is_help (o : cli_option) : bool :=
  match o with opt_help => true | _ => false end.

(** The arguments for which the parser calls [parser.error]: at once for an
    ambiguous abbreviation or an option without its value, at the end for
    an argument it does not recognise. *)
Definition is_usage_error (o : cli_option) : bool :=
  match o with
  | opt_ambiguous | opt_invalid | arg_unrecognized => true
  | _ => false
  end.

(** A value of --rest-port that [int] refuses. *)
Definition is_bad_port (o : cli_option) : bool :=
  match o with
  | opt_rest_port v =>
      match builtins.int v with Ok _ => false | Raise _ => true end
  | _ => false
  end.

(** How many times an option occurs. *)
Definition occurrences (p : cli_option -> bool) (args : list cli_option) : Z :=
  Z.of_nat (length (List.filter p args)).

(** ** Reading a trace *)

(** The order in which [startup_components] names the subsystems. *)
Definition declaration_order : list component :=
  [Coordinator; RestService; GrpcServer].

(** The subsystems whose start was called, in the order of the calls. *)
Definition started (t : list event) : list component :=
  omap (fun e => match e with ev_start c => Some c | _ => None end) t.

Definition is_teardown (e : event) : bool :=
  match e with
  | ev_shutdown _ | ev_shutdown_done _ => true
  | _ => false
  end.

(** The calls of [shutdown()] and their completions. *)
Definition teardown (t : list event) : list event := List.filter is_teardown t.

(** One [shutdown()] that is called and awaited to its completion. *)
Definition awaited_shutdown (c : component) : list event :=
  [ev_shutdown c; ev_shutdown_done c].

(** The attribute of [self] that holds a subsystem; the REST service has
    none. *)
Definition slot (c : component) (s : state) : option handle :=
  match c with
  | Coordinator => coordinator s
  | GrpcServer => grpc_server s
  | RestService => None
  end.

(** The subsystems [self] holds a handle of, in declaration order. *)
Definition held (s : state) : list component :=
  List.filter (fun c => match slot c s with Some _ => true | None => false end)
              declaration_order.

(** The subsystems [self] holds a handle of, in declaration order, each with
    the outcome of the next call of its [shutdown()]. *)
Definition held_outcomes (s : state) : list (component * deferred_outcome) :=
  omap (fun c =>
          (fun h => (c, handle_shutdown h (shutdown_calls c (trace s))))
            <$> slot c s)
       declaration_order.

(** The calls and completions of a round of shutdowns, one after the other:
    each [shutdown()] is called when the one before has fired, and the first
    that fails or never fires is the last that is called. *)
Fixpoint teardown_of (hs : list (component * deferred_outcome)) : list event :=
  match hs with
  | [] => []
  | (c, Fires _) :: rest => ev_shutdown c :: ev_shutdown_done c :: teardown_of rest
  | (c, _) :: _ => [ev_shutdown c]
  end.

(** How that round ends. *)
Fixpoint round_outcome (hs : list (component * deferred_outcome)) : outcome unit :=
  match hs with
  | [] => Done tt
  | (_, Fires _) :: rest => round_outcome rest
  | (_, Errbacks _ e) :: _ => Raised e
  | (_, NeverFires) :: _ => Waiting
  end.

(** The records of the heartbeat: status, since, uptime. *)
Definition heartbeats (t : list event) : list (string * string * float) :=
  omap (fun e => match e with
                 | ev_log_debug status since uptime => Some (status, since, uptime)
                 | _ => None
                 end) t.


(** The intervals of the [LoopingCall]s that were started. *)
Definition armed (t : list event) : list Z :=
  omap (fun e => match e with ev_LoopingCall_start i => Some i | _ => None end) t.

Definition is_record (e : event) : bool :=
  match e with ev_log_debug _ _ _ => true | _ => false end.

(** What the shutdown hook adds to the trace after its log line: calls and
    completions of [shutdown()], and the records of the heartbeat that is
    called in between. *)
Definition is_hook_event (e : event) : bool := is_teardown e || is_record e.

(** The outcome of the start of a subsystem, as [startup_components] calls
    it. *)
Definition start_result (w : world) (args : Namespace) (c : component)
  : result unit :=
  match c with
  | Coordinator =>
      (let! _ := new_Coordinator w (internal_host_address args)
                   (external_host_address args) (rest_port args)
                   (instance_id args) (consul args) in
       Ok tt)%result
  | RestService => init_rest_service w (rest_port args)
  | GrpcServer => (let! _ := VolthaGrpcServer_run w in Ok tt)%result
  end.

(** The subsystems declared before [k], and those up to [k]. *)
Fixpoint before (k : component) (l : list component) : list component :=
  match l with
  | [] => []
  | c :: l' => if component_eqb c k then [] else c :: before k l'
  end.

Fixpoint upto (k : component) (l : list component) : list component :=
  match l with
  | [] => []
  | c :: l' => if component_eqb c k then [c] else c :: upto k l'
  end.

(** The six lines of the banner, as [main.py] has them at lines 173 to 178. *)
Definition banner_lines : list string :=
  [" _    ______  __  ________  _____ ";
   "| |  / / __ \/ / /_  __/ / / /   |";
   "| | / / / / / /   / / / /_/ / /| |";
   "| |/ / /_/ / /___/ / / __  / ___ |";
   "|___/\____/_____/_/ /_/ /_/_/  |_|";
   "(to stop: press Ctrl-C)"].

Definition banner : list event := ev_log_info <$> banner_lines.

(** What [heartbeat] logs with the [i]-th reading of the clock, when the
    heartbeat was started with reading 0. *)
Definition heartbeat_record (w : world) (i : nat) : string * string * float :=
  ("up", time_ctime w (clock w 0), (clock w i - clock w 0)%float).

Definition heartbeat_event (w : world) (i : nat) : event :=
  ev_log_debug "up" (time_ctime w (clock w 0)) (clock w i - clock w 0)%float.

(** The [LoopingCall] of [start_heartbeat]. *)
Definition heartbeat_call (w : world) : LoopingCall :=
  {| lc_f := {| t0 := clock w 0; t0s := time_ctime w (clock w 0) |};
     lc_interval := 10 |}.

(** The state in which [__init__] calls [startup_components]. *)
Definition before_startup (w : world) (args : Namespace) : state :=
  {| coordinator := None;
     grpc_server := None;
     looping_calls := if no_heartbeat args then [] else [heartbeat_call w];
     clock_reads := if no_heartbeat args then 0 else 2;
     trace :=
       [ev_setup_logging (instance_id args)
          (default 0 (verbose args) - default 0 (quiet args))%Z (fluentd args)]
       ++ (if no_banner args then [] else banner)
       ++ (if no_heartbeat args then []
           else [ev_LoopingCall_start 10; heartbeat_event w 1]) |}.

(** The events a computation adds to the trace. *)
Definition events_of {A} (m : M A) (s : state) : list event :=
  drop (length (trace s)) (trace (m s).2).

(** The state [s] with its trace extended. *)
Definition record (new : list event) (s : state) : state :=
  {| coordinator := coordinator s; grpc_server := grpc_server s;
     looping_calls := looping_calls s; clock_reads := clock_reads s;
     trace := trace s ++ new |}.

(** What the timers log in one firing, from reading [k] of the clock on. *)
Fixpoint each_events (w : world) (lcs : list LoopingCall) (k : nat) : list event :=
  match lcs with
  | [] => []
  | lc :: rest =>
      ev_log_debug "up" (t0s (lc_f lc)) (clock w k - t0 (lc_f lc))%float
      :: each_events w rest (S k)
  end.

(** What the timers log in [n] firings, from reading [k] of the clock on. *)
Fixpoint tick_events (w : world) (lcs : list LoopingCall) (k n : nat)
  : list event :=
  match n with
  | O => []
  | S n' => each_events w lcs k ++ tick_events w lcs (k + length lcs) n'
  end.

(** The state [s] after [n] firings of the timers. *)
Definition ticked (w : world) (n : nat) (s : state) : state :=
  {| coordinator := coordinator s; grpc_server := grpc_server s;
     looping_calls := looping_calls s;
     clock_reads := clock_reads s + n * length (looping_calls s);
     trace := trace s ++ tick_events w (looping_calls s) (clock_reads s) n |}.

(** The events of a [startup_components] in which every start succeeds. *)
Definition startup_events : list event :=
  [ev_log_info "starting-internal-components";
   ev_start Coordinator; ev_start RestService; ev_start GrpcServer;
   ev_log_info "started-internal-services"].

(** The events of [start_reactor] before the timers fire. *)
Definition reactor_events : list event :=
  [ev_reactor_callWhenRunning; ev_reactor_addSystemEventTrigger;
   ev_reactor_run; ev_log_info "twisted-reactor-started"].

(** The phases of a run. *)
Inductive phase : Type :=
| ph_settings
| ph_heartbeat
| ph_start (c : component)
| ph_reactor.

Definition phase_of (e : event) : option phase :=
  match e with
  | ev_setup_logging _ _ _ => Some ph_settings
  | ev_LoopingCall_start _ => Some ph_heartbeat
  | ev_start c => Some (ph_start c)
  | ev_reactor_run => Some ph_reactor
  | _ => None
  end.

Definition phases (t : list event) : list phase := omap phase_of t.

(** The state in which the reactor calls the hook [shutdown_components],
    when [start_reactor] is called in [s] and Ctrl-C comes after [n] firings
    of the timers. *)
Definition at_interrupt (w : world) (n : nat) (s : state) : state :=
  ticked w n (record reactor_events s).

(** The state in which [__init__] returns when every subsystem starts. *)
Definition after_startup (w : world) (args : Namespace) (c : handle)
    (g : option handle) : state :=
  {| coordinator := Some c; grpc_server := g;
     looping_calls := looping_calls (before_startup w args);
     clock_reads := clock_reads (before_startup w args);
     trace := trace (before_startup w args) ++ startup_events |}.

(** The handles held after a startup, each with the outcome of the first
    call of its [shutdown()]. *)
Definition first_outcomes (c : handle) (g : option handle)
  : list (component * deferred_outcome) :=
  (Coordinator, handle_shutdown c 0)
  :: match g with
     | Some h => [(GrpcServer, handle_shutdown h 0)]
     | None => []
     end.

(** The events of a startup: log lines and starts. *)
Definition is_startup_event (e : event) : bool :=
  match e with
  | ev_log_info _ | ev_start _ => true
  | _ => false
  end.

(** The order of the phases of a run that comes to the reactor. *)
Definition run_order (heartbeat : bool) : list phase :=
  [ph_settings] ++ (if heartbeat then [ph_heartbeat] else [])
  ++ (ph_start <$> declaration_order) ++ [ph_reactor].

(** The order in which the heartbeat would be started after the subsystems. *)
Definition heartbeat_last_order : list phase :=
  [ph_settings] ++ (ph_start <$> declaration_order)
  ++ [ph_heartbeat; ph_reactor].

(** The events that follow the call of [startup_components]: its two log
    lines, the starts, the calls to the reactor, its log line, the records of
    the heartbeat, the log line of the shutdown hook and the shutdowns. *)
Definition is_run_event (e : event) : bool :=
  match e with
  | ev_log_info msg =>
      String.eqb msg "starting-internal-components"
      || String.eqb msg "started-internal-services"
      || String.eqb msg "twisted-reactor-started"
      || String.eqb msg "exiting-on-keyboard-interrupt"
  | ev_setup_logging _ _ _ | ev_LoopingCall_start _ => false
  | _ => true
  end.

(** What the timers and the clock of a state show when the heartbeat was
    started with reading 0, or was not started: every reading of the clock
    after the first is in a record, in order. *)
Definition heartbeat_inv (w : world) (no_heartbeat : bool) (s : state) : Prop :=
  if no_heartbeat
  then looping_calls s = [] ∧ clock_reads s = 0 ∧
       heartbeats (trace s) = [] ∧ armed (trace s) = []
  else looping_calls s = [heartbeat_call w] ∧ (2 ≤ clock_reads s)%nat ∧
       heartbeats (trace s) = heartbeat_record w <$> seq 1 (clock_reads s - 1) ∧
       armed (trace s) = [10%Z].

(** ** Paths *)

(** The settings with another --config. *)
Definition set_config (path : string) (ns : Namespace) : Namespace :=
  let 'MkNamespace _ cs ex fl ih ii nf nb nh rp qu vb cn := ns in
  MkNamespace path cs ex fl ih ii nf nb nh rp qu vb cn.

(** ['/' in s] *)
Fixpoint has_slash (s : string) : bool :=
  match s with
  | EmptyString => false
  | String c rest => Ascii.eqb c "/"%char || has_slash rest
  end.

(** A component that [normpath] keeps: not empty, not a dot, not two dots,
    and without a slash. *)
Definition is_clean (comp : string) : bool :=
  negb (String.eqb comp "") && negb (String.eqb comp ".")
  && negb (String.eqb comp "..") && negb (has_slash comp).

(** A path under the root: one slash, or two, before [s]. *)
Definition rooted (double : bool) (s : string) : string :=
  if double then String "/" (String "/" s) else String "/" s.

(** * Theorems *)

Open Scope list_scope.

(** ** Reading traces *)

(** One step of the monad: the operations are unfolded and the projections
    of the state computed. *)
Ltac step_M :=
  cbv [bind emit lift ret raise never_returns set_coordinator set_grpc_server
       add_looping_call get time_time];
  cbn [coordinator grpc_server looping_calls clock_reads trace fst snd].

Ltac not_in_events :=
  let H := fresh "Hin" in
  intros H;
  repeat (apply elem_of_cons in H as [H | H];
          [ try discriminate H; try (injection H as ->); try discriminate | ]);
  try (apply elem_of_nil in H; exact H).

Lemma started_app t1 t2 : started (t1 ++ t2) = started t1 ++ started t2.
Proof. apply omap_app. Qed.

Lemma shutdowns_app t1 t2 : shutdowns (t1 ++ t2) = shutdowns t1 ++ shutdowns t2.
Proof. apply omap_app. Qed.

Lemma heartbeats_app t1 t2 : heartbeats (t1 ++ t2) = heartbeats t1 ++ heartbeats t2.
Proof. apply omap_app. Qed.

Lemma armed_app t1 t2 : armed (t1 ++ t2) = armed t1 ++ armed t2.
Proof. apply omap_app. Qed.

Lemma phases_app t1 t2 : phases (t1 ++ t2) = phases t1 ++ phases t2.
Proof. apply omap_app. Qed.

Lemma teardown_app t1 t2 : teardown (t1 ++ t2) = teardown t1 ++ teardown t2.
Proof. apply List.filter_app. Qed.

Lemma shutdown_calls_app c t1 t2 :
  shutdown_calls c (t1 ++ t2) = shutdown_calls c t1 + shutdown_calls c t2.
Proof.
  unfold shutdown_calls. by rewrite shutdowns_app, List.filter_app, length_app.
Qed.

(** The shutdowns are read off the calls and completions alone. *)
Lemma shutdowns_teardown (t : list event) : shutdowns (teardown t) = shutdowns t.
Proof.
  induction t as [|e t IH]; [ done | ].
  destruct e; cbn; try exact IH. f_equal. exact IH.
Qed.

(** *** What kinds of events show *)

Lemma records_observed (new : list event) :
  Forall (fun e => is_record e = true) new →
  started new = [] ∧ shutdowns new = [] ∧ armed new = [] ∧ phases new = [] ∧
  teardown new = [].
Proof.
  induction 1 as [|e new He _ IH]; [ done | ].
  by destruct e.
Qed.

Lemma hook_events_observed (sd : list event) :
  Forall (fun e => is_hook_event e = true) sd →
  started sd = [] ∧ armed sd = [] ∧ phases sd = [] ∧
  Forall (fun e => is_run_event e = true) sd ∧
  ev_reactor_stopped ∉ sd.
Proof.
  induction 1 as [|e sd He _ (IH1 & IH2 & IH3 & IH4 & IH5)].
  - split_and!; try done. apply not_elem_of_nil.
  - destruct e; try discriminate He; cbn; split_and!; try done;
      try (by constructor);
      intros [? | ?]%elem_of_cons; done.
Qed.

Lemma startup_events_observed (new : list event) :
  Forall (fun e => is_startup_event e = true) new →
  shutdowns new = [] ∧ heartbeats new = [] ∧ armed new = [] ∧ teardown new = [].
Proof.
  induction 1 as [|e new He _ (IH1 & IH2 & IH3 & IH4)]; [ done | ].
  by destruct e.
Qed.

Lemma records_are_hook_events (new : list event) :
  Forall (fun e => is_record e = true) new →
  Forall (fun e => is_hook_event e = true) new.
Proof.
  intros H. eapply Forall_impl; [ exact H | ].
  intros e He. unfold is_hook_event. by rewrite He, orb_true_r.
Qed.

(** ** The timers *)

Lemma fire_each_run (w : world) (lcs : list LoopingCall) (s : state) :
  Main.fire_each w lcs s
  = (Done tt,
     {| coordinator := coordinator s; grpc_server := grpc_server s;
        looping_calls := looping_calls s;
        clock_reads := clock_reads s + length lcs;
        trace := trace s ++ each_events w lcs (clock_reads s) |}).
Proof.
  revert s. induction lcs as [|lc lcs IH]; intros [c g l k t].
  - cbn. by rewrite Nat.add_0_r, app_nil_r.
  - cbn [Main.fire_each]. unfold Main.heartbeat. step_M. rewrite IH.
    cbn [coordinator grpc_server looping_calls clock_reads trace each_events
         length].
    rewrite <- app_assoc. cbn [app]. do 2 f_equal. lia.
Qed.

(** The timers only call the heartbeat, each call with a new reading of the
    clock. *)
Lemma fire_timers_run (w : world) (n : nat) (s : state) :
  Main.fire_timers w n s = (Done tt, ticked w n s).
Proof.
  revert s. induction n as [|n IH]; intros [c g l k t].
  - unfold ticked. cbn. by rewrite Nat.add_0_r, app_nil_r.
  - cbn [Main.fire_timers]. step_M. rewrite fire_each_run.
    cbn [coordinator grpc_server looping_calls clock_reads trace].
    rewrite IH. unfold ticked.
    cbn [coordinator grpc_server looping_calls clock_reads trace tick_events].
    rewrite <- app_assoc. do 2 f_equal. lia.
Qed.

Lemma each_events_records (w : world) (lcs : list LoopingCall) (k : nat) :
  Forall (fun e => is_record e = true) (each_events w lcs k).
Proof.
  revert k. induction lcs as [|lc lcs IH]; intros k; constructor; [ done | ].
  apply IH.
Qed.

Lemma tick_events_records (w : world) (lcs : list LoopingCall) (k n : nat) :
  Forall (fun e => is_record e = true) (tick_events w lcs k n).
Proof.
  revert k. induction n as [|n IH]; intros k; [ constructor | ].
  cbn [tick_events]. apply Forall_app. split; [ apply each_events_records | ].
  apply IH.
Qed.

Lemma tick_events_none (w : world) (k n : nat) : tick_events w [] k n = [].
Proof. revert k. induction n as [|n IH]; intros k; [ done | ]. cbn. apply IH. Qed.

Lemma tick_events_heartbeat (w : world) (k n : nat) :
  tick_events w [heartbeat_call w] k n = heartbeat_event w <$> seq k n.
Proof.
  revert k. induction n as [|n IH]; intros k; [ done | ].
  cbn [tick_events each_events length app seq fmap list_fmap].
  f_equal. rewrite IH. by rewrite Nat.add_1_r.
Qed.

Lemma heartbeats_heartbeat_events (w : world) (l : list nat) :
  heartbeats (heartbeat_event w <$> l) = heartbeat_record w <$> l.
Proof. induction l as [|i l IH]; [ done | ]. cbn. f_equal. exact IH. Qed.

(** *** The invariant of the heartbeat *)

Lemma heartbeat_inv_frame (w : world) (nh : bool) (s s' : state)
    (new : list event) :
  looping_calls s' = looping_calls s →
  clock_reads s' = clock_reads s →
  trace s' = trace s ++ new →
  heartbeats new = [] →
  armed new = [] →
  heartbeat_inv w nh s → heartbeat_inv w nh s'.
Proof.
  intros Hl Hk Ht Hh Ha. unfold heartbeat_inv.
  rewrite Hl, Hk, Ht, heartbeats_app, armed_app, Hh, Ha, !app_nil_r. done.
Qed.

Lemma heartbeat_inv_record (w : world) (nh : bool) (s : state)
    (new : list event) :
  heartbeats new = [] →
  armed new = [] →
  heartbeat_inv w nh s → heartbeat_inv w nh (record new s).
Proof. intros Hh Ha. by apply (heartbeat_inv_frame w nh s _ new). Qed.

Lemma heartbeat_inv_ticked (w : world) (nh : bool) (n : nat) (s : state) :
  heartbeat_inv w nh s → heartbeat_inv w nh (ticked w n s).
Proof.
  unfold heartbeat_inv, ticked.
  cbn [looping_calls clock_reads trace]. destruct nh.
  - intros (-> & -> & Hh & Ha). rewrite tick_events_none, app_nil_r.
    split_and!; try done. cbn. lia.
  - intros (-> & Hk & Hh & Ha).
    rewrite tick_events_heartbeat, heartbeats_app, armed_app, Hh, Ha,
      heartbeats_heartbeat_events.
    destruct (records_observed (heartbeat_event w <$> seq (clock_reads s) n))
      as (_ & _ & -> & _).
    { apply Forall_fmap, Forall_forall. by intros. }
    split_and!; [ done | cbn; lia | | done ].
    rewrite <- fmap_app. f_equal.
    replace (clock_reads s + n * length [heartbeat_call w] - 1)
      with ((clock_reads s - 1) + n) by (cbn; lia).
    rewrite seq_app. do 2 f_equal. lia.
Qed.

(** ** The shutdown hook *)

(** One [yield] of the hook. *)
Lemma yield_shutdown_run (w : world) (c : component) (h : handle) (s : state) :
  Main.yield_shutdown w c h s
  = match handle_shutdown h (shutdown_calls c (trace s)) with
    | Fires d =>
        (Done tt, record [ev_shutdown_done c] (ticked w d (record [ev_shutdown c] s)))
    | Errbacks d e => (Raised e, ticked w d (record [ev_shutdown c] s))
    | NeverFires => (Waiting, ticked w (ticks_watched w) (record [ev_shutdown c] s))
    end.
Proof.
  unfold Main.yield_shutdown, Main.wait_for_ever. step_M.
  destruct (handle_shutdown h (shutdown_calls c (trace s))); step_M;
    by rewrite fire_timers_run.
Qed.

(** The hook, [yield] by [yield]. *)
Lemma shutdown_components_run (w : world) (s : state) :
  Main.shutdown_components w s
  = match coordinator s with
    | Some h =>
        match Main.yield_shutdown w Coordinator h
                (record [ev_log_info "exiting-on-keyboard-interrupt"] s) with
        | (Done _, s1) =>
            match grpc_server s1 with
            | Some g => Main.yield_shutdown w GrpcServer g s1
            | None => (Done tt, s1)
            end
        | (Raised e, s1) => (Raised e, s1)
        | (Waiting, s1) => (Waiting, s1)
        end
    | None =>
        match grpc_server s with
        | Some g =>
            Main.yield_shutdown w GrpcServer g
              (record [ev_log_info "exiting-on-keyboard-interrupt"] s)
        | None =>
            (Done tt, record [ev_log_info "exiting-on-keyboard-interrupt"] s)
        end
    end.
Proof.
  unfold Main.shutdown_components, record. step_M.
  destruct (coordinator s) as [h|].
  - destruct (Main.yield_shutdown w Coordinator h _) as [[[]|e|] s1]; try done.
    by destruct (grpc_server s1).
  - by destruct (grpc_server s).
Qed.

(** What one [yield] of the hook does to a state. *)
Lemma yield_shutdown_shape (w : world) (c : component) (h : handle) (s : state) :
  ∃ sd,
    trace (Main.yield_shutdown w c h s).2 = trace s ++ sd ∧
    Forall (fun e => is_hook_event e = true) sd ∧
    teardown sd
    = teardown_of [(c, handle_shutdown h (shutdown_calls c (trace s)))] ∧
    (Main.yield_shutdown w c h s).1
    = round_outcome [(c, handle_shutdown h (shutdown_calls c (trace s)))] ∧
    coordinator (Main.yield_shutdown w c h s).2 = coordinator s ∧
    grpc_server (Main.yield_shutdown w c h s).2 = grpc_server s ∧
    looping_calls (Main.yield_shutdown w c h s).2 = looping_calls s ∧
    (clock_reads s ≤ clock_reads (Main.yield_shutdown w c h s).2)%nat ∧
    ∀ nh, heartbeat_inv w nh s →
          heartbeat_inv w nh (Main.yield_shutdown w c h s).2.
Proof.
  rewrite yield_shutdown_run.
  destruct (handle_shutdown h (shutdown_calls c (trace s))) as [d|d e|];
    cbn [fst snd teardown_of round_outcome].
  - exists (ev_shutdown c
            :: tick_events w (looping_calls s) (clock_reads s) d
            ++ [ev_shutdown_done c]).
    pose proof (tick_events_records w (looping_calls s) (clock_reads s) d) as Hr.
    destruct (records_observed _ Hr) as (_ & _ & _ & _ & Htd).
    split_and!; try done.
    + cbn. by rewrite <- !app_assoc.
    + constructor; [ done | ]. apply Forall_app. split.
      * by apply records_are_hook_events.
      * by constructor.
    + change (teardown (ev_shutdown c :: ?l)) with (ev_shutdown c :: teardown l).
      by rewrite teardown_app, Htd.
    + cbn. lia.
    + intros nh Hinv. apply heartbeat_inv_record; [ done.. | ].
      apply heartbeat_inv_ticked. by apply heartbeat_inv_record.
  - exists (ev_shutdown c :: tick_events w (looping_calls s) (clock_reads s) d).
    pose proof (tick_events_records w (looping_calls s) (clock_reads s) d) as Hr.
    destruct (records_observed _ Hr) as (_ & _ & _ & _ & Htd).
    split_and!; try done.
    + cbn. by rewrite <- !app_assoc.
    + constructor; [ done | ]. by apply records_are_hook_events.
    + change (teardown (ev_shutdown c :: ?l)) with (ev_shutdown c :: teardown l).
      by rewrite Htd.
    + cbn. lia.
    + intros nh Hinv. apply heartbeat_inv_ticked. by apply heartbeat_inv_record.
  - exists (ev_shutdown c
            :: tick_events w (looping_calls s) (clock_reads s) (ticks_watched w)).
    pose proof (tick_events_records w (looping_calls s) (clock_reads s)
                  (ticks_watched w)) as Hr.
    destruct (records_observed _ Hr) as (_ & _ & _ & _ & Htd).
    split_and!; try done.
    + cbn. by rewrite <- !app_assoc.
    + constructor; [ done | ]. by apply records_are_hook_events.
    + change (teardown (ev_shutdown c :: ?l)) with (ev_shutdown c :: teardown l).
      by rewrite Htd.
    + cbn. lia.
    + intros nh Hinv. apply heartbeat_inv_ticked. by apply heartbeat_inv_record.
Qed.

(** A [yield] on one subsystem leaves the count of the calls made on another
    as it is. *)
Lemma hook_events_shutdown_calls (c : component) (sd : list event)
    (hs : list (component * deferred_outcome)) :
  teardown sd = teardown_of hs →
  c ∉ hs.*1 →
  shutdown_calls c sd = 0.
Proof.
  intros Htd Hc. unfold shutdown_calls.
  rewrite <- shutdowns_teardown, Htd. clear Htd.
  induction hs as [|[c' o] hs IH]; [ done | ].
  apply not_elem_of_cons in Hc as [Hne Hc]. cbn in Hne.
  assert (component_eqb c c' = false) as Hcc by (by destruct c, c').
  destruct o; cbn; rewrite Hcc; cbn; by try apply IH.
Qed.

Lemma held_outcomes_slots (s : state) :
  held_outcomes s
  = match coordinator s with
    | Some h => [(Coordinator, handle_shutdown h (shutdown_calls Coordinator (trace s)))]
    | None => []
    end
    ++ match grpc_server s with
       | Some h => [(GrpcServer, handle_shutdown h (shutdown_calls GrpcServer (trace s)))]
       | None => []
       end.
Proof. unfold held_outcomes. cbn. by destruct (coordinator s), (grpc_server s). Qed.

Lemma held_outcomes_held (s : state) : (held_outcomes s).*1 = held s.
Proof.
  rewrite held_outcomes_slots. unfold held. cbn.
  by destruct (coordinator s), (grpc_server s).
Qed.

(** What the hook does to a state: it logs one line, then calls and awaits
    the [shutdown()] of the handles it holds, in declaration order, up to
    the first one that does not fire, while the heartbeat goes on. *)
Lemma shutdown_components_shape (w : world) (s : state) :
  ∃ sd,
    trace (Main.shutdown_components w s).2
    = trace s ++ ev_log_info "exiting-on-keyboard-interrupt" :: sd ∧
    Forall (fun e => is_hook_event e = true) sd ∧
    teardown sd = teardown_of (held_outcomes s) ∧
    (Main.shutdown_components w s).1 = round_outcome (held_outcomes s) ∧
    coordinator (Main.shutdown_components w s).2 = coordinator s ∧
    grpc_server (Main.shutdown_components w s).2 = grpc_server s ∧
    looping_calls (Main.shutdown_components w s).2 = looping_calls s ∧
    (clock_reads s ≤ clock_reads (Main.shutdown_components w s).2)%nat ∧
    ∀ nh, heartbeat_inv w nh s →
          heartbeat_inv w nh (Main.shutdown_components w s).2.
Proof.
  rewrite shutdown_components_run.
  set (s0 := record [ev_log_info "exiting-on-keyboard-interrupt"] s).
  assert (Hcalls : ∀ c, shutdown_calls c (trace s0) = shutdown_calls c (trace s)).
  { intros c. subst s0. cbn [record trace]. rewrite shutdown_calls_app.
    unfold shutdown_calls at 2. cbn. lia. }
  assert (Hinv0 : ∀ nh, heartbeat_inv w nh s → heartbeat_inv w nh s0).
  { intros nh. by apply heartbeat_inv_record. }
  rewrite held_outcomes_slots.
  destruct (coordinator s) as [hc|] eqn:Hc; cbn [app].
  - destruct (yield_shutdown_shape w Coordinator hc s0)
      as (sd1 & Ht1 & Hf1 & Htd1 & Ho1 & Hc1 & Hg1 & Hl1 & Hk1 & Hi1).
    rewrite Hcalls in Htd1, Ho1.
    destruct (Main.yield_shutdown w Coordinator hc s0) as [o1 s1].
    cbn [fst snd] in *.
    destruct (handle_shutdown hc (shutdown_calls Coordinator (trace s)))
      as [d|d e|] eqn:Hout; cbn [teardown_of round_outcome] in *; subst o1.
    + assert (Hgc : shutdown_calls GrpcServer (trace s1)
                    = shutdown_calls GrpcServer (trace s)).
      { rewrite Ht1, shutdown_calls_app, Hcalls.
        rewrite (hook_events_shutdown_calls GrpcServer sd1
                   [(Coordinator, Fires d)]); [ lia | done | ].
        cbn. not_in_events. }
      rewrite Hg1. subst s0.
      cbn [record trace grpc_server coordinator looping_calls clock_reads] in *.
      destruct (grpc_server s) as [hg|] eqn:Hg.
      * destruct (yield_shutdown_shape w GrpcServer hg s1)
          as (sd2 & Ht2 & Hf2 & Htd2 & Ho2 & Hc2 & Hg2 & Hl2 & Hk2 & Hi2).
        rewrite Hgc in Htd2, Ho2.
        exists (sd1 ++ sd2).
        split_and!.
        -- rewrite Ht2, Ht1. cbn [trace]. by rewrite <- !app_assoc.
        -- by apply Forall_app.
        -- rewrite teardown_app, Htd1, Htd2.
           by destruct (handle_shutdown hg _).
        -- rewrite Ho2. by destruct (handle_shutdown hg _).
        -- by rewrite Hc2, Hc1.
        -- by rewrite Hg2, Hg1.
        -- by rewrite Hl2, Hl1.
        -- cbn [clock_reads] in Hk1. lia.
        -- intros nh Hinv. by apply Hi2, Hi1, Hinv0.
      * exists sd1. cbn [fst snd]. split_and!; try done.
        -- rewrite Ht1. by rewrite <- !app_assoc.
        -- by rewrite Hc1.
        -- intros nh Hinv. by apply Hi1, Hinv0.
    + exists sd1. subst s0. cbn [record trace grpc_server coordinator
                                 looping_calls clock_reads fst snd] in *.
      split_and!; try done.
      * rewrite Ht1. by rewrite <- !app_assoc.
      * by rewrite Hc1.
      * intros nh Hinv. by apply Hi1, Hinv0.
    + exists sd1. subst s0. cbn [record trace grpc_server coordinator
                                 looping_calls clock_reads fst snd] in *.
      split_and!; try done.
      * rewrite Ht1. by rewrite <- !app_assoc.
      * by rewrite Hc1.
      * intros nh Hinv. by apply Hi1, Hinv0.
  - destruct (grpc_server s) as [hg|] eqn:Hg.
    + destruct (yield_shutdown_shape w GrpcServer hg s0)
        as (sd2 & Ht2 & Hf2 & Htd2 & Ho2 & Hc2 & Hg2 & Hl2 & Hk2 & Hi2).
      rewrite Hcalls in Htd2, Ho2.
      exists sd2. subst s0. cbn [record trace grpc_server coordinator
                                 looping_calls clock_reads] in *.
      split_and!; try done.
      * rewrite Ht2. by rewrite <- !app_assoc.
      * by rewrite Hc2.
      * by rewrite Hg2.
      * intros nh Hinv. by apply Hi2, Hinv0.
    + exists []. subst s0. cbn. split_and!; done.
Qed.

Lemma teardown_elem (c : component) (sd : list event) :
  ev_shutdown c ∈ sd ↔ ev_shutdown c ∈ teardown sd.
Proof.
  unfold teardown. rewrite !list_elem_of_In, List.filter_In. cbn. tauto.
Qed.

Lemma teardown_of_shutdown (c : component)
    (hs : list (component * deferred_outcome)) :
  ev_shutdown c ∈ teardown_of hs → c ∈ hs.*1.
Proof.
  induction hs as [|[c' o] hs IH]; [ by intros ?%elem_of_nil | ].
  cbn [teardown_of fmap list_fmap fst]. rewrite elem_of_cons.
  destruct o; rewrite !elem_of_cons.
  - intros [[= ->] | [[=] | Hin]]; auto.
  - intros [[= ->] | []%elem_of_nil]; auto.
  - intros [[= ->] | []%elem_of_nil]; auto.
Qed.

Lemma teardown_of_first (c : component) (o : deferred_outcome)
    (hs : list (component * deferred_outcome)) :
  ev_shutdown c ∈ teardown_of ((c, o) :: hs).
Proof. destruct o; cbn; apply elem_of_cons; by left. Qed.

Lemma held_slot (c : component) (s : state) : c ∈ held s ↔ is_Some (slot c s).
Proof.
  unfold held. rewrite list_elem_of_In, List.filter_In, <- list_elem_of_In.
  unfold declaration_order. rewrite !elem_of_cons, elem_of_nil.
  destruct (slot c s) eqn:Hs.
  - split; [ by eauto | ]. intros _. split; [ destruct c; auto | done ].
  - split; [ by intros [_ [=]] | by intros [? [=]] ].
Qed.

Lemma round_outcome_raised (hs : list (component * deferred_outcome)) (e : exn) :
  round_outcome hs = Raised e → ∃ c d, (c, Errbacks d e) ∈ hs.
Proof.
  induction hs as [|[c o] hs IH]; [ done | ]. destruct o as [d|d e'|]; cbn.
  - intros (c' & d' & Hin)%IH. exists c', d'. by right.
  - intros [= ->]. exists c, d. by left.
  - done.
Qed.

Lemma held_outcomes_elem (c : component) (o : deferred_outcome) (s : state) :
  (c, o) ∈ held_outcomes s →
  ∃ h, slot c s = Some h ∧ o = handle_shutdown h (shutdown_calls c (trace s)).
Proof.
  unfold held_outcomes. intros (c' & _ & Hc)%list_elem_of_omap.
  destruct (slot c' s) as [h|] eqn:Hs; [ | discriminate ].
  injection Hc as <- <-. eauto.
Qed.

(** C9: a handle that is [None] is skipped by the shutdown sequence:
    [shutdown()] is not called on it, the sequence goes on to the other
    handle, and no exception comes from the absent handle. *)
Theorem C9_absent_handles_are_skipped (w : world) (s : state) :
  ∃ new : list event,
    trace (Main.shutdown_components w s).2 = trace s ++ new ∧
    (∀ c, slot c s = None → ev_shutdown c ∉ new) ∧
    (coordinator s = None → is_Some (grpc_server s) →
     ev_shutdown GrpcServer ∈ new) ∧
    (grpc_server s = None → is_Some (coordinator s) →
     ev_shutdown Coordinator ∈ new) ∧
    (coordinator s = None → grpc_server s = None →
     (Main.shutdown_components w s).1 = Done tt) ∧
    (∀ e, (Main.shutdown_components w s).1 = Raised e →
          ∃ c h d, slot c s = Some h ∧
                   handle_shutdown h (shutdown_calls c (trace s)) = Errbacks d e).
Proof.
  destruct (shutdown_components_shape w s) as (sd & Ht & _ & Htd & Ho & _).
  exists (ev_log_info "exiting-on-keyboard-interrupt" :: sd).
  split; [ exact Ht | ]. split_and!.
  - intros c Hc [[=] | Hin%teardown_elem]%elem_of_cons.
    rewrite Htd in Hin. apply teardown_of_shutdown in Hin.
    rewrite held_outcomes_held in Hin. apply held_slot in Hin as [h Hh].
    congruence.
  - intros Hc [h Hg]. right. apply teardown_elem. rewrite Htd.
    rewrite held_outcomes_slots, Hc, Hg. apply teardown_of_first.
  - intros Hg [h Hc]. right. apply teardown_elem. rewrite Htd.
    rewrite held_outcomes_slots, Hc, Hg. apply teardown_of_first.
  - intros Hc Hg. rewrite Ho, held_outcomes_slots, Hc, Hg. reflexivity.
  - intros e He. rewrite Ho in He.
    apply round_outcome_raised in He as (c & d & Hin).
    apply held_outcomes_elem in Hin as (h & Hh & Hout). eauto.
Qed.

(** ** Startup *)

(** With the settings resolved and the configuration loaded, [__init__]
    comes to [startup_components] in the state [before_startup]. *)
Lemma init_reaches_startup (w : world) (args : Namespace) (cfg lg : yaml_value) :
  parse_args w = Ok args →
  load_config w args = Ok cfg →
  yaml_get cfg "logging" = Ok lg →
  Main.__init__ w initial_state
  = (Main.startup_components w args;; ret args)%M (before_startup w args).
Proof.
  intros Hp Hl Hy. unfold Main.__init__, before_startup.
  unfold bind at 1. rewrite Hp. cbn [lift ret].
  unfold bind at 1. rewrite Hl. cbn [lift ret].
  unfold bind at 1. rewrite Hy. cbn [lift ret].
  destruct (no_banner args), (no_heartbeat args); reflexivity.
Qed.

Lemma init_parse_args_raises (w : world) (e : exn) :
  parse_args w = Raise e →
  Main.__init__ w initial_state = (Raised e, initial_state).
Proof.
  intros Hp. unfold Main.__init__. unfold bind at 1. rewrite Hp. reflexivity.
Qed.

Lemma init_load_config_raises (w : world) (args : Namespace) (e : exn) :
  parse_args w = Ok args →
  load_config w args = Raise e →
  Main.__init__ w initial_state = (Raised e, initial_state).
Proof.
  intros Hp Hl. unfold Main.__init__.
  unfold bind at 1. rewrite Hp. cbn [lift ret].
  unfold bind at 1. rewrite Hl. reflexivity.
Qed.

Lemma init_yaml_get_raises (w : world) (args : Namespace) (cfg : yaml_value)
    (e : exn) :
  parse_args w = Ok args →
  load_config w args = Ok cfg →
  yaml_get cfg "logging" = Raise e →
  Main.__init__ w initial_state = (Raised e, initial_state).
Proof.
  intros Hp Hl Hy. unfold Main.__init__.
  unfold bind at 1. rewrite Hp. cbn [lift ret].
  unfold bind at 1. rewrite Hl. cbn [lift ret].
  unfold bind at 1. rewrite Hy. reflexivity.
Qed.

(** The whole run, once [__init__] has come to [startup_components]. *)
Lemma main_reaches_startup (w : world) (args : Namespace) (cfg lg : yaml_value) :
  parse_args w = Ok args →
  load_config w args = Ok cfg →
  yaml_get cfg "logging" = Ok lg →
  main w = (Main.startup_components w args;; Main.start w)%M (before_startup w args).
Proof.
  intros Hp Hl Hy. unfold main, bind.
  rewrite (init_reaches_startup _ _ _ _ Hp Hl Hy). unfold bind.
  by destruct (Main.startup_components w args (before_startup w args)) as [[]].
Qed.

(** *** [startup_components], case by case *)

Section Startup.

Context (w : world) (args : Namespace) (s : state).

Local Abbreviation coordinator_result :=
  (new_Coordinator w (internal_host_address args) (external_host_address args)
     (rest_port args) (instance_id args) (consul args)).

Lemma startup_coordinator_raises (e : exn) :
  coordinator_result = Raise e →
  Main.startup_components w args s
  = (Raised e,
     record [ev_log_info "starting-internal-components"; ev_start Coordinator] s).
Proof.
  intros H. unfold Main.startup_components, record.
  step_M. rewrite H. step_M. by rewrite <- !app_assoc.
Qed.

Lemma startup_rest_raises (c : handle) (e : exn) :
  coordinator_result = Ok c →
  init_rest_service w (rest_port args) = Raise e →
  Main.startup_components w args s
  = (Raised e,
     {| coordinator := Some c; grpc_server := grpc_server s;
        looping_calls := looping_calls s; clock_reads := clock_reads s;
        trace := trace s ++ [ev_log_info "starting-internal-components";
                             ev_start Coordinator; ev_start RestService] |}).
Proof.
  intros Hc Hr. unfold Main.startup_components.
  step_M. rewrite Hc. step_M. rewrite Hr. step_M. by rewrite <- !app_assoc.
Qed.

Lemma startup_grpc_raises (c : handle) (e : exn) :
  coordinator_result = Ok c →
  init_rest_service w (rest_port args) = Ok tt →
  VolthaGrpcServer_run w = Raise e →
  Main.startup_components w args s
  = (Raised e,
     {| coordinator := Some c; grpc_server := grpc_server s;
        looping_calls := looping_calls s; clock_reads := clock_reads s;
        trace := trace s ++ [ev_log_info "starting-internal-components";
                             ev_start Coordinator; ev_start RestService;
                             ev_start GrpcServer] |}).
Proof.
  intros Hc Hr Hg. unfold Main.startup_components.
  step_M. rewrite Hc. step_M. rewrite Hr. step_M. rewrite Hg. step_M.
  by rewrite <- !app_assoc.
Qed.

Lemma startup_succeeds (c : handle) (g : option handle) :
  coordinator_result = Ok c →
  init_rest_service w (rest_port args) = Ok tt →
  VolthaGrpcServer_run w = Ok g →
  Main.startup_components w args s
  = (Done tt,
     {| coordinator := Some c; grpc_server := g;
        looping_calls := looping_calls s; clock_reads := clock_reads s;
        trace := trace s ++ startup_events |}).
Proof.
  intros Hc Hr Hg.
  unfold Main.startup_components, startup_events.
  step_M. rewrite Hc. step_M. rewrite Hr. step_M. rewrite Hg. step_M.
  by rewrite <- !app_assoc.
Qed.

(** A [startup_components] that returns has started everything. *)
Lemma startup_done_inv (s' : state) :
  Main.startup_components w args s = (Done tt, s') →
  ∃ c g,
    coordinator_result = Ok c ∧
    init_rest_service w (rest_port args) = Ok tt ∧
    VolthaGrpcServer_run w = Ok g.
Proof.
  intros H.
  destruct (new_Coordinator _ _ _ _ _ _) as [c|e] eqn:Hc.
  2: { by rewrite (startup_coordinator_raises e Hc) in H. }
  destruct (init_rest_service w (rest_port args)) as [[]|e] eqn:Hr.
  2: { by rewrite (startup_rest_raises c e Hc Hr) in H. }
  destruct (VolthaGrpcServer_run w) as [g|e] eqn:Hg.
  2: { by rewrite (startup_grpc_raises c e Hc Hr Hg) in H. }
  eauto.
Qed.

End Startup.

(** *** What was observed before [startup_components] *)

Lemma before_startup_started w args : started (trace (before_startup w args)) = [].
Proof.
  unfold before_startup; cbn [trace].
  by destruct (no_banner args), (no_heartbeat args).
Qed.

Lemma before_startup_shutdowns w args :
  shutdowns (trace (before_startup w args)) = [].
Proof.
  unfold before_startup; cbn [trace].
  by destruct (no_banner args), (no_heartbeat args).
Qed.

Lemma before_startup_teardown w args :
  teardown (trace (before_startup w args)) = [].
Proof.
  unfold before_startup; cbn [trace].
  by destruct (no_banner args), (no_heartbeat args).
Qed.

Lemma before_startup_phases w args :
  phases (trace (before_startup w args))
  = ph_settings :: (if no_heartbeat args then [] else [ph_heartbeat]).
Proof.
  unfold before_startup; cbn [trace].
  by destruct (no_banner args), (no_heartbeat args).
Qed.

Lemma before_startup_no_reactor w args :
  ev_reactor_run ∉ trace (before_startup w args).
Proof.
  unfold before_startup; cbn [trace].
  destruct (no_banner args), (no_heartbeat args); cbn; not_in_events.
Qed.

Lemma before_startup_not_stopped (w : world) (args : Namespace) :
  ev_reactor_stopped ∉ trace (before_startup w args).
Proof.
  unfold before_startup; cbn [trace].
  destruct (no_banner args), (no_heartbeat args); cbn; not_in_events.
Qed.

Lemma before_startup_inv (w : world) (args : Namespace) :
  heartbeat_inv w (no_heartbeat args) (before_startup w args).
Proof.
  unfold heartbeat_inv, before_startup.
  cbn [looping_calls clock_reads trace].
  by destruct (no_heartbeat args), (no_banner args).
Qed.

Ltac close_failed_startup Hno :=
  cbn [fst snd trace record];
  rewrite started_app, shutdowns_app, before_startup_started,
    before_startup_shutdowns;
  split; [ reflexivity | ];
  split; [ reflexivity | ];
  split; [ cbn; repeat (apply NoDup_cons; split; [ not_in_events | ]);
           apply NoDup_nil_2 | ];
  split; [ reflexivity | ];
  rewrite elem_of_app; intros [? | ?]; [ by apply Hno | ];
  revert select (_ ∈ _); not_in_events.

(** C4: when the start of subsystem [k] fails, after the subsystems declared
    before it have started, the starts that were called are those of the
    subsystems up to [k], once each and in declaration order; no [shutdown()]
    is called; the reactor is never run, and the exception leaves
    [Main().start()]. *)
Theorem C4_failed_start_stops_startup (w : world) (args : Namespace)
    (cfg lg : yaml_value) (k : component) (e : exn) :
  parse_args w = Ok args →
  load_config w args = Ok cfg →
  yaml_get cfg "logging" = Ok lg →
  (∀ c, c ∈ before k declaration_order → start_result w args c = Ok tt) →
  start_result w args k = Raise e →
  (main w).1 = Raised e ∧
  started (trace (main w).2) = upto k declaration_order ∧
  NoDup (started (trace (main w).2)) ∧
  shutdowns (trace (main w).2) = [] ∧
  ev_reactor_run ∉ trace (main w).2.
Proof.
  intros Hp Hl Hy Hbefore Hk.
  rewrite (main_reaches_startup _ _ _ _ Hp Hl Hy).
  pose proof (before_startup_no_reactor w args) as Hno.
  assert (Hc : k ≠ Coordinator → ∃ c,
    new_Coordinator w (internal_host_address args) (external_host_address args)
      (rest_port args) (instance_id args) (consul args) = Ok c).
  { intros Hne. specialize (Hbefore Coordinator). cbn in Hbefore.
    destruct k; [ done | | ]; cbn in Hbefore;
      (destruct (new_Coordinator _ _ _ _ _ _); [ eauto | ]);
      discriminate Hbefore; set_solver. }
  assert (Hr : k = GrpcServer → init_rest_service w (rest_port args) = Ok tt).
  { intros ->. apply (Hbefore RestService). cbn. set_solver. }
  destruct k; cbn in Hk.
  - destruct (new_Coordinator _ _ _ _ _ _) as [c|e'] eqn:Hco; [ done | ].
    injection Hk as ->. unfold bind.
    rewrite (startup_coordinator_raises w args _ e Hco).
    close_failed_startup Hno.
  - destruct Hc as [c Hco]; [ done | ]. unfold bind.
    rewrite (startup_rest_raises w args _ c e Hco Hk).
    close_failed_startup Hno.
  - destruct Hc as [c Hco]; [ done | ]. specialize (Hr eq_refl).
    destruct (VolthaGrpcServer_run w) as [g|e'] eqn:Hg; [ done | ].
    injection Hk as ->. unfold bind.
    rewrite (startup_grpc_raises w args _ c e Hco Hr Hg).
    close_failed_startup Hno.
Qed.

(** The world [rest_fails_world] at [k = RestService]. *)
Lemma C4_failed_start_stops_startup_witness :
  (main rest_fails_world).1 = Raised (ComponentError RestService) ∧
  started (trace (main rest_fails_world).2) = [Coordinator; RestService] ∧
  NoDup (started (trace (main rest_fails_world).2)) ∧
  shutdowns (trace (main rest_fails_world).2) = [] ∧
  ev_reactor_run ∉ trace (main rest_fails_world).2.
Proof.
  eapply (C4_failed_start_stops_startup rest_fails_world _ _ _ RestService).
  - vm_compute. reflexivity.
  - vm_compute. reflexivity.
  - vm_compute. reflexivity.
  - intros c Hc. cbn in Hc. apply list_elem_of_singleton in Hc as ->.
    reflexivity.
  - reflexivity.
Defined.

(** ** The configuration file *)

(** C5: when the configuration file cannot be opened, or [yaml.load]
    raises, or what it holds is not a mapping, [Main()] raises before
    anything else is done: no subsystem is started, nothing is logged, no
    timer is started, and the reactor is not run with some other
    configuration. *)
Theorem C5_bad_config_file_is_fatal (w : world) (args : Namespace) :
  parse_args w = Ok args →
  file_contents w (config_path w args) = None ∨
  (∃ fd, file_contents w (config_path w args) = Some fd ∧ yaml_load w fd = None) ∨
  (∃ fd cfg, file_contents w (config_path w args) = Some fd ∧
             yaml_load w fd = Some cfg ∧ ∀ entries, cfg ≠ YMap entries) →
  (∃ e, (main w).1 = Raised e ∧ (e = IOError ∨ e = YAMLError ∨ e = AttributeError)) ∧
  started (trace (main w).2) = [] ∧
  trace (main w).2 = [].
Proof.
  intros Hp [Hbad | [(fd & Hfd & Hbad) | (fd & cfg & Hfd & Hcfg & Hmap)]].
  - assert (Hl : load_config w args = Raise IOError)
      by (unfold load_config; by rewrite Hbad).
    unfold main, bind. rewrite (init_load_config_raises _ _ _ Hp Hl).
    split; [ eexists; split; [ reflexivity | auto ] | by split ].
  - assert (Hl : load_config w args = Raise YAMLError)
      by (unfold load_config; by rewrite Hfd, Hbad).
    unfold main, bind. rewrite (init_load_config_raises _ _ _ Hp Hl).
    split; [ eexists; split; [ reflexivity | auto ] | by split ].
  - assert (Hl : load_config w args = Ok cfg)
      by (unfold load_config; by rewrite Hfd, Hcfg).
    assert (Hy : yaml_get cfg "logging" = Raise AttributeError).
    { destruct cfg; try reflexivity. by destruct (Hmap entries). }
    unfold main, bind. rewrite (init_yaml_get_raises _ _ _ _ Hp Hl Hy).
    split; [ eexists; split; [ reflexivity | auto ] | by split ].
Qed.

(** The world [bad_yaml_world]. *)
Lemma C5_bad_config_file_is_fatal_witness :
  (∃ e, (main bad_yaml_world).1 = Raised e ∧
        (e = IOError ∨ e = YAMLError ∨ e = AttributeError)) ∧
  started (trace (main bad_yaml_world).2) = [] ∧
  trace (main bad_yaml_world).2 = [].
Proof.
  eapply (C5_bad_config_file_is_fatal bad_yaml_world).
  - vm_compute. reflexivity.
  - right. left. eexists. split; vm_compute; reflexivity.
Defined.

(** ** The reactor *)

(** [Main.start]: the calls to the reactor, its log line, the timers, and
    then the hook if Ctrl-C comes. *)
Lemma start_run (w : world) (s : state) :
  Main.start w s
  = match keyboard_interrupt w with
    | Some n =>
        match Main.shutdown_components w (at_interrupt w n s) with
        | (Waiting, s') => (Waiting, s')
        | (_, s') => (Done tt, record [ev_reactor_stopped] s')
        end
    | None => (Waiting, ticked w (ticks_watched w) (record reactor_events s))
    end.
Proof.
  unfold Main.start, Main.start_reactor, Main.reactor_run, Main.wait_for_ever.
  step_M. destruct (keyboard_interrupt w) as [n|]; step_M;
    rewrite fire_timers_run; unfold at_interrupt, record, reactor_events;
    cbn [coordinator grpc_server looping_calls clock_reads trace];
    rewrite <- !app_assoc; cbn [app]; [ | done ].
  unfold Main.before_shutdown.
  by destruct (Main.shutdown_components w _) as [[] ?].
Qed.

Lemma after_startup_shutdowns (w : world) (args : Namespace) (c : handle)
    (g : option handle) :
  shutdowns (trace (after_startup w args c g)) = [].
Proof.
  cbn [after_startup trace]. by rewrite shutdowns_app, before_startup_shutdowns.
Qed.

Lemma after_startup_inv (w : world) (args : Namespace) (c : handle)
    (g : option handle) :
  heartbeat_inv w (no_heartbeat args) (after_startup w args c g).
Proof.
  eapply (heartbeat_inv_frame _ _ (before_startup w args) _ startup_events);
    try done.
  apply before_startup_inv.
Qed.

(** When the hook is called, no [shutdown()] has been called yet. *)
Lemma at_interrupt_outcomes (w : world) (args : Namespace) (c : handle)
    (g : option handle) (n : nat) :
  held_outcomes (at_interrupt w n (after_startup w args c g)) = first_outcomes c g
  ∧ held_outcomes (after_startup w args c g) = first_outcomes c g.
Proof.
  assert (H0 : ∀ k, shutdown_calls k (trace (after_startup w args c g)) = 0).
  { intros k. unfold shutdown_calls. by rewrite after_startup_shutdowns. }
  assert (H1 : ∀ k, shutdown_calls k
                      (trace (at_interrupt w n (after_startup w args c g))) = 0).
  { intros k. unfold at_interrupt, ticked, record. cbn [trace].
    rewrite !shutdown_calls_app, H0. unfold shutdown_calls.
    destruct (records_observed _
                (tick_events_records w
                   (looping_calls (before_startup w args))
                   (clock_reads (before_startup w args)) n)) as (_ & Hs & _).
    cbn [after_startup looping_calls clock_reads]. by rewrite Hs. }
  rewrite !held_outcomes_slots, !H0, !H1. unfold first_outcomes.
  cbn [at_interrupt ticked record after_startup coordinator grpc_server].
  by destruct g.
Qed.

(** *** A run whose startup succeeds *)

Section StartupSucceeds.

Context (w : world) (args : Namespace) (cfg lg : yaml_value)
        (c : handle) (g : option handle).
Hypothesis parsed : parse_args w = Ok args.
Hypothesis loaded : load_config w args = Ok cfg.
Hypothesis logging : yaml_get cfg "logging" = Ok lg.
Hypothesis coordinator_started :
  new_Coordinator w (internal_host_address args) (external_host_address args)
    (rest_port args) (instance_id args) (consul args) = Ok c.
Hypothesis rest_started : init_rest_service w (rest_port args) = Ok tt.
Hypothesis grpc_started : VolthaGrpcServer_run w = Ok g.

Lemma init_succeeds :
  Main.__init__ w initial_state = (Done args, after_startup w args c g).
Proof.
  rewrite (init_reaches_startup _ _ _ _ parsed loaded logging). unfold bind.
  by rewrite (startup_succeeds w args _ c g coordinator_started rest_started
                grpc_started).
Qed.

Lemma main_succeeds :
  main w = Main.start w (after_startup w args c g).
Proof. unfold main, bind. by rewrite init_succeeds. Qed.

(** The run: what came before the startup, the startup, the reactor and the
    records of the heartbeat; then, if Ctrl-C comes, the log line of the
    hook, its shutdowns with the records in between, and the stop of the
    reactor unless the hook waits for ever. *)
Lemma main_succeeds_shape :
  ∃ ticks late,
    trace (main w).2
    = trace (before_startup w args) ++ startup_events ++ reactor_events
      ++ ticks ++ late ∧
    Forall (fun e => is_record e = true) ticks ∧
    heartbeat_inv w (no_heartbeat args) (main w).2 ∧
    match keyboard_interrupt w with
    | None => late = [] ∧ (main w).1 = Waiting
    | Some n =>
        (2 + n ≤ clock_reads (main w).2 ∨ no_heartbeat args = true)%nat ∧
        ∃ sd tail,
          late = ev_log_info "exiting-on-keyboard-interrupt" :: sd ++ tail ∧
          Forall (fun e => is_hook_event e = true) sd ∧
          teardown sd = teardown_of (first_outcomes c g) ∧
          match round_outcome (first_outcomes c g) with
          | Waiting => (main w).1 = Waiting ∧ tail = []
          | _ => (main w).1 = Done tt ∧ tail = [ev_reactor_stopped]
          end
    end.
Proof.
  rewrite main_succeeds, start_run.
  pose proof (after_startup_inv w args c g) as Hinv.
  destruct (keyboard_interrupt w) as [n|].
  - set (s0 := at_interrupt w n (after_startup w args c g)).
    assert (Hinv0 : heartbeat_inv w (no_heartbeat args) s0).
    { subst s0. unfold at_interrupt. apply heartbeat_inv_ticked.
      by apply heartbeat_inv_record. }
    destruct (shutdown_components_shape w s0)
      as (sd & Ht & Hf & Htd & Ho & _ & _ & _ & Hk & Hi).
    destruct (at_interrupt_outcomes w args c g n) as [Hfirst _]. fold s0 in Hfirst.
    rewrite Hfirst in Htd, Ho.
    exists (tick_events w (looping_calls (before_startup w args))
              (clock_reads (before_startup w args)) n).
    assert (Hreads : (2 + n ≤ clock_reads (Main.shutdown_components w s0).2
                      ∨ no_heartbeat args = true)%nat).
    { destruct (no_heartbeat args) eqn:Hnh; [ by right | left ].
      etrans; [ | exact Hk ]. subst s0.
      cbn [at_interrupt ticked record after_startup before_startup clock_reads
           looping_calls]. rewrite Hnh. cbn. lia. }
    destruct (Main.shutdown_components w s0) as [o s1]. cbn [fst snd] in *.
    assert (Htrace : trace s1
      = trace (before_startup w args) ++ startup_events ++ reactor_events
        ++ tick_events w (looping_calls (before_startup w args))
             (clock_reads (before_startup w args)) n
        ++ ev_log_info "exiting-on-keyboard-interrupt" :: sd).
    { rewrite Ht. subst s0.
      cbn [at_interrupt ticked record after_startup trace looping_calls
           clock_reads]. by rewrite <- !app_assoc. }
    subst o.
    destruct (round_outcome (first_outcomes c g)) as [[]|e|] eqn:Hround.
    + exists (ev_log_info "exiting-on-keyboard-interrupt" :: sd ++ [ev_reactor_stopped]).
      cbn [fst snd record trace]. split_and!.
      * rewrite Htrace. rewrite <- !app_assoc. by cbn [app].
      * apply tick_events_records.
      * apply heartbeat_inv_record; [ done.. | ]. by apply Hi.
      * done.
      * by exists sd, [ev_reactor_stopped].
    + exists (ev_log_info "exiting-on-keyboard-interrupt" :: sd ++ [ev_reactor_stopped]).
      cbn [fst snd record trace]. split_and!.
      * rewrite Htrace. rewrite <- !app_assoc. by cbn [app].
      * apply tick_events_records.
      * apply heartbeat_inv_record; [ done.. | ]. by apply Hi.
      * done.
      * by exists sd, [ev_reactor_stopped].
    + exists (ev_log_info "exiting-on-keyboard-interrupt" :: sd ++ []).
      cbn [fst snd record trace]. split_and!.
      * rewrite Htrace. by rewrite app_nil_r.
      * apply tick_events_records.
      * by apply Hi.
      * done.
      * by exists sd, [].
  - exists (tick_events w (looping_calls (before_startup w args))
              (clock_reads (before_startup w args)) (ticks_watched w)), [].
    cbn [fst snd]. split_and!.
    + cbn [ticked record after_startup trace looping_calls clock_reads].
      by rewrite <- !app_assoc, app_nil_r.
    + apply tick_events_records.
    + apply heartbeat_inv_ticked. by apply heartbeat_inv_record.
    + done.
    + done.
Qed.

End StartupSucceeds.

(** An [__init__] that returns has resolved the settings, loaded the
    configuration and started every subsystem. *)
Lemma init_done_inv (w : world) (args : Namespace) (s : state) :
  Main.__init__ w initial_state = (Done args, s) →
  ∃ cfg lg c g,
    parse_args w = Ok args ∧
    load_config w args = Ok cfg ∧
    yaml_get cfg "logging" = Ok lg ∧
    new_Coordinator w (internal_host_address args) (external_host_address args)
      (rest_port args) (instance_id args) (consul args) = Ok c ∧
    init_rest_service w (rest_port args) = Ok tt ∧
    VolthaGrpcServer_run w = Ok g ∧
    s = after_startup w args c g.
Proof.
  intros H.
  destruct (parse_args w) as [args'|e] eqn:Hp.
  2: { by rewrite (init_parse_args_raises _ _ Hp) in H. }
  destruct (load_config w args') as [cfg|e] eqn:Hl.
  2: { by rewrite (init_load_config_raises _ _ _ Hp Hl) in H. }
  destruct (yaml_get cfg "logging") as [lg|e] eqn:Hy.
  2: { by rewrite (init_yaml_get_raises _ _ _ _ Hp Hl Hy) in H. }
  rewrite (init_reaches_startup _ _ _ _ Hp Hl Hy) in H. unfold bind in H.
  destruct (Main.startup_components w args' (before_startup w args'))
    as [[[]|e|] s1] eqn:Hs; try discriminate H.
  destruct (startup_done_inv _ _ _ _ Hs) as (c & g & Hc & Hr & Hg).
  rewrite (startup_succeeds _ _ _ c g Hc Hr Hg) in Hs.
  cbn in H. injection H as <- <-. injection Hs as <-.
  by exists cfg, lg, c, g.
Qed.

(** *** Every run *)

(** A run that loads its configuration ends in [startup_components] at the
    start of a subsystem [k], or it comes to the reactor. *)
Lemma main_cases (w : world) (args : Namespace) (cfg lg : yaml_value) :
  parse_args w = Ok args →
  load_config w args = Ok cfg →
  yaml_get cfg "logging" = Ok lg →
  (∃ e k,
      (main w).1 = Raised e ∧
      trace (main w).2
      = trace (before_startup w args)
        ++ ev_log_info "starting-internal-components"
           :: (ev_start <$> upto k declaration_order) ∧
      looping_calls (main w).2 = looping_calls (before_startup w args) ∧
      clock_reads (main w).2 = clock_reads (before_startup w args) ∧
      ∀ args' s, Main.__init__ w initial_state ≠ (Done args', s)) ∨
  (∃ c g,
      new_Coordinator w (internal_host_address args) (external_host_address args)
        (rest_port args) (instance_id args) (consul args) = Ok c ∧
      init_rest_service w (rest_port args) = Ok tt ∧
      VolthaGrpcServer_run w = Ok g).
Proof.
  intros Hp Hl Hy.
  pose proof (main_reaches_startup _ _ _ _ Hp Hl Hy) as Hm.
  pose proof (init_reaches_startup _ _ _ _ Hp Hl Hy) as Hi.
  unfold bind in Hm, Hi.
  destruct (new_Coordinator w (internal_host_address args)
              (external_host_address args) (rest_port args) (instance_id args)
              (consul args)) as [c|e] eqn:Hc.
  2: { left. rewrite (startup_coordinator_raises _ _ _ e Hc) in Hm, Hi.
       exists e, Coordinator. rewrite Hm, Hi. by split_and!. }
  destruct (init_rest_service w (rest_port args)) as [[]|e] eqn:Hr.
  2: { left. rewrite (startup_rest_raises _ _ _ c e Hc Hr) in Hm, Hi.
       exists e, RestService. rewrite Hm, Hi. by split_and!. }
  destruct (VolthaGrpcServer_run w) as [g|e] eqn:Hg.
  2: { left. rewrite (startup_grpc_raises _ _ _ c e Hc Hr Hg) in Hm, Hi.
       exists e, GrpcServer. rewrite Hm, Hi. by split_and!. }
  right. by exists c, g.
Qed.

(** A run ends before anything is done, or in [startup_components] at the
    start of a subsystem [k], or it comes to the reactor. *)
Lemma main_outcomes (w : world) :
  (∃ e, main w = (Raised e, initial_state) ∧
        ∀ args s, Main.__init__ w initial_state ≠ (Done args, s)) ∨
  (∃ args e k,
      (main w).1 = Raised e ∧
      trace (main w).2
      = trace (before_startup w args)
        ++ ev_log_info "starting-internal-components"
           :: (ev_start <$> upto k declaration_order) ∧
      ∀ args' s, Main.__init__ w initial_state ≠ (Done args', s)) ∨
  (∃ args cfg lg c g,
      parse_args w = Ok args ∧
      load_config w args = Ok cfg ∧
      yaml_get cfg "logging" = Ok lg ∧
      new_Coordinator w (internal_host_address args) (external_host_address args)
        (rest_port args) (instance_id args) (consul args) = Ok c ∧
      init_rest_service w (rest_port args) = Ok tt ∧
      VolthaGrpcServer_run w = Ok g).
Proof.
  destruct (parse_args w) as [args|e] eqn:Hp.
  2: { left. exists e. unfold main, bind.
       rewrite (init_parse_args_raises _ _ Hp). by split. }
  destruct (load_config w args) as [cfg|e] eqn:Hl.
  2: { left. exists e. unfold main, bind.
       rewrite (init_load_config_raises _ _ _ Hp Hl). by split. }
  destruct (yaml_get cfg "logging") as [lg|e] eqn:Hy.
  2: { left. exists e. unfold main, bind.
       rewrite (init_yaml_get_raises _ _ _ _ Hp Hl Hy). by split. }
  right.
  destruct (main_cases _ _ _ _ Hp Hl Hy)
    as [(e & k & Ho & Ht & _ & _ & Hnot) | (c & g & Hc & Hr & Hg)].
  - left. by exists args, e, k.
  - right. by exists args, cfg, lg, c, g.
Qed.

Lemma started_starts (cs : list component) :
  started (ev_start <$> cs) = cs.
Proof. induction cs as [|c cs IH]; [ done | ]. cbn. by f_equal. Qed.

Lemma starts_are_startup_events (cs : list component) :
  Forall (fun e => is_startup_event e = true) (ev_start <$> cs).
Proof. apply Forall_fmap, Forall_forall. by intros. Qed.

Lemma upto_prefix (k : component) :
  upto k declaration_order `prefix_of` declaration_order.
Proof.
  destruct k; cbn.
  - by exists [RestService; GrpcServer].
  - by exists [GrpcServer].
  - by exists [].
Qed.


(** *** What a round of shutdowns shows *)

Lemma shutdowns_awaited (cs : list component) :
  shutdowns (flat_map awaited_shutdown cs) = cs.
Proof. induction cs as [|c cs IH]; [ done | ]. cbn. by f_equal. Qed.

Lemma teardown_of_prefix (hs : list (component * deferred_outcome)) :
  shutdowns (teardown_of hs) `prefix_of` hs.*1.
Proof.
  induction hs as [|[c o] hs IH]; [ done | ].
  destruct o; cbn.
  - by apply prefix_cons.
  - apply prefix_cons, prefix_nil.
  - apply prefix_cons, prefix_nil.
Qed.

Lemma teardown_of_head (c : component) (o : deferred_outcome)
    (hs : list (component * deferred_outcome)) :
  ∃ rest, shutdowns (teardown_of ((c, o) :: hs)) = c :: rest.
Proof. destruct o; cbn; eauto. Qed.

(** A round ends well exactly when every [shutdown()] was called and
    awaited to its completion. *)
Lemma round_outcome_done (hs : list (component * deferred_outcome)) :
  round_outcome hs = Done tt ↔
  teardown_of hs = flat_map awaited_shutdown hs.*1.
Proof.
  induction hs as [|[c o] hs IH]; [ done | ].
  destruct o; cbn; [ | done.. ].
  rewrite IH. split; [ by intros -> | by intros [= ->] ].
Qed.

Lemma held_once (c : component) (s : state) :
  c ∈ held s → length (List.filter (component_eqb c) (held s)) = 1.
Proof.
  intros [h Hh]%held_slot. unfold held. cbn.
  destruct c; cbn in Hh; try done; rewrite Hh;
    by destruct (coordinator s), (grpc_server s).
Qed.

(** *** What a run whose startup succeeds shows *)

Section RunObserved.

Context (w : world) (args : Namespace) (cfg lg : yaml_value)
        (c : handle) (g : option handle).
Hypothesis parsed : parse_args w = Ok args.
Hypothesis loaded : load_config w args = Ok cfg.
Hypothesis logging : yaml_get cfg "logging" = Ok lg.
Hypothesis coordinator_started :
  new_Coordinator w (internal_host_address args) (external_host_address args)
    (rest_port args) (instance_id args) (consul args) = Ok c.
Hypothesis rest_started : init_rest_service w (rest_port args) = Ok tt.
Hypothesis grpc_started : VolthaGrpcServer_run w = Ok g.

Lemma main_succeeds_observed :
  ∃ rest,
    trace (main w).2
    = trace (before_startup w args) ++ startup_events ++ reactor_events ++ rest ∧
    started rest = [] ∧ armed rest = [] ∧ phases rest = [] ∧
    Forall (fun e => is_run_event e = true) rest ∧
    teardown rest
    = match keyboard_interrupt w with
      | Some _ => teardown_of (first_outcomes c g)
      | None => []
      end.
Proof.
  destruct (main_succeeds_shape w args cfg lg c g parsed loaded logging
              coordinator_started rest_started grpc_started)
    as (ticks & late & Ht & Hticks & _ & Hlate).
  exists (ticks ++ late). split; [ exact Ht | ].
  destruct (records_observed _ Hticks) as (Hs1 & _ & Ha1 & Hp1 & Ht1).
  assert (Hr1 : Forall (fun e => is_run_event e = true) ticks).
  { eapply Forall_impl; [ exact Hticks | ]. by intros []. }
  rewrite started_app, armed_app, phases_app, teardown_app, Hs1, Ha1, Hp1, Ht1.
  cbn [app]. rewrite Forall_app.
  destruct (keyboard_interrupt w) as [n|].
  - destruct Hlate as (_ & sd & tl & -> & Hsd & Htd & Hend).
    destruct (hook_events_observed _ Hsd) as (Hs2 & Ha2 & Hp2 & Hr2 & _).
    assert (Htl : tl = [] ∨ tl = [ev_reactor_stopped]).
    { destruct (round_outcome (first_outcomes c g)); destruct Hend; auto. }
    change (started (?e :: ?l)) with (started l).
    change (armed (?e :: ?l)) with (armed l).
    change (phases (?e :: ?l)) with (phases l).
    change (teardown (?e :: ?l)) with (teardown l).
    rewrite started_app, armed_app, phases_app, teardown_app, Hs2, Ha2, Hp2, Htd.
    destruct Htl as [-> | ->]; cbn [app]; rewrite ?app_nil_r;
      split_and!; try done.
    + by constructor.
    + constructor; [ done | ]. apply Forall_app. split; [ done | ].
      by constructor.
  - destruct Hlate as [-> _]. by split_and!.
Qed.

End RunObserved.

(** In every run that loads its configuration, the trace is what came before
    the startup followed by events of the run, and the heartbeat has logged
    every reading of the clock but the first. *)
Lemma main_shape (w : world) (args : Namespace) (cfg lg : yaml_value) :
  parse_args w = Ok args →
  load_config w args = Ok cfg →
  yaml_get cfg "logging" = Ok lg →
  ∃ rest,
    trace (main w).2 = trace (before_startup w args) ++ rest ∧
    Forall (fun e => is_run_event e = true) rest ∧
    heartbeat_inv w (no_heartbeat args) (main w).2.
Proof.
  intros Hp Hl Hy.
  destruct (main_cases _ _ _ _ Hp Hl Hy)
    as [(e & k & _ & Ht & Hlc & Hk & _) | (c & g & Hc & Hr & Hg)].
  - eexists. split; [ exact Ht | ].
    destruct (startup_events_observed _ (starts_are_startup_events
                (upto k declaration_order))) as (_ & Hh & Ha & _).
    split.
    + constructor; [ done | ].
      apply Forall_fmap, Forall_forall. by intros.
    + by eapply heartbeat_inv_frame; [ exact Hlc | exact Hk | exact Ht | | |
                                       apply before_startup_inv ].
  - destruct (main_succeeds_observed w args cfg lg c g Hp Hl Hy Hc Hr Hg)
      as (rest & Ht & _ & _ & _ & Hrun & _).
    destruct (main_succeeds_shape w args cfg lg c g Hp Hl Hy Hc Hr Hg)
      as (_ & _ & _ & _ & Hinv & _).
    eexists. split; [ exact Ht | ]. split; [ | exact Hinv ].
    apply Forall_app. split; [ by repeat constructor | ].
    apply Forall_app. split; [ by repeat constructor | done ].
Qed.

(** ** Shutdown after a startup *)

(** C1, as the code has it: after a startup that succeeded, the shutdown
    hook calls [shutdown()] on the handles [self] holds, in declaration
    order and not in its reverse: first on the Coordinator, always, and
    then, when the Coordinator's has fired, on the gRPC server if [run()]
    returned one; never on the REST service, of which no handle is kept.
    Each call is awaited before the next is made; the first that fails or
    never fires is the last that is made. The hook returns exactly when
    every handle it holds has been shut down, once, and awaited to its
    completion. When Ctrl-C comes, these are the shutdowns of the run. *)
Theorem C1_shutdown_in_declaration_order (w : world) (args : Namespace)
    (s : state) :
  Main.__init__ w initial_state = (Done args, s) →
  started (trace s) = declaration_order ∧
  shutdowns (trace s) = [] ∧
  (held s = [Coordinator; GrpcServer] ∨ held s = [Coordinator]) ∧
  ∃ new,
    trace (Main.shutdown_components w s).2 = trace s ++ new ∧
    started new = [] ∧
    teardown new = teardown_of (held_outcomes s) ∧
    (∃ rest, shutdowns new = Coordinator :: rest) ∧
    shutdowns new `prefix_of` held s ∧
    ((Main.shutdown_components w s).1 = Done tt ↔
     teardown new = flat_map awaited_shutdown (held s)) ∧
    (∀ n, keyboard_interrupt w = Some n →
          teardown (trace (main w).2) = teardown new).
Proof.
  intros Hinit.
  destruct (init_done_inv _ _ _ Hinit)
    as (cfg & lg & c & g & Hp & Hl & Hy & Hc & Hr & Hg & ->).
  destruct (at_interrupt_outcomes w args c g 0) as [_ Hfirst].
  split.
  { cbn [after_startup trace]. by rewrite started_app, before_startup_started. }
  split; [ apply after_startup_shutdowns | ].
  split.
  { destruct g; [ by left | by right ]. }
  destruct (shutdown_components_shape w (after_startup w args c g))
    as (sd & Ht & Hf & Htd & Ho & _).
  destruct (hook_events_observed _ Hf) as (Hst & _).
  exists (ev_log_info "exiting-on-keyboard-interrupt" :: sd).
  split; [ exact Ht | ].
  change (started (?e :: sd)) with (started sd).
  change (teardown (?e :: sd)) with (teardown sd).
  change (shutdowns (?e :: sd)) with (shutdowns sd).
  rewrite <- (shutdowns_teardown sd), Htd.
  split_and!.
  - exact Hst.
  - done.
  - rewrite Hfirst. apply teardown_of_head.
  - rewrite <- held_outcomes_held. apply teardown_of_prefix.
  - rewrite Ho, <- held_outcomes_held. apply round_outcome_done.
  - intros n Hn.
    destruct (main_succeeds_observed w args cfg lg c g Hp Hl Hy Hc Hr Hg)
      as (rest & Hm & _ & _ & _ & _ & Hrest).
    rewrite Hn in Hrest.
    rewrite Hm, !teardown_app, before_startup_teardown, Hrest. cbn [app].
    by rewrite Hfirst.
Qed.

(** The world [quiet_world]. *)
Lemma C1_shutdown_in_declaration_order_witness :
  ∃ args s,
    Main.__init__ quiet_world initial_state = (Done args, s) ∧
    held s = [Coordinator; GrpcServer] ∧
    ∃ new,
      trace (Main.shutdown_components quiet_world s).2 = trace s ++ new ∧
      teardown new = teardown_of (held_outcomes s) ∧
      (∃ rest, shutdowns new = Coordinator :: rest) ∧
      ((Main.shutdown_components quiet_world s).1 = Done tt ↔
       teardown new = flat_map awaited_shutdown (held s)) ∧
      teardown (trace (main quiet_world).2) = teardown new.
Proof.
  eexists _, _. split; [ vm_compute; reflexivity | ].
  split; [ vm_compute; reflexivity | ].
  edestruct (C1_shutdown_in_declaration_order quiet_world)
    as (_ & _ & _ & new & H1 & _ & H2 & H3 & _ & H4 & H5).
  { vm_compute. reflexivity. }
  exists new. split; [ exact H1 | ]. split; [ exact H2 | ].
  split; [ exact H3 | ]. split; [ exact H4 | ].
  by apply (H5 2).
Defined.

(** In [quiet_world] the three subsystems start, and the shutdown hook, run
    in the state [__init__] leaves, shuts the Coordinator down first and the
    gRPC server second, which is not the reverse of the order of the starts;
    the REST service is not shut down. In [coordinator_errback_world] the
    three subsystems start as well, and the run shuts down the Coordinator
    only. *)
Lemma C1_counterexample :
  (∃ args s,
     Main.__init__ quiet_world initial_state = (Done args, s) ∧
     (Main.shutdown_components quiet_world s).1 = Done tt ∧
     started (trace s) = [Coordinator; RestService; GrpcServer] ∧
     shutdowns (events_of (Main.shutdown_components quiet_world) s)
     = [Coordinator; GrpcServer] ∧
     shutdowns (events_of (Main.shutdown_components quiet_world) s)
     ≠ rev (started (trace s))) ∧
  (main coordinator_errback_world).1 = Done tt ∧
  started (trace (main coordinator_errback_world).2)
  = [Coordinator; RestService; GrpcServer] ∧
  shutdowns (trace (main coordinator_errback_world).2) = [Coordinator].
Proof.
  split; [ | by vm_compute ].
  eexists _, _. split; [ vm_compute; reflexivity | ].
  repeat split; vm_compute; congruence.
Qed.

(** The shutdowns of a run: those of the hook, which the reactor calls once
    and only when Ctrl-C comes. *)
Lemma main_shutdowns (w : world) :
  shutdowns (trace (main w).2) = []
  ∨ ∃ args cfg lg c g,
      parse_args w = Ok args ∧
      load_config w args = Ok cfg ∧
      yaml_get cfg "logging" = Ok lg ∧
      new_Coordinator w (internal_host_address args) (external_host_address args)
        (rest_port args) (instance_id args) (consul args) = Ok c ∧
      init_rest_service w (rest_port args) = Ok tt ∧
      VolthaGrpcServer_run w = Ok g ∧
      is_Some (keyboard_interrupt w) ∧
      teardown (trace (main w).2) = teardown_of (first_outcomes c g).
Proof.
  destruct (main_outcomes w)
    as [(e & -> & _) | [(args & e & k & _ & -> & _) |
        (args & cfg & lg & c & g & Hp & Hl & Hy & Hc & Hr & Hg)]].
  - by left.
  - left. rewrite shutdowns_app, before_startup_shutdowns. cbn [app].
    change (shutdowns (?e :: ?l)) with (shutdowns l).
    by destruct (startup_events_observed _ (starts_are_startup_events
                   (upto k declaration_order))) as (? & _).
  - destruct (main_succeeds_observed w args cfg lg c g Hp Hl Hy Hc Hr Hg)
      as (rest & Hm & _ & _ & _ & _ & Hrest).
    assert (Htd : teardown (trace (main w).2) = teardown rest).
    { by rewrite Hm, !teardown_app, before_startup_teardown. }
    destruct (keyboard_interrupt w) as [n|] eqn:Hn.
    + right. exists args, cfg, lg, c, g. split_and!; try done.
      by rewrite Htd.
    + left. by rewrite <- shutdowns_teardown, Htd, Hrest.
Qed.

(** C3, as the code has it: [shutdown_components] leaves the handles in
    [self], so after a call that completed, in which the [shutdown()] of
    every handle held was called once, a second call finds the same handles
    and calls [shutdown()] on them again: on the first of them always, and
    on the next when that second [shutdown()] fires. Within one run the
    reactor calls the hook once, and no subsystem is shut down twice. *)
Theorem C3_second_shutdown_repeats (w : world) (s s1 : state) :
  Main.shutdown_components w s = (Done tt, s1) →
  coordinator s1 = coordinator s ∧
  grpc_server s1 = grpc_server s ∧
  (∀ c, c ∈ held s →
        shutdown_calls c (trace s1) = S (shutdown_calls c (trace s))) ∧
  (∃ new,
     trace (Main.shutdown_components w s1).2 = trace s1 ++ new ∧
     teardown new = teardown_of (held_outcomes s1) ∧
     (held_outcomes s1).*1 = held s ∧
     ∀ c rest, held s = c :: rest → ∃ rest', shutdowns new = c :: rest') ∧
  NoDup (shutdowns (trace (main w).2)).
Proof.
  intros Hsd.
  destruct (shutdown_components_shape w s)
    as (sd & Ht & Hf & Htd & Ho & Hc & Hg & _).
  rewrite Hsd in Ht, Ho, Hc, Hg. cbn [fst snd] in *.
  assert (Hheld : held s1 = held s).
  { unfold held. cbn. by rewrite Hc, Hg. }
  split; [ exact Hc | ]. split; [ exact Hg | ]. split_and!.
  - intros c Hin. rewrite Ht, shutdown_calls_app.
    change (ev_log_info "exiting-on-keyboard-interrupt" :: sd)
      with ([ev_log_info "exiting-on-keyboard-interrupt"] ++ sd).
    rewrite shutdown_calls_app.
    assert (shutdown_calls c sd = 1) as ->; [ | by cbn; lia ].
    unfold shutdown_calls.
    symmetry in Ho. apply round_outcome_done in Ho.
    rewrite <- shutdowns_teardown, Htd, Ho, shutdowns_awaited,
      held_outcomes_held.
    by apply held_once.
  - destruct (shutdown_components_shape w s1)
      as (sd' & Ht' & _ & Htd' & _).
    exists (ev_log_info "exiting-on-keyboard-interrupt" :: sd').
    split; [ exact Ht' | ].
    change (teardown (?e :: sd')) with (teardown sd').
    change (shutdowns (?e :: sd')) with (shutdowns sd').
    split; [ exact Htd' | ].
    split; [ by rewrite held_outcomes_held | ].
    intros c rest Hcr.
    rewrite <- shutdowns_teardown, Htd'.
    pose proof (held_outcomes_held s1) as Hfst. rewrite Hheld, Hcr in Hfst.
    destruct (held_outcomes s1) as [|[c' o] hs]; [ done | ].
    injection Hfst as -> _. apply teardown_of_head.
  - destruct (main_shutdowns w)
      as [-> | (args & cfg & lg & c & g & _ & _ & _ & _ & _ & _ & _ & Htd0)].
    { constructor. }
    rewrite <- shutdowns_teardown, Htd0.
    destruct (teardown_of_prefix (first_outcomes c g)) as [k Hk].
    assert (Hnd : NoDup (first_outcomes c g).*1).
    { unfold first_outcomes. destruct g; cbn;
        repeat (apply NoDup_cons; split; [ not_in_events | ]); apply NoDup_nil_2. }
    rewrite Hk in Hnd. by apply NoDup_app in Hnd as [Hnd _].
Qed.

(** The world [second_shutdown_fails_world], in which the second
    [shutdown()] of the Coordinator fails: the second call of the hook calls
    it, and ends there. *)
Lemma C3_second_shutdown_repeats_witness :
  ∃ args s s1,
    Main.__init__ second_shutdown_fails_world initial_state = (Done args, s) ∧
    Main.shutdown_components second_shutdown_fails_world s = (Done tt, s1) ∧
    coordinator s1 = coordinator s ∧
    grpc_server s1 = grpc_server s ∧
    shutdown_calls Coordinator (trace s1) = 1 ∧
    (∃ new,
       trace (Main.shutdown_components second_shutdown_fails_world s1).2
       = trace s1 ++ new ∧
       teardown new = [ev_shutdown Coordinator]) ∧
    NoDup (shutdowns (trace (main second_shutdown_fails_world).2)).
Proof.
  eexists _, _, _. split; [ vm_compute; reflexivity | ].
  split; [ vm_compute; reflexivity | ].
  match goal with
  | |- coordinator ?s1 = coordinator ?s ∧ _ =>
      destruct (C3_second_shutdown_repeats second_shutdown_fails_world s s1)
        as (H1 & H2 & H3 & (new & H4 & H5 & _) & H6)
  end.
  { vm_compute. reflexivity. }
  split; [ exact H1 | ]. split; [ exact H2 | ].
  split; [ vm_compute; reflexivity | ].
  split; [ | exact H6 ].
  exists new. split; [ exact H4 | ]. rewrite H5. vm_compute. reflexivity.
Defined.

(** In [quiet_world], after a shutdown that completed, [self] still holds
    both handles, and a second call of the hook calls [shutdown()] on the
    Coordinator and on the gRPC server once more. *)
Lemma C3_counterexample :
  ∃ args s s1,
    Main.__init__ quiet_world initial_state = (Done args, s) ∧
    Main.shutdown_components quiet_world s = (Done tt, s1) ∧
    coordinator s1 ≠ None ∧
    grpc_server s1 ≠ None ∧
    shutdowns (events_of (Main.shutdown_components quiet_world) s1)
    = [Coordinator; GrpcServer] ∧
    shutdowns (events_of (Main.shutdown_components quiet_world) s1) ≠ [].
Proof.
  eexists _, _, _. split; [ vm_compute; reflexivity | ].
  split; [ vm_compute; reflexivity | ].
  repeat split; vm_compute; congruence.
Qed.

(** ** The order of the phases *)

(** C7, as the code has it: in a run whose startup succeeds the settings are
    resolved first, then the heartbeat is started (unless --no-heartbeat was
    given) and logs its first record at once, then the subsystems are
    started in declaration order, then the reactor is run: the heartbeat is
    started before the subsystems, not after them. *)
Theorem C7_heartbeat_before_subsystems (w : world) (args : Namespace)
    (s : state) :
  Main.__init__ w initial_state = (Done args, s) →
  phases (trace (main w).2) = run_order (negb (no_heartbeat args)) ∧
  (no_heartbeat args = false →
   ∃ t1 t2,
     trace (main w).2
     = t1 ++ [ev_LoopingCall_start 10;
              ev_log_debug "up" (time_ctime w (clock w 0))
                (clock w 1 - clock w 0)%float] ++ t2 ∧
     phases t1 = [ph_settings] ∧
     phases t2 = (ph_start <$> declaration_order) ++ [ph_reactor]).
Proof.
  intros Hinit.
  destruct (init_done_inv _ _ _ Hinit)
    as (cfg & lg & c & g & Hp & Hl & Hy & Hc & Hr & Hg & _).
  destruct (main_succeeds_observed w args cfg lg c g Hp Hl Hy Hc Hr Hg)
    as (rest & Hm & _ & _ & Hph & _).
  split.
  - rewrite Hm, !phases_app, before_startup_phases, Hph.
    by destruct (no_heartbeat args).
  - intros Hnh. rewrite Hm. unfold before_startup. cbn [trace]. rewrite Hnh.
    eexists ([_] ++ (if no_banner args then [] else banner)),
            (startup_events ++ reactor_events ++ rest).
    split; [ by rewrite <- !app_assoc | ].
    split; [ by destruct (no_banner args) | ].
    by rewrite !phases_app, Hph.
Qed.

(** The world [quiet_world]. *)
Lemma C7_heartbeat_before_subsystems_witness :
  ∃ args,
    parse_args quiet_world = Ok args ∧
    phases (trace (main quiet_world).2) = run_order (negb (no_heartbeat args)) ∧
    ∃ t1 t2,
      trace (main quiet_world).2
      = t1 ++ [ev_LoopingCall_start 10;
               ev_log_debug "up" (time_ctime quiet_world (clock quiet_world 0))
                 (clock quiet_world 1 - clock quiet_world 0)%float] ++ t2 ∧
      phases t1 = [ph_settings] ∧
      phases t2 = (ph_start <$> declaration_order) ++ [ph_reactor].
Proof.
  eexists. split; [ vm_compute; reflexivity | ].
  edestruct (C7_heartbeat_before_subsystems quiet_world) as [H1 H2].
  { vm_compute. reflexivity. }
  split; [ exact H1 | ]. by apply H2.
Defined.

(** In [quiet_world] the run completes, and the heartbeat is started before
    the first subsystem, so the phases are not in the order in which the
    heartbeat follows the subsystems. *)
Lemma C7_counterexample :
  (main quiet_world).1 = Done tt ∧
  phases (trace (main quiet_world).2)
  = [ph_settings; ph_heartbeat; ph_start Coordinator; ph_start RestService;
     ph_start GrpcServer; ph_reactor] ∧
  phases (trace (main quiet_world).2) ≠ heartbeat_last_order.
Proof.
  repeat split; vm_compute; congruence.
Qed.

(** ** The heartbeat *)




(** ** The settings *)

(** What one occurrence of an option changes. *)
Lemma take_action_fields (ns ns' : Namespace) (o : cli_option) :
  argparse.take_action ns o = Ok ns' →
  config ns' = default (config ns) (given_config o) ∧
  consul ns' = default (consul ns) (given_consul o) ∧
  external_host_address ns'
  = default (external_host_address ns) (given_external_host_address o) ∧
  fluentd ns' = default (fluentd ns) (PyStr <$> given_fluentd o) ∧
  internal_host_address ns'
  = default (internal_host_address ns) (given_internal_host_address o) ∧
  instance_id ns' = default (instance_id ns) (given_instance_id o) ∧
  interface ns' = default (interface ns) (given_interface o) ∧
  match given_rest_port o with
  | Some v => ∃ z, builtins.int v = Ok z ∧ rest_port ns' = PyInt z
  | None => rest_port ns' = rest_port ns
  end ∧
  instance_id_is_container_name ns'
  = match given_container_name o with
    | Some _ => true
    | None => instance_id_is_container_name ns
    end.
Proof.
  destruct ns, o; cbn; try discriminate; try (intros [= <-]; by cbn).
  unfold argparse.get_value_int, rbind.
  destruct (builtins.int v) as [z|] eqn:Hz; intros [= <-].
  cbn. split_and!; eauto.
Qed.

(** The options are consumed from left to right, so the last occurrence of
    an option decides, and an option that is not given leaves the default. *)
Lemma consume_fields (args : list cli_option) (ns ns' : Namespace) :
  argparse.consume ns args = Ok ns' →
  config ns' = default (config ns) (cli_last given_config args) ∧
  consul ns' = default (consul ns) (cli_last given_consul args) ∧
  external_host_address ns'
  = default (external_host_address ns) (cli_last given_external_host_address args) ∧
  fluentd ns' = default (fluentd ns) (PyStr <$> cli_last given_fluentd args) ∧
  internal_host_address ns'
  = default (internal_host_address ns) (cli_last given_internal_host_address args) ∧
  instance_id ns' = default (instance_id ns) (cli_last given_instance_id args) ∧
  interface ns' = default (interface ns) (cli_last given_interface args) ∧
  match cli_last given_rest_port args with
  | Some v => ∃ z, builtins.int v = Ok z ∧ rest_port ns' = PyInt z
  | None => rest_port ns' = rest_port ns
  end ∧
  instance_id_is_container_name ns'
  = match cli_last given_container_name args with
    | Some _ => true
    | None => instance_id_is_container_name ns
    end.
Proof.
  revert ns. induction args as [|o rest IH]; intros ns H; cbn in H.
  - injection H as <-. by cbn.
  - destruct (argparse.take_action ns o) as [ns1|] eqn:Hta; [ | discriminate H ].
    cbn in H. apply IH in H as (H1 & H2 & H3 & H4 & H5 & H6 & H7 & H8 & H9).
    apply take_action_fields in Hta as (T1 & T2 & T3 & T4 & T5 & T6 & T7 & T8 & T9).
    cbn [cli_last].
    rewrite H1, H2, H3, H4, H5, H6, H7, H9, T1, T2, T3, T4, T5, T6, T7, T9.
    split_and!.
    all: try (match goal with
              | |- context [cli_last ?f ?l] => destruct (cli_last f l)
              end; cbn; done).
    destruct (cli_last given_rest_port rest); [ done | ].
    destruct (given_rest_port o); [ | congruence ].
    destruct T8 as (z & Hz & Hr). exists z. by rewrite H8.
Qed.

Lemma existsb_is_rest_port (args : list cli_option) :
  existsb argparse.is_rest_port args
  = match cli_last given_rest_port args with Some _ => true | None => false end.
Proof.
  induction args as [|o rest IH]; [ done | ]. cbn. rewrite IH.
  destruct (cli_last given_rest_port rest); [ by rewrite orb_true_r | ].
  by destruct o.
Qed.

(** [convert_defaults] changes [rest_port] at most. *)
Lemma convert_defaults_fields (args : list cli_option) (ns ns' : Namespace) :
  argparse.convert_defaults args ns = Ok ns' →
  config ns' = config ns ∧ consul ns' = consul ns ∧
  external_host_address ns' = external_host_address ns ∧
  fluentd ns' = fluentd ns ∧
  internal_host_address ns' = internal_host_address ns ∧
  instance_id ns' = instance_id ns ∧ interface ns' = interface ns ∧
  instance_id_is_container_name ns' = instance_id_is_container_name ns ∧
  match cli_last given_rest_port args with
  | Some _ => rest_port ns' = rest_port ns
  | None =>
      match rest_port ns with
      | PyStr v => ∃ z, builtins.int v = Ok z ∧ rest_port ns' = PyInt z
      | _ => rest_port ns' = rest_port ns
      end
  end.
Proof.
  unfold argparse.convert_defaults. rewrite existsb_is_rest_port.
  destruct (cli_last given_rest_port args); [ by intros [= <-] | ].
  destruct ns as [? ? ? ? ? ? ? ? ? [| |v] ? ? ?]; cbn; try by intros [= <-].
  unfold argparse.get_value_int, rbind.
  destruct (builtins.int v) as [z|] eqn:Hz; intros [= <-].
  cbn. split_and!; eauto.
Qed.

Lemma environ_get_default (w : world) (key : string) (d : string) :
  environ_get w key id d = default d (environ w !! key).
Proof. unfold environ_get. by destruct (environ w !! key). Qed.

(** What a parser that returns has gone through. *)
Lemma argparse_parse_args_inv (d : defs_t) (args : list cli_option)
    (ns : Namespace) :
  argparse.parse_args d args = Ok ns →
  existsb argparse.is_ambiguous args = false ∧
  existsb argparse.is_unrecognized args = false ∧
  ∃ ns1, argparse.consume (argparse.defaults d) args = Ok ns1 ∧
         argparse.convert_defaults args ns1 = Ok ns.
Proof.
  unfold argparse.parse_args, rbind.
  destruct (existsb argparse.is_ambiguous args); [ discriminate | ].
  destruct (argparse.consume _ _) as [ns1|]; [ | discriminate ].
  destruct (argparse.convert_defaults args ns1) as [ns2|] eqn:Hd;
    [ | discriminate ].
  destruct (existsb argparse.is_unrecognized args); [ discriminate | ].
  intros [= <-]. split_and!; eauto.
Qed.

(** The parser that [parse_args] builds and runs. *)
Lemma argparse_fields (w : world) (ns : Namespace) :
  argparse.parse_args (defs w) (argv w) = Ok ns →
  config ns
  = default (default "./voltha.yml" (environ w !! "CONFIG"))
            (cli_last given_config (argv w)) ∧
  consul ns
  = default (default "localhost:8500" (environ w !! "CONSUL"))
            (cli_last given_consul (argv w)) ∧
  external_host_address ns
  = default (default (get_my_primary_local_ipv4 w)
                     (environ w !! "EXTERNAL_HOST_ADDRESS"))
            (cli_last given_external_host_address (argv w)) ∧
  fluentd ns
  = default (default PyNone (PyStr <$> environ w !! "FLUENTD"))
            (PyStr <$> cli_last given_fluentd (argv w)) ∧
  internal_host_address ns
  = default (default (get_my_primary_local_ipv4 w)
                     (environ w !! "INTERNAL_HOST_ADDRESS"))
            (cli_last given_internal_host_address (argv w)) ∧
  instance_id ns
  = default (default (default "1" (environ w !! "HOSTNAME"))
                     (environ w !! "INSTANCE_ID"))
            (cli_last given_instance_id (argv w)) ∧
  interface ns
  = default (default (get_my_primary_interface w) (environ w !! "INTERFACE"))
            (cli_last given_interface (argv w)) ∧
  (∃ z, rest_port ns = PyInt z ∧
        match cli_last given_rest_port (argv w) with
        | Some v => builtins.int v = Ok z
        | None =>
            match environ w !! "REST_PORT" with
            | Some v => builtins.int v = Ok z
            | None => z = 8880%Z
            end
        end) ∧
  instance_id_is_container_name ns
  = match cli_last given_container_name (argv w) with
    | Some _ => true
    | None => false
    end.
Proof.
  intros (_ & _ & ns1 & Hc & Hd)%argparse_parse_args_inv.
  apply consume_fields in Hc as (H1 & H2 & H3 & H4 & H5 & H6 & H7 & H8 & H9).
  apply convert_defaults_fields in Hd as (D1 & D2 & D3 & D4 & D5 & D6 & D7 & D8 & D9).
  rewrite D1, D2, D3, D4, D5, D6, D7, D8, H1, H2, H3, H4, H5, H6, H7, H9.
  cbn [argparse.defaults defs config consul external_host_address fluentd
       internal_host_address instance_id interface rest_port
       instance_id_is_container_name defs_config defs_consul
       defs_external_host_address defs_fluentd defs_internal_host_address
       defs_instance_id defs_interface defs_rest_port] in *.
  rewrite !environ_get_default.
  split_and!; try reflexivity.
  - unfold environ_get. by destruct (environ w !! "FLUENTD").
  - destruct (cli_last given_rest_port (argv w)).
    + destruct H8 as (z & Hz & Hr). exists z. by rewrite D9.
    + rewrite H8 in D9. unfold environ_get in *.
      destruct (environ w !! "REST_PORT"); [ | by exists 8880%Z ].
      destruct D9 as (z & Hz & Hr). by exists z.
Qed.

(** A [parse_args] that returns found no [REST_PORT] in the environment; its
    result is that of the parser, with the instance id replaced when
    --instance-id-is-container-name was given. *)
Lemma parse_args_inv (w : world) (ns : Namespace) :
  parse_args w = Ok ns →
  environ w !! "REST_PORT" = None ∧
  ∃ ns0,
    argparse.parse_args (defs w) (argv w) = Ok ns0 ∧
    if instance_id_is_container_name ns0
    then ∃ name, get_my_containers_name w = Ok name ∧ ns = set_instance_id name ns0
    else ns = ns0.
Proof.
  unfold parse_args, rbind. cbn [defs defs_rest_port]. unfold environ_get.
  destruct (environ w !! "REST_PORT"); [ discriminate | ]. cbn.
  fold (defs w).
  destruct (argparse.parse_args (defs w) (argv w)) as [ns0|]; [ | discriminate ].
  intros H. split; [ done | ]. exists ns0. split; [ done | ].
  destruct (instance_id_is_container_name ns0); [ | congruence ].
  destruct (get_my_containers_name w) as [name|]; [ | discriminate ].
  exists name. split; congruence.
Qed.

(** X1: the precedence of the sources of a setting, in every [parse_args]
    that returns: the last occurrence of the option on the command line, else the
    variable of the environment, else the built-in default; and the name of
    the container as instance id when --instance-id-is-container-name is
    given. *)
Lemma parse_args_precedence (w : world) (ns : Namespace) :
  parse_args w = Ok ns →
  config ns
  = default (default "./voltha.yml" (environ w !! "CONFIG"))
            (cli_last given_config (argv w)) ∧
  consul ns
  = default (default "localhost:8500" (environ w !! "CONSUL"))
            (cli_last given_consul (argv w)) ∧
  external_host_address ns
  = default (default (get_my_primary_local_ipv4 w)
                     (environ w !! "EXTERNAL_HOST_ADDRESS"))
            (cli_last given_external_host_address (argv w)) ∧
  fluentd ns
  = default (default PyNone (PyStr <$> environ w !! "FLUENTD"))
            (PyStr <$> cli_last given_fluentd (argv w)) ∧
  internal_host_address ns
  = default (default (get_my_primary_local_ipv4 w)
                     (environ w !! "INTERNAL_HOST_ADDRESS"))
            (cli_last given_internal_host_address (argv w)) ∧
  interface ns
  = default (default (get_my_primary_interface w) (environ w !! "INTERFACE"))
            (cli_last given_interface (argv w)) ∧
  match cli_last given_container_name (argv w) with
  | Some _ => get_my_containers_name w = Ok (instance_id ns)
  | None =>
      instance_id ns
      = default (default (default "1" (environ w !! "HOSTNAME"))
                         (environ w !! "INSTANCE_ID"))
                (cli_last given_instance_id (argv w))
  end.
Proof.
  intros H. apply parse_args_inv in H as (_ & ns0 & Hns0 & Hpost).
  apply argparse_fields in Hns0 as (H1 & H2 & H3 & H4 & H5 & H6 & H7 & _ & H9).
  rewrite H9 in Hpost.
  destruct (cli_last given_container_name (argv w)).
  - destruct Hpost as (name & Hname & ->). by destruct ns0.
  - by subst ns0.
Qed.

(** C2 at [REST_PORT=7000]: [parse_args] raises [TypeError] while it builds
    the help text of --rest-port, with or without --rest-port on the command
    line, and no setting is resolved. *)
Theorem C2_rest_port_in_environment_raises :
  environ rest_port_env_world !! "REST_PORT" = Some "7000" ∧
  parse_args rest_port_env_world = Raise TypeError ∧
  argv rest_port_env_cli_world = [opt_rest_port "6000"] ∧
  parse_args rest_port_env_cli_world = Raise TypeError ∧
  (main rest_port_env_cli_world).1 = Raised TypeError.
Proof. by vm_compute. Qed.

(** ** The port of the REST service *)

(** C10, as the code has it: with [REST_PORT] in the environment no
    [rest_port] is resolved at all, neither the string of the environment
    nor its integer: [parse_args] raises [TypeError] while it builds the
    help text of --rest-port, whatever the command line is, and
    [Main().start()] ends with that exception before anything is done. *)
Theorem C10_rest_port_in_environment_is_fatal (w : world) (v : string) :
  environ w !! "REST_PORT" = Some v →
  parse_args w = Raise TypeError ∧
  (∀ ns, parse_args w ≠ Ok ns) ∧
  main w = (Raised TypeError, initial_state).
Proof.
  intros Henv.
  assert (Hp : parse_args w = Raise TypeError).
  { unfold parse_args, rbind. cbn [defs defs_rest_port]. unfold environ_get.
    by rewrite Henv. }
  split; [ exact Hp | ]. split; [ by rewrite Hp | ].
  unfold main, bind. by rewrite (init_parse_args_raises _ _ Hp).
Qed.

(** The world [rest_port_env_world]: [REST_PORT=7000] and no --rest-port. *)
Lemma C10_rest_port_in_environment_is_fatal_witness :
  environ rest_port_env_world !! "REST_PORT" = Some "7000" ∧
  cli_last given_rest_port (argv rest_port_env_world) = None ∧
  parse_args rest_port_env_world = Raise TypeError ∧
  (∀ ns, parse_args rest_port_env_world ≠ Ok ns) ∧
  main rest_port_env_world = (Raised TypeError, initial_state).
Proof.
  split; [ by vm_compute | ]. split; [ by vm_compute | ].
  apply (C10_rest_port_in_environment_is_fatal rest_port_env_world "7000").
  by vm_compute.
Defined.

(** ** The path of the configuration file *)

Lemma isabs_inv (s : string) :
  os_path.isabs s = true → ∃ r, s = String "/" r.
Proof.
  destruct s as [|c r]; [ discriminate | ].
  unfold os_path.isabs, Str.startswith. cbn [String.prefix].
  destruct (ascii_dec "/"%char c) as [<- | ]; [ eauto | discriminate ].
Qed.

Lemma isabs_slash (r : string) : os_path.isabs (String "/" r) = true.
Proof.
  unfold os_path.isabs, Str.startswith. cbn [String.prefix].
  destruct (ascii_dec "/"%char "/"%char); [ by destruct r | congruence ].
Qed.

Lemma normpath_isabs (p : string) :
  os_path.isabs p = true → os_path.isabs (os_path.normpath p) = true.
Proof.
  intros Hp. destruct (isabs_inv p Hp) as [r ->].
  unfold os_path.normpath.
  change (String.eqb (String "/" r) "") with false. cbn match.
  fold (os_path.isabs (String "/" r)). rewrite isabs_slash.
  destruct (Str.startswith (String "/" r) "//"
            && negb (Str.startswith (String "/" r) "///"));
    cbn [String.append String.eqb]; apply isabs_slash.
Qed.

Lemma rstrip_slash_empty (h : string) :
  Str.rstrip_slash h = "" → Str.all_slashes h = true.
Proof.
  induction h as [|c h IH]; [ done | ]. cbn.
  destruct (Str.rstrip_slash h); [ | discriminate ].
  destruct (Ascii.eqb c "/"%char); [ | discriminate ]. intros _. by apply IH.
Qed.

Lemma dirname_isabs (q : string) :
  os_path.isabs q = true → os_path.isabs (os_path.dirname q) = true.
Proof.
  intros Hq. destruct (isabs_inv q Hq) as [r ->].
  unfold os_path.dirname.
  assert (∃ h, Str.upto_last_slash (String "/" r) = String "/" h) as [h ->].
  { cbn. destruct (Str.upto_last_slash r); eauto. }
  destruct (negb (String.eqb (String "/" h) "")
            && negb (Str.all_slashes (String "/" h))) eqn:Hc;
    [ | apply isabs_slash ].
  cbn in Hc. cbn [Str.rstrip_slash].
  destruct (Str.rstrip_slash h) eqn:Hh; [ | apply isabs_slash ].
  apply rstrip_slash_empty in Hh. by rewrite Hh in Hc.
Qed.

Lemma join_isabs (dir p : string) :
  os_path.isabs dir = true → os_path.isabs (os_path.join dir p) = true.
Proof.
  intros Hd. destruct (isabs_inv dir Hd) as [d ->]. unfold os_path.join.
  destruct (Str.startswith p "/") eqn:Hp; [ exact Hp | ].
  destruct (String.eqb (String "/" d) "" || Str.endswith_slash (String "/" d));
    cbn [String.append]; apply isabs_slash.
Qed.

(** X3: a path that starts with a dot is taken from the directory of
    [main.py], whatever the working directory is, when [__file__] is
    absolute. *)
Lemma config_path_dot_relative (w : world) (args : Namespace) :
  Str.startswith (config args) "." = true →
  os_path.isabs (module_file w) = true →
  config_path w args
  = os_path.normpath
      (os_path.join (os_path.dirname (os_path.normpath (module_file w)))
                    (config args)) ∧
  ∀ cwd, config_path (with_getcwd cwd w) args = config_path w args.
Proof.
  intros Hdot Habs.
  assert (Hcwd : ∀ cwd,
    config_path (with_getcwd cwd w) args
    = os_path.normpath
        (os_path.join (os_path.dirname (os_path.normpath (module_file w)))
                      (config args))).
  { intros cwd. unfold config_path. rewrite Hdot.
    cbn [with_getcwd module_file getcwd].
    unfold os_path.abspath at 2. rewrite Habs.
    unfold os_path.abspath.
    by rewrite (join_isabs _ _ (dirname_isabs _ (normpath_isabs _ Habs))). }
  split.
  - rewrite <- (Hcwd (getcwd w)). by destruct w.
  - intros cwd. rewrite (Hcwd cwd), <- (Hcwd (getcwd w)). by destruct w.
Qed.

(** C8 at [--config voltha.yml]: the path is relative and does not start
    with a dot, so [load_config] does not join it to the directory of
    [main.py], and [abspath] resolves it from the working directory: from
    /home/voltha and from /tmp the same command line opens two different
    files, neither of them in /opt/voltha/voltha, where [main.py] is. *)
Theorem C8_relative_path_follows_cwd :
  ∃ args,
    parse_args (plain_relative_world "/home/voltha") = Ok args ∧
    parse_args (plain_relative_world "/tmp") = Ok args ∧
    config args = "voltha.yml" ∧
    os_path.isabs (config args) = false ∧
    os_path.dirname
      (os_path.abspath "/tmp" (module_file (plain_relative_world "/tmp")))
    = "/opt/voltha/voltha" ∧
    config_path (plain_relative_world "/home/voltha") args
    = "/home/voltha/voltha.yml" ∧
    config_path (plain_relative_world "/tmp") args = "/tmp/voltha.yml".
Proof.
  eexists. split; [ vm_compute; reflexivity | ].
  by vm_compute.
Qed.


(** * More of the code *)

(** ** [parse_args]: when it returns, and what it raises *)

(** The world [settings_world]: --consul is given twice and the second value
    wins over [CONSUL]; [FLUENTD] is taken from the environment; the name of
    the container replaces the --instance-id that was given. *)
Lemma parse_args_precedence_witness :
  ∃ ns,
    parse_args settings_world = Ok ns ∧
    consul ns = "b:2" ∧ fluentd ns = PyStr "fluentd:24224" ∧
    config ns = "./voltha.yml" ∧ instance_id ns = "voltha_1" ∧
    get_my_containers_name settings_world = Ok (instance_id ns).
Proof.
  eexists. split; [ vm_compute; reflexivity | ].
  edestruct (parse_args_precedence settings_world)
    as (H1 & H2 & H3 & H4 & H5 & H6 & H7).
  { vm_compute. reflexivity. }
  split; [ exact H2 | ]. split; [ exact H4 | ]. split; [ exact H1 | ].
  split; [ reflexivity | exact H7 ].
Defined.

Lemma int_raises (v : string) (e : exn) :
  builtins.int v = Raise e → e = ValueError.
Proof.
  unfold builtins.int.
  destruct (Str.strip v) as [|c r]; [ by intros [= <-] | ].
  destruct (match String c r with
            | String "-"%char rest => (true, rest)
            | String "+"%char rest => (false, rest)
            | _ => (false, String c r)
            end) as [negative body].
  destruct body; [ by intros [= <-] | ].
  destruct (builtins.digits_value _ _); [ discriminate | by intros [= <-] ].
Qed.


(** The action of an argument returns unless the argument asks for the help,
    is refused, or is a --rest-port whose value is not an integer. *)
Lemma take_action_returns (ns : Namespace) (o : cli_option) :
  (∃ ns', argparse.take_action ns o = Ok ns') ↔
  is_help o = false ∧ argparse.is_ambiguous o = false ∧ o ≠ opt_invalid ∧
  is_bad_port o = false.
Proof.
  destruct ns, o; cbn; try (split; [ by intros _ | by eauto ]);
    try (split; [ by intros [? [=]] | by intros (? & ? & ? & ?) ]).
  unfold argparse.get_value_int, rbind.
  destruct (builtins.int v); split; try done; try (by intros [? [=]]); eauto.
  by intros (? & ? & ? & ?).
Qed.


(** The arguments are consumed to the end unless one of them stops the
    parser. *)
Lemma consume_returns_iff (args : list cli_option) (ns : Namespace) :
  (∃ ns', argparse.consume ns args = Ok ns') ↔
  Forall (fun o => is_help o = false ∧ argparse.is_ambiguous o = false ∧
                   o ≠ opt_invalid ∧ is_bad_port o = false) args.
Proof.
  revert ns. induction args as [|o rest IH]; intros ns.
  - split; [ constructor | by eexists ].
  - cbn [argparse.consume]. unfold rbind. rewrite Forall_cons.
    rewrite <- (take_action_returns ns o).
    destruct (argparse.take_action ns o) as [ns1|e].
    + rewrite IH. split; [ eauto | tauto ].
    + split; [ by intros [? [=]] | by intros [[? [=]] _] ].
Qed.


Lemma existsb_false {A} (p : A → bool) (l : list A) :
  existsb p l = false ↔ Forall (fun a => p a = false) l.
Proof.
  induction l as [|a l IH]; [ done | ].
  cbn. rewrite orb_false_iff, Forall_cons, IH. done.
Qed.

(** X2: [parse_args] returns settings exactly when [REST_PORT] is not in the
    environment, no argument asks for the help or is refused by the parser,
    every value given to --rest-port is an integer for [int], and, if
    --instance-id-is-container-name is given, the name of the container is
    found. *)
Theorem parse_args_returns_iff (w : world) :
  (∃ ns, parse_args w = Ok ns) ↔
  environ w !! "REST_PORT" = None ∧
  Forall (fun o => is_help o = false ∧ is_usage_error o = false ∧
                   is_bad_port o = false) (argv w) ∧
  (is_Some (cli_last given_container_name (argv w)) →
   ∃ name, get_my_containers_name w = Ok name).
Proof.
  split.
  - intros [ns H]. apply parse_args_inv in H as (Henv & ns0 & Hns0 & Hpost).
    split; [ done | ].
    pose proof (argparse_fields _ _ Hns0) as (_ & _ & _ & _ & _ & _ & _ & _ & H9).
    apply argparse_parse_args_inv in Hns0 as (Hamb & Hunr & ns1 & Hc & _).
    split.
    + assert (Hcons : ∃ ns', argparse.consume (argparse.defaults (defs w))
                               (argv w) = Ok ns') by eauto.
      apply consume_returns_iff in Hcons.
      apply existsb_false in Hunr.
      rewrite Forall_forall in Hcons, Hunr. apply Forall_forall.
      intros o Ho. destruct (Hcons o Ho) as (Hh & Ha & Hi & Hb).
      specialize (Hunr o Ho). split_and!; [ done | | done ].
      by destruct o.
    + intros [u Hu]. rewrite Hu in H9. rewrite H9 in Hpost.
      destruct Hpost as (name & Hname & _). eauto.
  - intros (Henv & Hargs & Hname).
    assert (Hamb : existsb argparse.is_ambiguous (argv w) = false).
    { apply existsb_false. eapply Forall_impl; [ exact Hargs | ].
      intros o (_ & Hu & _). by destruct o. }
    assert (Hunr : existsb argparse.is_unrecognized (argv w) = false).
    { apply existsb_false. eapply Forall_impl; [ exact Hargs | ].
      intros o (_ & Hu & _). by destruct o. }
    assert (Hcons : ∃ ns1, argparse.consume (argparse.defaults (defs w))
                             (argv w) = Ok ns1).
    { apply consume_returns_iff. eapply Forall_impl; [ exact Hargs | ].
      intros o (Hh & Hu & Hb). split_and!; try done; by destruct o. }
    destruct Hcons as [ns1 Hc].
    assert (Hd : argparse.convert_defaults (argv w) ns1 = Ok ns1).
    { unfold argparse.convert_defaults. rewrite existsb_is_rest_port.
      pose proof (consume_fields _ _ _ Hc) as (_ & _ & _ & _ & _ & _ & _ & H8 & _).
      destruct (cli_last given_rest_port (argv w)); [ done | ].
      rewrite H8. cbn. unfold environ_get. by rewrite Henv. }
    unfold parse_args, rbind. cbn [defs defs_rest_port]. unfold environ_get at 1.
    rewrite Henv. cbn [builtins.percent_d]. fold (defs w).
    unfold argparse.parse_args, rbind. rewrite Hamb, Hc, Hd, Hunr.
    destruct (instance_id_is_container_name ns1) eqn:Hflag; [ | eauto ].
    pose proof (consume_fields _ _ _ Hc) as (_ & _ & _ & _ & _ & _ & _ & _ & H9).
    rewrite Hflag in H9.
    destruct (cli_last given_container_name (argv w)) eqn:Hlast;
      [ | discriminate H9 ].
    destruct Hname as [name ->]; eauto.
Qed.

(** The world [settings_world], whose command line is accepted, and the
    world [help_world], whose command line asks for the help. *)
Lemma parse_args_returns_iff_witness :
  (∃ ns, parse_args settings_world = Ok ns) ∧
  ¬ (∃ ns, parse_args help_world = Ok ns).
Proof.
  split.
  - apply (parse_args_returns_iff settings_world). split; [ by vm_compute | ].
    split; [ | by eexists ].
    repeat constructor.
  - intros H. apply (parse_args_returns_iff help_world) in H as (_ & H & _).
    by inversion H as [|? ? (? & ?)].
Defined.



(** ** The flags and the counters *)

Lemma occurrences_cons (p : cli_option -> bool) (o : cli_option)
    (rest : list cli_option) :
  occurrences p (o :: rest)
  = ((if p o then 1 else 0) + occurrences p rest)%Z.
Proof.
  unfold occurrences. cbn. destruct (p o); cbn [length]; lia.
Qed.

Lemma take_action_flags (ns ns' : Namespace) (o : cli_option) :
  argparse.take_action ns o = Ok ns' →
  no_banner ns' = no_banner ns || is_no_banner o ∧
  no_heartbeat ns' = no_heartbeat ns || is_no_heartbeat o ∧
  default 0%Z (quiet ns')
  = (default 0%Z (quiet ns) + (if is_quiet o then 1 else 0))%Z ∧
  default 0%Z (verbose ns')
  = (default 0%Z (verbose ns) + (if is_verbose o then 1 else 0))%Z.
Proof.
  destruct ns, o; cbn; try discriminate;
    try (intros [= <-]; cbn; rewrite ?orb_false_r, ?orb_true_r;
         split_and!; try reflexivity; lia).
  unfold argparse.get_value_int, rbind.
  destruct (builtins.int v); intros [= <-]. cbn. rewrite !orb_false_r.
  split_and!; try reflexivity; lia.
Qed.

Lemma consume_flags (args : list cli_option) (ns ns' : Namespace) :
  argparse.consume ns args = Ok ns' →
  no_banner ns' = no_banner ns || existsb is_no_banner args ∧
  no_heartbeat ns' = no_heartbeat ns || existsb is_no_heartbeat args ∧
  default 0%Z (quiet ns') = (default 0%Z (quiet ns) + occurrences is_quiet args)%Z ∧
  default 0%Z (verbose ns')
  = (default 0%Z (verbose ns) + occurrences is_verbose args)%Z.
Proof.
  revert ns. induction args as [|o rest IH]; intros ns H; cbn in H.
  - injection H as <-. cbn. rewrite !orb_false_r. unfold occurrences. cbn.
    split_and!; try reflexivity; lia.
  - destruct (argparse.take_action ns o) as [ns1|] eqn:Hta; [ | discriminate H ].
    cbn in H. apply IH in H as (H1 & H2 & H3 & H4).
    apply take_action_flags in Hta as (T1 & T2 & T3 & T4).
    rewrite H1, H2, H3, H4, T1, T2, T3, T4, !occurrences_cons. cbn [existsb].
    rewrite !orb_assoc. split_and!; try reflexivity; lia.
Qed.

(** In the settings a flag is set exactly when it is on the command line,
    and a counter counts the occurrences of its option. *)
Lemma parse_args_flags (w : world) (ns : Namespace) :
  parse_args w = Ok ns →
  no_banner ns = existsb is_no_banner (argv w) ∧
  no_heartbeat ns = existsb is_no_heartbeat (argv w) ∧
  default 0%Z (quiet ns) = occurrences is_quiet (argv w) ∧
  default 0%Z (verbose ns) = occurrences is_verbose (argv w).
Proof.
  intros H. apply parse_args_inv in H as (_ & ns0 & Hns0 & Hpost).
  assert (Hsame : no_banner ns = no_banner ns0 ∧ no_heartbeat ns = no_heartbeat ns0 ∧
                  quiet ns = quiet ns0 ∧ verbose ns = verbose ns0).
  { destruct (instance_id_is_container_name ns0); [ | by subst ].
    destruct Hpost as (name & _ & ->). by destruct ns0. }
  destruct Hsame as (-> & -> & -> & ->).
  apply argparse_parse_args_inv in Hns0 as (_ & _ & ns1 & Hc & Hns0).
  apply consume_flags in Hc as (H1 & H2 & H3 & H4). cbn in H1, H2, H3, H4.
  assert (Hconv : no_banner ns0 = no_banner ns1 ∧ no_heartbeat ns0 = no_heartbeat ns1 ∧
                  quiet ns0 = quiet ns1 ∧ verbose ns0 = verbose ns1).
  { unfold argparse.convert_defaults in Hns0.
    destruct (existsb argparse.is_rest_port (argv w));
      [ by injection Hns0 as <- | ].
    destruct ns1 as [? ? ? ? ? ? ? ? ? [| |v] ? ? ?]; cbn in Hns0;
      try by injection Hns0 as <-.
    unfold argparse.get_value_int, rbind in Hns0.
    destruct (builtins.int v); [ by injection Hns0 as <- | discriminate ]. }
  destruct Hconv as (-> & -> & -> & ->). by rewrite H1, H2, H3, H4.
Qed.

(** ** The shape of every run that loads its configuration *)

Lemma run_events_observed (rest : list event) :
  Forall (fun e => is_run_event e = true) rest →
  armed rest = [] ∧
  (∀ i v f, ev_setup_logging i v f ∉ rest) ∧
  (∀ line, line ∈ banner_lines → ev_log_info line ∉ rest).
Proof.
  induction 1 as [|e rest He _ (IH1 & IH2 & IH3)].
  - split; [ done | ]. split; [ intros i v f | intros e _ ]; apply not_elem_of_nil.
  - split; [ by destruct e | ]. split.
    + intros i v f [<- | Hin]%elem_of_cons; [ discriminate He | by apply (IH2 i v f) ].
    + intros b Hb [<- | Hin]%elem_of_cons; [ | by apply (IH3 b) ].
      revert He. clear -Hb. revert Hb. unfold banner_lines.
      intros Hb.
      repeat (apply elem_of_cons in Hb as [-> | Hb]; [ discriminate | ]).
      by apply elem_of_nil in Hb.
Qed.

(** ** Logging, banner and clock *)

(** X5: in every run that loads its configuration, the first thing done is
    one call of [setup_logging], with the resolved instance id, the number
    of -v minus the number of -q as verbosity adjustment, and the resolved
    fluentd address; [setup_logging] is not called again. *)
Theorem logging_is_set_up_once (w : world) (args : Namespace)
    (cfg lg : yaml_value) :
  parse_args w = Ok args →
  load_config w args = Ok cfg →
  yaml_get cfg "logging" = Ok lg →
  ∃ rest,
    trace (main w).2
    = ev_setup_logging (instance_id args)
        (occurrences is_verbose (argv w) - occurrences is_quiet (argv w))
        (fluentd args) :: rest ∧
    ∀ i v f, ev_setup_logging i v f ∉ rest.
Proof.
  intros Hp Hl Hy.
  destruct (main_shape _ _ _ _ Hp Hl Hy) as (rest & Ht & Hrun & _).
  destruct (run_events_observed _ Hrun) as (_ & Hno & _).
  destruct (parse_args_flags _ _ Hp) as (_ & _ & Hq & Hv).
  rewrite Ht. cbn [before_startup trace]. rewrite Hq, Hv. cbn [app].
  eexists. split; [ reflexivity | ].
  intros i v f. rewrite !elem_of_app. intros [[Hin | Hin] | Hin].
  - revert Hin. destruct (no_banner args); unfold banner; cbn; not_in_events.
  - revert Hin. destruct (no_heartbeat args); not_in_events.
  - by apply (Hno i v f).
Qed.

(** The world [settings_world]: -v twice and -q once. *)
Lemma logging_is_set_up_once_witness :
  ∃ rest,
    trace (main settings_world).2
    = ev_setup_logging "voltha_1" 1 (PyStr "fluentd:24224") :: rest ∧
    ∀ i v f, ev_setup_logging i v f ∉ rest.
Proof.
  edestruct (logging_is_set_up_once settings_world) as (rest & Ht & Hno).
  - vm_compute. reflexivity.
  - vm_compute. reflexivity.
  - vm_compute. reflexivity.
  - exists rest. split; [ exact Ht | exact Hno ].
Defined.

(** X6: with --no-banner none of the six lines of the banner is ever
    logged; without it the run begins with the call of [setup_logging] and
    the six lines, in their order, and none of them is logged again. *)
Theorem banner_unless_suppressed (w : world) (args : Namespace)
    (cfg lg : yaml_value) :
  parse_args w = Ok args →
  load_config w args = Ok cfg →
  yaml_get cfg "logging" = Ok lg →
  if existsb is_no_banner (argv w)
  then ∀ line, line ∈ banner_lines → ev_log_info line ∉ trace (main w).2
  else ∃ rest,
         trace (main w).2
         = [ev_setup_logging (instance_id args)
              (occurrences is_verbose (argv w) - occurrences is_quiet (argv w))
              (fluentd args);
            ev_log_info " _    ______  __  ________  _____ ";
            ev_log_info "| |  / / __ \/ / /_  __/ / / /   |";
            ev_log_info "| | / / / / / /   / / / /_/ / /| |";
            ev_log_info "| |/ / /_/ / /___/ / / __  / ___ |";
            ev_log_info "|___/\____/_____/_/ /_/ /_/_/  |_|";
            ev_log_info "(to stop: press Ctrl-C)"] ++ rest ∧
         ∀ line, line ∈ banner_lines → ev_log_info line ∉ rest.
Proof.
  intros Hp Hl Hy.
  destruct (main_shape _ _ _ _ Hp Hl Hy) as (rest & Ht & Hrun & _).
  destruct (run_events_observed _ Hrun) as (_ & _ & Hno).
  destruct (parse_args_flags _ _ Hp) as (Hb & _ & Hq & Hv).
  rewrite Ht. cbn [before_startup trace]. rewrite Hb, Hq, Hv.
  assert (Hhb : ∀ line, line ∈ banner_lines →
            ev_log_info line
            ∉ (if no_heartbeat args then []
               else [ev_LoopingCall_start 10; heartbeat_event w 1])).
  { intros line _. destruct (no_heartbeat args); not_in_events. }
  destruct (existsb is_no_banner (argv w)).
  - intros line Hline. cbn [app]. rewrite elem_of_cons, elem_of_app.
    intros [[=] | [Hin | Hin]].
    + by apply (Hhb line).
    + by apply (Hno line).
  - eexists. split; [ by cbn; rewrite <- ?app_assoc | ].
    intros line Hline. rewrite elem_of_app. intros [Hin | Hin].
    + by apply (Hhb line).
    + by apply (Hno line).
Qed.

(** The world [quiet_world], without --no-banner. *)
Lemma banner_unless_suppressed_witness :
  ∃ rest,
    trace (main quiet_world).2
    = [ev_setup_logging "1" 0 PyNone;
       ev_log_info " _    ______  __  ________  _____ ";
       ev_log_info "| |  / / __ \/ / /_  __/ / / /   |";
       ev_log_info "| | / / / / / /   / / / /_/ / /| |";
       ev_log_info "| |/ / /_/ / /___/ / / __  / ___ |";
       ev_log_info "|___/\____/_____/_/ /_/ /_/_/  |_|";
       ev_log_info "(to stop: press Ctrl-C)"] ++ rest ∧
    ∀ line, line ∈ banner_lines → ev_log_info line ∉ rest.
Proof.
  eassert (Hp : parse_args quiet_world = Ok _) by (vm_compute; reflexivity).
  match type of Hp with
  | _ = Ok ?args =>
      eassert (Hl : load_config quiet_world args = Ok _) by (vm_compute; reflexivity)
  end.
  match type of Hl with
  | _ = Ok ?cfg =>
      eassert (Hy : yaml_get cfg "logging" = Ok _) by (vm_compute; reflexivity)
  end.
  exact (banner_unless_suppressed quiet_world _ _ _ Hp Hl Hy).
Defined.

(** X7: [time.time()] is read for the heartbeat only. With --no-heartbeat
    the clock is never read, no [LoopingCall] is started and no record is
    logged; without it the clock is read once for the start instant and
    once for each record. *)
Theorem clock_is_read_for_the_heartbeat (w : world) (args : Namespace)
    (cfg lg : yaml_value) :
  parse_args w = Ok args →
  load_config w args = Ok cfg →
  yaml_get cfg "logging" = Ok lg →
  if existsb is_no_heartbeat (argv w)
  then clock_reads (main w).2 = 0 ∧
       heartbeats (trace (main w).2) = [] ∧
       armed (trace (main w).2) = []
  else clock_reads (main w).2 = S (length (heartbeats (trace (main w).2))).
Proof.
  intros Hp Hl Hy.
  destruct (main_shape _ _ _ _ Hp Hl Hy) as (rest & _ & _ & Hinv).
  destruct (parse_args_flags _ _ Hp) as (_ & Hflag & _).
  unfold heartbeat_inv in Hinv. rewrite Hflag in Hinv.
  destruct (existsb is_no_heartbeat (argv w)).
  - by destruct Hinv as (_ & ? & ? & ?).
  - destruct Hinv as (_ & Hk & -> & _). rewrite length_fmap, length_seq. lia.
Qed.

(** The world [silent_world], with --no-heartbeat. *)
Lemma clock_is_read_for_the_heartbeat_witness :
  clock_reads (main silent_world).2 = 0 ∧
  heartbeats (trace (main silent_world).2) = [] ∧
  armed (trace (main silent_world).2) = [].
Proof.
  eassert (Hp : parse_args silent_world = Ok _) by (vm_compute; reflexivity).
  match type of Hp with
  | _ = Ok ?args =>
      eassert (Hl : load_config silent_world args = Ok _) by (vm_compute; reflexivity)
  end.
  match type of Hl with
  | _ = Ok ?cfg =>
      eassert (Hy : yaml_get cfg "logging" = Ok _) by (vm_compute; reflexivity)
  end.
  exact (clock_is_read_for_the_heartbeat silent_world _ _ _ Hp Hl Hy).
Defined.

(** ** Every run *)

(** X8: in every run the starts that are called are a prefix of the
    declaration order Coordinator, REST service, gRPC server: no subsystem
    is started twice, none before one declared earlier. *)
Theorem starts_follow_declaration_order (w : world) :
  started (trace (main w).2) `prefix_of` declaration_order.
Proof.
  destruct (main_outcomes w)
    as [(e & -> & _) | [(args & e & k & _ & -> & _) |
        (args & cfg & lg & c & g & Hp & Hl & Hy & Hc & Hr & Hg)]].
  - by exists declaration_order.
  - rewrite started_app, before_startup_started. cbn [app].
    change (started (?e :: ?l)) with (started l).
    rewrite started_starts. apply upto_prefix.
  - destruct (main_succeeds_observed w args cfg lg c g Hp Hl Hy Hc Hr Hg)
      as (rest & -> & Hst & _).
    rewrite !started_app, before_startup_started, Hst.
    by exists [].
Qed.

(** How a run that came to the reactor ends. *)
Lemma main_succeeds_end (w : world) (args : Namespace) (cfg lg : yaml_value)
    (c : handle) (g : option handle) :
  parse_args w = Ok args →
  load_config w args = Ok cfg →
  yaml_get cfg "logging" = Ok lg →
  new_Coordinator w (internal_host_address args) (external_host_address args)
    (rest_port args) (instance_id args) (consul args) = Ok c →
  init_rest_service w (rest_port args) = Ok tt →
  VolthaGrpcServer_run w = Ok g →
  ev_reactor_run ∈ trace (main w).2 ∧
  (main w).1
  = match keyboard_interrupt w with
    | None => Waiting
    | Some _ =>
        match round_outcome (first_outcomes c g) with
        | Waiting => Waiting
        | _ => Done tt
        end
    end ∧
  match (main w).1 with
  | Done _ => last (trace (main w).2) = Some ev_reactor_stopped
  | _ => ev_reactor_stopped ∉ trace (main w).2
  end.
Proof.
  intros Hp Hl Hy Hc Hr Hg.
  destruct (main_succeeds_shape w args cfg lg c g Hp Hl Hy Hc Hr Hg)
    as (ticks & late & Ht & Hticks & _ & Hlate).
  assert (Hrun : ev_reactor_run ∈ trace (main w).2).
  { rewrite Ht, !elem_of_app. right. right. left.
    unfold reactor_events. rewrite !elem_of_cons. auto. }
  split; [ exact Hrun | ].
  assert (Hbefore : ev_reactor_stopped
            ∉ trace (before_startup w args) ++ startup_events ++ reactor_events
              ++ ticks).
  { rewrite !elem_of_app. intros [Hin | [Hin | [Hin | Hin]]].
    - by apply (before_startup_not_stopped w args).
    - revert Hin. unfold startup_events. not_in_events.
    - revert Hin. unfold reactor_events. not_in_events.
    - rewrite Forall_forall in Hticks. by specialize (Hticks _ Hin). }
  destruct (keyboard_interrupt w) as [n|].
  - destruct Hlate as (_ & sd & tl & -> & Hsd & _ & Hend).
    destruct (hook_events_observed _ Hsd) as (_ & _ & _ & _ & Hnot).
    destruct (round_outcome (first_outcomes c g)) as [[]|e|];
      destruct Hend as [Ho ->]; rewrite Ho; (split; [ done | ]).
    + rewrite Ht.
      replace (trace (before_startup w args) ++ startup_events ++ reactor_events
               ++ ticks
               ++ ev_log_info "exiting-on-keyboard-interrupt"
                  :: sd ++ [ev_reactor_stopped])
        with ((trace (before_startup w args) ++ startup_events ++ reactor_events
               ++ ticks ++ ev_log_info "exiting-on-keyboard-interrupt" :: sd)
              ++ [ev_reactor_stopped])
        by (by rewrite <- !app_assoc).
      apply last_snoc.
    + rewrite Ht.
      replace (trace (before_startup w args) ++ startup_events ++ reactor_events
               ++ ticks
               ++ ev_log_info "exiting-on-keyboard-interrupt"
                  :: sd ++ [ev_reactor_stopped])
        with ((trace (before_startup w args) ++ startup_events ++ reactor_events
               ++ ticks ++ ev_log_info "exiting-on-keyboard-interrupt" :: sd)
              ++ [ev_reactor_stopped])
        by (by rewrite <- !app_assoc).
      apply last_snoc.
    + rewrite Ht, app_nil_r.
      rewrite !app_assoc, elem_of_app, <- !app_assoc.
      intros [Hin | [[=] | Hin]%elem_of_cons]; [ by apply Hbefore | done ].
  - destruct Hlate as [-> Ho]. rewrite Ho. split; [ done | ].
    rewrite Ht, app_nil_r. exact Hbefore.
Qed.

(** X9: how a run ends. The reactor is run exactly when [Main()] returned.
    A run that raises never ran the reactor; a run that returns ran it and
    ends with the stop of the reactor; a run that waits for ever ran it and
    never stops it. *)
Theorem run_ends (w : world) :
  (ev_reactor_run ∈ trace (main w).2 ↔
   ∃ args s, Main.__init__ w initial_state = (Done args, s)) ∧
  match (main w).1 with
  | Raised _ => ev_reactor_run ∉ trace (main w).2
  | Done _ =>
      ev_reactor_run ∈ trace (main w).2 ∧
      last (trace (main w).2) = Some ev_reactor_stopped
  | Waiting =>
      ev_reactor_run ∈ trace (main w).2 ∧
      ev_reactor_stopped ∉ trace (main w).2
  end.
Proof.
  destruct (main_outcomes w)
    as [(e & Hm & Hnot) | [(args & e & k & Ho & Ht & Hnot) |
        (args & cfg & lg & c & g & Hp & Hl & Hy & Hc & Hr & Hg)]].
  - rewrite Hm. cbn. split; [ | apply not_elem_of_nil ].
    split; [ by intros ?%elem_of_nil | ].
    intros (args & s & Hs). by destruct (Hnot args s).
  - assert (Hno : ev_reactor_run ∉ trace (main w).2).
    { rewrite Ht, elem_of_app, elem_of_cons, list_elem_of_fmap.
      intros [Hin | [? | (c & ? & _)]]; try discriminate.
      by apply (before_startup_no_reactor w args). }
    rewrite Ho. split; [ | exact Hno ].
    split; [ done | ]. intros (args' & s & Hs). by destruct (Hnot args' s).
  - pose proof (init_succeeds _ _ _ _ _ _ Hp Hl Hy Hc Hr Hg) as Hi.
    destruct (main_succeeds_end w args cfg lg c g Hp Hl Hy Hc Hr Hg)
      as (Hrun & Ho & Hend).
    split; [ split; eauto | ].
    destruct ((main w).1) as [[]|e|] eqn:Hout; [ done | | done ].
    exfalso. destruct (keyboard_interrupt w); [ | discriminate ].
    by destruct (round_outcome (first_outcomes c g)).
Qed.

Lemma shutdowns_elem (t : list event) (c : component) :
  ev_shutdown c ∈ t → c ∈ shutdowns t.
Proof.
  intros Hin. unfold shutdowns. apply list_elem_of_omap.
  by exists (ev_shutdown c).
Qed.

(** X10: a [shutdown()] is called only in a run in which the three
    subsystems were started, after the reactor was run and after the line
    exiting-on-keyboard-interrupt was logged; it is never called on the
    REST service. *)
Theorem shutdown_only_after_startup (w : world) (c : component) :
  ev_shutdown c ∈ trace (main w).2 →
  c ≠ RestService ∧
  ∃ t1 t2,
    trace (main w).2 = t1 ++ ev_shutdown c :: t2 ∧
    started t1 = declaration_order ∧
    ev_reactor_run ∈ t1 ∧
    ev_log_info "exiting-on-keyboard-interrupt" ∈ t1.
Proof.
  destruct (main_outcomes w)
    as [(e & -> & _) | [(args & e & k & _ & -> & _) |
        (args & cfg & lg & c0 & g & Hp & Hl & Hy & Hc & Hr & Hg)]].
  - by intros ?%elem_of_nil.
  - intros Hin%shutdowns_elem. exfalso. revert Hin.
    rewrite shutdowns_app, before_startup_shutdowns. cbn [app].
    change (shutdowns (?e :: ?l)) with (shutdowns l).
    destruct k; cbn; not_in_events.
  - destruct (main_succeeds_shape w args cfg lg c0 g Hp Hl Hy Hc Hr Hg)
      as (ticks & late & Ht & Hticks & _ & Hlate).
    destruct (records_observed _ Hticks) as (Hst1 & Hsd1 & _).
    rewrite Ht, !elem_of_app.
    intros [Hin | [Hin | [Hin | [Hin | Hin]]]].
    + apply shutdowns_elem in Hin. rewrite before_startup_shutdowns in Hin.
      by apply elem_of_nil in Hin.
    + exfalso. revert Hin. unfold startup_events. not_in_events.
    + exfalso. revert Hin. unfold reactor_events. not_in_events.
    + apply shutdowns_elem in Hin. rewrite Hsd1 in Hin.
      by apply elem_of_nil in Hin.
    + destruct (keyboard_interrupt w) as [n|].
      2: { destruct Hlate as [-> _]. by apply elem_of_nil in Hin. }
      destruct Hlate as (_ & sd & tl & -> & Hsd & Htd & Hend).
      assert (Htl : tl = [] ∨ tl = [ev_reactor_stopped]).
      { destruct (round_outcome (first_outcomes c0 g)); destruct Hend; auto. }
      apply elem_of_cons in Hin as [? | Hin]; [ discriminate | ].
      apply elem_of_app in Hin as [Hin | Hin].
      2: { exfalso. destruct Htl as [-> | ->]; revert Hin; not_in_events. }
      split.
      { pose proof Hin as Hin'. apply teardown_elem in Hin'.
        rewrite Htd in Hin'. apply teardown_of_shutdown in Hin'.
        intros ->. revert Hin'. unfold first_outcomes.
        destruct g; cbn; not_in_events. }
      apply list_elem_of_split in Hin as (l1 & l2 & ->).
      apply Forall_app in Hsd as [Hl1 _].
      destruct (hook_events_observed l1 Hl1) as (Hst & _).
      exists (trace (before_startup w args) ++ startup_events ++ reactor_events
              ++ ticks ++ ev_log_info "exiting-on-keyboard-interrupt" :: l1),
             (l2 ++ tl).
      split;
        [ rewrite <- ?app_assoc; cbn [app]; rewrite <- ?app_assoc; cbn [app];
          reflexivity | ].
      split.
      { rewrite !started_app, before_startup_started, Hst1.
        change (started (?e :: l1)) with (started l1). by rewrite Hst. }
      split.
      { rewrite !elem_of_app. right. right. left.
        unfold reactor_events. rewrite !elem_of_cons. auto. }
      rewrite !elem_of_app. do 4 right. by left.
Qed.

(** The world [quiet_world] and the Coordinator. *)
Lemma shutdown_only_after_startup_witness :
  ev_shutdown Coordinator ∈ trace (main quiet_world).2 ∧
  Coordinator ≠ RestService ∧
  ∃ t1 t2,
    trace (main quiet_world).2 = t1 ++ ev_shutdown Coordinator :: t2 ∧
    started t1 = declaration_order ∧
    ev_reactor_run ∈ t1 ∧
    ev_log_info "exiting-on-keyboard-interrupt" ∈ t1.
Proof.
  assert (Hin : ev_shutdown Coordinator ∈ trace (main quiet_world).2).
  { apply (list_elem_of_lookup_2 _ 21). vm_compute. reflexivity. }
  split; [ exact Hin | ].
  exact (shutdown_only_after_startup quiet_world Coordinator Hin).
Defined.

(** ** Failing and hanging shutdowns *)

(** X11: when Ctrl-C comes and the Deferred of the Coordinator's
    [shutdown()] fails, the generator of the hook ends at that [yield]: the
    [shutdown()] of the gRPC server is never called, although a handle of it
    may be held; the failure stays in the reactor, which stops, and
    [Main().start()] returns. *)
Theorem coordinator_errback_skips_grpc (w : world) (args : Namespace)
    (cfg lg : yaml_value) (c : handle) (g : option handle) (n d : nat)
    (e : exn) :
  parse_args w = Ok args →
  load_config w args = Ok cfg →
  yaml_get cfg "logging" = Ok lg →
  new_Coordinator w (internal_host_address args) (external_host_address args)
    (rest_port args) (instance_id args) (consul args) = Ok c →
  init_rest_service w (rest_port args) = Ok tt →
  VolthaGrpcServer_run w = Ok g →
  keyboard_interrupt w = Some n →
  handle_shutdown c 0 = Errbacks d e →
  (main w).1 = Done tt ∧
  teardown (trace (main w).2) = [ev_shutdown Coordinator] ∧
  last (trace (main w).2) = Some ev_reactor_stopped.
Proof.
  intros Hp Hl Hy Hc Hr Hg Hint He.
  destruct (main_succeeds_end w args cfg lg c g Hp Hl Hy Hc Hr Hg)
    as (_ & Ho & Hend).
  destruct (main_succeeds_observed w args cfg lg c g Hp Hl Hy Hc Hr Hg)
    as (rest & Ht & _ & _ & _ & _ & Htd).
  rewrite Hint in Ho, Htd. unfold first_outcomes in Ho, Htd.
  rewrite He in Ho, Htd. cbn in Ho, Htd. rewrite Ho in Hend.
  split; [ exact Ho | ]. split; [ | exact Hend ].
  by rewrite Ht, !teardown_app, before_startup_teardown, Htd.
Qed.

(** The world [coordinator_errback_world], in which a handle of the gRPC
    server is held. *)
Lemma coordinator_errback_skips_grpc_witness :
  (∃ h, VolthaGrpcServer_run coordinator_errback_world = Ok (Some h)) ∧
  (main coordinator_errback_world).1 = Done tt ∧
  teardown (trace (main coordinator_errback_world).2) = [ev_shutdown Coordinator] ∧
  last (trace (main coordinator_errback_world).2) = Some ev_reactor_stopped.
Proof.
  split; [ by eexists | ].
  eapply (coordinator_errback_skips_grpc coordinator_errback_world);
    vm_compute; reflexivity.
Defined.

(** X12: a run that came to the reactor never ends exactly when Ctrl-C
    never comes, or a [shutdown()] that the hook awaits never completes:
    that of the Coordinator, or that of the gRPC server after the
    Coordinator's has fired. *)
Theorem run_waits_iff (w : world) (args : Namespace) (cfg lg : yaml_value)
    (c : handle) (g : option handle) :
  parse_args w = Ok args →
  load_config w args = Ok cfg →
  yaml_get cfg "logging" = Ok lg →
  new_Coordinator w (internal_host_address args) (external_host_address args)
    (rest_port args) (instance_id args) (consul args) = Ok c →
  init_rest_service w (rest_port args) = Ok tt →
  VolthaGrpcServer_run w = Ok g →
  (main w).1 = Waiting ↔
  keyboard_interrupt w = None ∨
  handle_shutdown c 0 = NeverFires ∨
  ((∃ d, handle_shutdown c 0 = Fires d) ∧
   ∃ h, g = Some h ∧ handle_shutdown h 0 = NeverFires).
Proof.
  intros Hp Hl Hy Hc Hr Hg.
  destruct (main_succeeds_end w args cfg lg c g Hp Hl Hy Hc Hr Hg)
    as (_ & -> & _).
  destruct (keyboard_interrupt w) as [n|]; [ | by split; auto ].
  unfold first_outcomes.
  destruct (handle_shutdown c 0) as [d|d e|] eqn:Hout; cbn [round_outcome].
  - destruct g as [h|]; cbn [round_outcome].
    + destruct (handle_shutdown h 0) as [d'|d' e'|] eqn:Hout'.
      * split; [ done | ].
        intros [[=] | [[=] | (_ & h' & [= <-] & Hh)]]. congruence.
      * split; [ done | ].
        intros [[=] | [[=] | (_ & h' & [= <-] & Hh)]]. congruence.
      * split; [ | done ]. intros _. right. right. split; eauto.
    + split; [ done | ]. by intros [[=] | [[=] | (_ & h' & [=] & _)]].
  - split; [ done | ]. by intros [[=] | [[=] | ([? [=]] & _)]].
  - split; auto.
Qed.

(** The world [no_interrupt_world], in which every shutdown would fire, and
    the world [grpc_hangs_world]. *)
Lemma run_waits_iff_witness :
  (main no_interrupt_world).1 = Waiting ∧
  (main grpc_hangs_world).1 = Waiting ∧
  (main quiet_world).1 ≠ Waiting.
Proof.
  split; [ | by vm_compute ].
  eapply (run_waits_iff no_interrupt_world); try (vm_compute; reflexivity).
  by left.
Defined.

(** ** More on the path of the configuration file *)

(** The world [quiet_world], with the default [./voltha.yml]. *)
Lemma config_path_dot_relative_witness :
  ∃ args,
    parse_args quiet_world = Ok args ∧
    config_path quiet_world args = "/opt/voltha/voltha/voltha.yml" ∧
    ∀ cwd, config_path (with_getcwd cwd quiet_world) args
           = config_path quiet_world args.
Proof.
  eexists. split; [ vm_compute; reflexivity | ].
  match goal with
  | |- config_path _ ?a = _ ∧ _ =>
      destruct (config_path_dot_relative quiet_world a) as [H1 H2]
  end.
  - vm_compute. reflexivity.
  - vm_compute. reflexivity.
  - split; [ | exact H2 ]. rewrite H1. vm_compute. reflexivity.
Defined.

Lemma abspath_isabs (cwd p : string) :
  os_path.isabs cwd = true → os_path.isabs (os_path.abspath cwd p) = true.
Proof.
  intros Hcwd. unfold os_path.abspath.
  destruct (os_path.isabs p) eqn:Hp; apply normpath_isabs; [ done | ].
  by apply join_isabs.
Qed.

Lemma absolute_not_dot (p : string) :
  os_path.isabs p = true → Str.startswith p "." = false.
Proof.
  intros [r ->]%isabs_inv. unfold Str.startswith. cbn [String.prefix].
  destruct (ascii_dec "."%char "/"%char); [ discriminate | reflexivity ].
Qed.

(** X13: an absolute --config path is opened as it is given, normalised
    only: neither the working directory nor the place of [main.py] enters. *)
Theorem absolute_config_path (w : world) (args : Namespace) :
  os_path.isabs (config args) = true →
  config_path w args = os_path.normpath (config args) ∧
  ∀ cwd, config_path (with_getcwd cwd w) args = config_path w args.
Proof.
  intros Habs.
  assert (H : ∀ w', config_path w' args = os_path.normpath (config args)).
  { intros w'. unfold config_path. rewrite (absolute_not_dot _ Habs).
    unfold os_path.abspath. by rewrite Habs. }
  split; [ apply H | ]. intros cwd. by rewrite !H.
Qed.

(** The world [absolute_config_world]. *)
Lemma absolute_config_path_witness :
  ∃ args,
    parse_args absolute_config_world = Ok args ∧
    config_path absolute_config_world args = "/etc/voltha/voltha.yml" ∧
    ∀ cwd, config_path (with_getcwd cwd absolute_config_world) args
           = config_path absolute_config_world args.
Proof.
  eexists. split; [ vm_compute; reflexivity | ].
  match goal with
  | |- config_path _ ?a = _ ∧ _ =>
      destruct (absolute_config_path absolute_config_world a) as [H1 H2]
  end.
  - vm_compute. reflexivity.
  - split; [ | exact H2 ]. rewrite H1. vm_compute. reflexivity.
Defined.

(** X14: the path that [load_config] opens is absolute, whatever --config
    is, since the working directory is. *)
Theorem config_path_is_absolute (w : world) (args : Namespace) :
  os_path.isabs (getcwd w) = true →
  os_path.isabs (config_path w args) = true.
Proof.
  intros Hcwd. unfold config_path. by apply abspath_isabs.
Qed.

(** The world [plain_relative_world "/tmp"], with --config voltha.yml. *)
Lemma config_path_is_absolute_witness :
  ∃ args,
    parse_args (plain_relative_world "/tmp") = Ok args ∧
    os_path.isabs (config_path (plain_relative_world "/tmp") args) = true.
Proof.
  eexists. split; [ vm_compute; reflexivity | ].
  apply (config_path_is_absolute (plain_relative_world "/tmp")).
  vm_compute. reflexivity.
Defined.

(** ** [int] on the decimal form of an integer *)

Lemma digit_char (d : N) :
  (d < 10)%N →
  builtins.is_digit (pretty_N_char d) = true ∧
  Z.of_nat (Ascii.nat_of_ascii (pretty_N_char d) - 48) = Z.of_N d ∧
  Str.is_space (pretty_N_char d) = false ∧
  pretty_N_char d ≠ "-"%char ∧ pretty_N_char d ≠ "+"%char.
Proof.
  intros Hd.
  assert (d = 0 ∨ d = 1 ∨ d = 2 ∨ d = 3 ∨ d = 4 ∨ d = 5 ∨ d = 6 ∨ d = 7
          ∨ d = 8 ∨ d = 9)%N as Hcases by lia.
  repeat (destruct Hcases as [-> | Hcases]; [ by vm_compute | ]).
  subst d. by vm_compute.
Qed.

Lemma digits_value_pretty_N_go (x : N) (s : string) :
  builtins.digits_value (pretty_N_go x s) 0
  = builtins.digits_value s (Z.of_N x).
Proof.
  revert s. induction (N.lt_wf_0 x) as [x _ IH]; intros s.
  assert (x = 0 ∨ 0 < x)%N as [-> | Hx] by lia.
  { by rewrite pretty_N_go_0. }
  rewrite pretty_N_go_step by done.
  rewrite IH by (by apply N.div_lt).
  destruct (digit_char (x `mod` 10)) as (Hd & Hv & _).
  { by apply N.mod_lt. }
  cbn [builtins.digits_value]. rewrite Hd, Hv. f_equal.
  rewrite (N.div_mod x 10) at 3 by done. lia.
Qed.

Lemma rstrip_pretty_N_go (x : N) (s : string) :
  Str.rstrip s = s → Str.rstrip (pretty_N_go x s) = pretty_N_go x s.
Proof.
  revert s. induction (N.lt_wf_0 x) as [x _ IH]; intros s Hs.
  assert (x = 0 ∨ 0 < x)%N as [-> | Hx] by lia.
  { by rewrite pretty_N_go_0. }
  rewrite pretty_N_go_step by done. apply IH; [ by apply N.div_lt | ].
  destruct (digit_char (x `mod` 10)) as (_ & _ & Hsp & _).
  { by apply N.mod_lt. }
  cbn [Str.rstrip]. rewrite Hs, Hsp. by destruct s.
Qed.

Lemma pretty_N_go_head (x : N) (s : string) :
  (0 < x)%N ∨ (∃ d r, (d < 10)%N ∧ s = String (pretty_N_char d) r) →
  ∃ d r, (d < 10)%N ∧ pretty_N_go x s = String (pretty_N_char d) r.
Proof.
  revert s. induction (N.lt_wf_0 x) as [x _ IH]; intros s Hs.
  assert (x = 0 ∨ 0 < x)%N as [-> | Hx] by lia.
  { rewrite pretty_N_go_0. destruct Hs as [? | ?]; [ lia | done ]. }
  rewrite pretty_N_go_step by done. apply IH; [ by apply N.div_lt | ].
  right. exists (x `mod` 10)%N, s. split; [ by apply N.mod_lt | done ].
Qed.

(** [int] reads the decimal digits of a positive number back. *)
Lemma int_pretty_positive (p : positive) :
  Str.strip (pretty_N_go (Npos p) "") = pretty_N_go (Npos p) "" ∧
  (∃ d r, (d < 10)%N ∧ pretty_N_go (Npos p) "" = String (pretty_N_char d) r) ∧
  builtins.digits_value (pretty_N_go (Npos p) "") 0 = Some (Zpos p).
Proof.
  destruct (pretty_N_go_head (Npos p) "") as (d & r & Hd & Hr); [ left; lia | ].
  split; [ | split; [ eauto | by rewrite digits_value_pretty_N_go ] ].
  unfold Str.strip.
  assert (Str.lstrip (pretty_N_go (N.pos p) "") = pretty_N_go (N.pos p) "") as ->.
  { rewrite Hr. cbn [Str.lstrip].
    by destruct (digit_char d Hd) as (_ & _ & -> & _). }
  by apply rstrip_pretty_N_go.
Qed.

Lemma int_pretty (z : Z) : builtins.int (pretty z) = Ok z.
Proof.
  destruct z as [|p|p]; [ by vm_compute | | ].
  - change (pretty (Z.pos p)) with (pretty_N_go (Npos p) "").
    destruct (int_pretty_positive p) as (Hstrip & (d & r & Hd & Hr) & Hv).
    unfold builtins.int. rewrite Hstrip. rewrite Hr in Hv |- *.
    destruct (digit_char d Hd) as (_ & _ & _ & Hminus & Hplus).
    destruct (pretty_N_char d) as [[] [] [] [] [] [] [] []];
      try congruence; by rewrite Hv.
  - change (pretty (Z.neg p)) with (String "-" (pretty_N_go (Npos p) "")).
    destruct (int_pretty_positive p) as (Hstrip & (d & r & Hd & Hr) & Hv).
    unfold builtins.int.
    assert (Str.strip (String "-" (pretty_N_go (N.pos p) ""))
            = String "-" (pretty_N_go (N.pos p) "")) as ->.
    { unfold Str.strip in *. cbn [Str.lstrip].
      change (Str.is_space "-") with false. cbn match.
      cbn [Str.rstrip].
      assert (Str.rstrip (pretty_N_go (N.pos p) "") = pretty_N_go (N.pos p) "")
        as -> by (by apply rstrip_pretty_N_go).
      by rewrite Hr. }
    cbn match. rewrite Hr in Hv |- *. by rewrite Hv.
Qed.

(** X15: --rest-port takes the decimal form of every integer, negative or
    larger than 65535 as well, and resolves to that integer: the port is
    converted but its range is not checked. *)
Theorem rest_port_decimal (w : world) (ns : Namespace) (z : Z) :
  parse_args w = Ok ns →
  cli_last given_rest_port (argv w) = Some (pretty z) →
  rest_port ns = PyInt z.
Proof.
  intros H Hlast. apply parse_args_inv in H as (_ & ns0 & Hns0 & Hpost).
  assert (rest_port ns = rest_port ns0) as ->.
  { destruct (instance_id_is_container_name ns0); [ | by subst ].
    destruct Hpost as (name & _ & ->). by destruct ns0. }
  apply argparse_fields in Hns0 as (_ & _ & _ & _ & _ & _ & _ & (z' & Hz' & Hint) & _).
  rewrite Hlast, int_pretty in Hint. congruence.
Qed.

(** The world [negative_port_world]. *)
Lemma rest_port_decimal_witness :
  ∃ ns, parse_args negative_port_world = Ok ns ∧ rest_port ns = PyInt (-5).
Proof.
  eexists. split; [ vm_compute; reflexivity | ].
  apply (rest_port_decimal negative_port_world _ (-5)%Z); vm_compute; reflexivity.
Defined.

(** ** [normpath] on absolute paths *)

Lemma startswith_same (c : ascii) (s p : string) :
  Str.startswith (String c s) (String c p) = Str.startswith s p.
Proof.
  unfold Str.startswith. cbn [String.prefix].
  destruct (ascii_dec c c); [ done | congruence ].
Qed.

Lemma startswith_diff (c d : ascii) (s p : string) :
  c ≠ d → Str.startswith (String c s) (String d p) = false.
Proof.
  intros Hne. unfold Str.startswith. cbn [String.prefix].
  destruct (ascii_dec d c); [ congruence | done ].
Qed.

Lemma startswith_empty (s : string) : Str.startswith s "" = true.
Proof. by destruct s. Qed.

Lemma split_slash_no_slash (p : string) :
  has_slash p = false → Str.split_slash p = [p].
Proof.
  induction p as [|c r IH]; [ done | ]. cbn.
  destruct (Ascii.eqb c "/"); [ discriminate | ]. cbn.
  intros Hr. by rewrite (IH Hr).
Qed.

Lemma split_slash_app (p t : string) :
  has_slash p = false →
  Str.split_slash (p +:+ String "/" t) = p :: Str.split_slash t.
Proof.
  induction p as [|c r IH]; [ done | ].
  change (String c r +:+ String "/" t) with (String c (r +:+ String "/" t)).
  cbn [Str.split_slash has_slash].
  destruct (Ascii.eqb c "/"); [ discriminate | ]. cbn [orb].
  intros Hr. by rewrite (IH Hr).
Qed.

Lemma split_slash_pieces (s : string) :
  Forall (fun c => has_slash c = false) (Str.split_slash s).
Proof.
  induction s as [|c r IH]; [ by repeat constructor | ]. cbn.
  destruct (Ascii.eqb c "/") eqn:Hc; [ by constructor | ].
  destruct (Str.split_slash r) as [|piece pieces]; [ constructor; [ | done ] | ].
  - cbn. by rewrite Hc.
  - inversion IH as [|? ? Hp Hps]; subst.
    constructor; [ | done ]. cbn. by rewrite Hc.
Qed.

Lemma split_join (pieces : list string) :
  pieces ≠ [] →
  Forall (fun c => has_slash c = false) pieces →
  Str.split_slash (Str.join_slash pieces) = pieces.
Proof.
  induction pieces as [|p rest IH]; [ done | ]. intros _ Hall.
  inversion Hall as [|? ? Hp Hrest]; subst.
  destruct rest as [|q rest].
  - cbn. by apply split_slash_no_slash.
  - change (Str.join_slash (p :: q :: rest))
      with (p +:+ String "/" (Str.join_slash (q :: rest))).
    rewrite split_slash_app by done. f_equal. by apply IH.
Qed.

Lemma is_clean_inv (c : string) :
  is_clean c = true →
  String.eqb c "" = false ∧ String.eqb c "." = false ∧
  String.eqb c ".." = false ∧ has_slash c = false.
Proof.
  unfold is_clean. rewrite !andb_true_iff, !negb_true_iff. tauto.
Qed.

Lemma clean_no_slash (pieces : list string) :
  Forall (fun c => is_clean c = true) pieces →
  Forall (fun c => has_slash c = false) pieces.
Proof.
  intros H. eapply Forall_impl; [ exact H | ].
  intros c Hc. by apply is_clean_inv in Hc as (_ & _ & _ & ?).
Qed.

(** From an absolute path [normpath] keeps clean components only. *)
Lemma normpath_loop_clean (m : nat) (comps acc : list string) :
  Forall (fun c => has_slash c = false) comps →
  Forall (fun c => is_clean c = true) acc →
  Forall (fun c => is_clean c = true) (os_path.normpath_loop (S m) comps acc).
Proof.
  revert acc. induction comps as [|comp comps IH]; intros acc Hcomps Hacc;
    [ done | ].
  inversion Hcomps as [|? ? Hcomp Hrest]; subst.
  cbn [os_path.normpath_loop].
  destruct (String.eqb comp "" || String.eqb comp ".") eqn:Hskip;
    [ by apply IH | ].
  apply orb_false_iff in Hskip as [He Hd].
  destruct (String.eqb comp "..") eqn:Hdd; cbn [negb orb Nat.eqb andb].
  - destruct acc as [|a acc _] using rev_ind.
    + cbn. by apply IH.
    + rewrite length_app, Nat.add_1_r. cbn [Nat.eqb negb andb].
      rewrite List.last_last.
      apply Forall_app in Hacc as [Hacc Ha].
      inversion Ha as [|? ? Hclean _]; subst.
      apply is_clean_inv in Hclean as (_ & _ & -> & _).
      rewrite List.removelast_last. by apply IH.
  - apply IH; [ done | ]. apply Forall_app. split; [ done | ].
    constructor; [ | done ]. unfold is_clean. by rewrite He, Hd, Hdd, Hcomp.
Qed.

Lemma normpath_loop_append (m : nat) (pieces acc : list string) :
  Forall (fun c => is_clean c = true) pieces →
  os_path.normpath_loop (S m) pieces acc = acc ++ pieces.
Proof.
  revert acc. induction pieces as [|p rest IH]; intros acc Hall.
  - by rewrite app_nil_r.
  - inversion Hall as [|? ? Hp Hrest]; subst.
    apply is_clean_inv in Hp as (He & Hd & Hdd & _).
    cbn [os_path.normpath_loop]. rewrite He, Hd, Hdd. cbn [orb negb].
    rewrite (IH _ Hrest). by rewrite <- app_assoc.
Qed.

Lemma join_slash_head (pieces : list string) :
  Forall (fun c => is_clean c = true) pieces →
  Str.startswith (Str.join_slash pieces) "/" = false.
Proof.
  destruct 1 as [|p rest Hp _]; [ done | ].
  apply is_clean_inv in Hp as (He & _ & _ & Hs).
  destruct p as [|c p]; [ discriminate He | ]. cbn in Hs.
  destruct (Ascii.eqb c "/") eqn:Hc; [ discriminate | ].
  apply Ascii.eqb_neq in Hc.
  destruct rest; cbn; by apply startswith_diff.
Qed.

(** What [normpath] makes of an absolute path: one or two slashes, then
    clean components joined by slashes. *)
Lemma normpath_absolute_form (p : string) :
  os_path.isabs p = true →
  ∃ pieces,
    Forall (fun c => is_clean c = true) pieces ∧
    (os_path.normpath p = String "/" (Str.join_slash pieces) ∨
     os_path.normpath p = String "/" (String "/" (Str.join_slash pieces))).
Proof.
  intros [r ->]%isabs_inv. unfold os_path.normpath.
  change (String.eqb (String "/" r) "") with false. cbn match.
  fold (os_path.isabs (String "/" r)). rewrite isabs_slash.
  destruct (Str.startswith (String "/" r) "//"
            && negb (Str.startswith (String "/" r) "///")).
  - eexists. split.
    + apply (normpath_loop_clean 1); [ apply split_slash_pieces | constructor ].
    + right. reflexivity.
  - eexists. split.
    + apply (normpath_loop_clean 0); [ apply split_slash_pieces | constructor ].
    + left. reflexivity.
Qed.

Lemma normpath_loop_of_join (m : nat) (pieces : list string) :
  Forall (fun c => is_clean c = true) pieces →
  os_path.normpath_loop (S m) (Str.split_slash (Str.join_slash pieces)) []
  = pieces.
Proof.
  intros Hclean. destruct pieces as [|p rest]; [ done | ].
  rewrite split_join by (done || by apply clean_no_slash).
  by rewrite normpath_loop_append.
Qed.

(** Such a path is left as it is by [normpath]. *)
Lemma normpath_clean_form (pieces : list string) :
  Forall (fun c => is_clean c = true) pieces →
  os_path.normpath (String "/" (Str.join_slash pieces))
  = String "/" (Str.join_slash pieces) ∧
  os_path.normpath (String "/" (String "/" (Str.join_slash pieces)))
  = String "/" (String "/" (Str.join_slash pieces)).
Proof.
  intros Hclean.
  pose proof (join_slash_head _ Hclean) as Hhead.
  split.
  - unfold os_path.normpath.
    change (String.eqb (String "/" (Str.join_slash pieces)) "") with false.
    cbn match.
    fold (os_path.isabs (String "/" (Str.join_slash pieces))).
    rewrite isabs_slash.
    rewrite (startswith_same "/" (Str.join_slash pieces) "/"), Hhead.
    cbn [andb].
    change (Str.split_slash (String "/" (Str.join_slash pieces)))
      with ("" :: Str.split_slash (Str.join_slash pieces)).
    change (os_path.normpath_loop 1 ("" :: ?l) []) with (os_path.normpath_loop 1 l []).
    by rewrite normpath_loop_of_join.
  - unfold os_path.normpath.
    change (String.eqb (String "/" (String "/" (Str.join_slash pieces))) "")
      with false.
    cbn match.
    fold (os_path.isabs (String "/" (String "/" (Str.join_slash pieces)))).
    rewrite isabs_slash.
    rewrite (startswith_same "/" (String "/" (Str.join_slash pieces)) "/"),
      (startswith_same "/" (Str.join_slash pieces) ""), startswith_empty.
    rewrite (startswith_same "/" (String "/" (Str.join_slash pieces)) "//"),
      (startswith_same "/" (Str.join_slash pieces) "/"), Hhead.
    cbn [andb negb].
    change (Str.split_slash (String "/" (String "/" (Str.join_slash pieces))))
      with ("" :: "" :: Str.split_slash (Str.join_slash pieces)).
    change (os_path.normpath_loop 2 ("" :: "" :: ?l) [])
      with (os_path.normpath_loop 2 l []).
    by rewrite normpath_loop_of_join.
Qed.

Lemma normpath_idempotent (p : string) :
  os_path.isabs p = true →
  os_path.normpath (os_path.normpath p) = os_path.normpath p.
Proof.
  intros Hp.
  destruct (normpath_absolute_form p Hp) as (pieces & Hclean & [-> | ->]);
    by apply normpath_clean_form.
Qed.

(** X16: resolving the resolved path again gives the same path: when the
    path that [load_config] opens is itself given as --config, the same file
    is opened. *)
Theorem config_path_fixed_point (w : world) (args : Namespace) :
  os_path.isabs (getcwd w) = true →
  config_path w (set_config (config_path w args) args) = config_path w args.
Proof.
  intros Hcwd.
  assert (Hq : ∃ q, os_path.isabs q = true ∧ config_path w args = os_path.normpath q).
  { unfold config_path, os_path.abspath.
    destruct (Str.startswith (config args) ".").
    - destruct (os_path.isabs (os_path.join _ (config args))) eqn:Hj; eauto.
      eexists. split; [ | reflexivity ]. by apply join_isabs.
    - destruct (os_path.isabs (config args)) eqn:Hj; eauto.
      eexists. split; [ | reflexivity ]. by apply join_isabs. }
  destruct Hq as (q & Hq & Hpath).
  assert (Habs : os_path.isabs (config_path w args) = true).
  { rewrite Hpath. by apply normpath_isabs. }
  unfold config_path at 1.
  assert (config (set_config (config_path w args) args) = config_path w args)
    as -> by (by destruct args).
  rewrite (absolute_not_dot _ Habs). unfold os_path.abspath at 1.
  rewrite Habs, Hpath. by apply normpath_idempotent.
Qed.

(** The world [quiet_world]. *)
Lemma config_path_fixed_point_witness :
  ∃ args,
    parse_args quiet_world = Ok args ∧
    config_path quiet_world (set_config (config_path quiet_world args) args)
    = config_path quiet_world args.
Proof.
  eexists. split; [ vm_compute; reflexivity | ].
  apply (config_path_fixed_point quiet_world). vm_compute. reflexivity.
Defined.

(** ** The default configuration file *)

Lemma append_cons (c : ascii) (s t : string) :
  String c s +:+ t = String c (s +:+ t).
Proof. reflexivity. Qed.

Lemma append_nil_l (t : string) : "" +:+ t = t.
Proof. reflexivity. Qed.

Lemma append_assoc (x y z : string) : (x +:+ y) +:+ z = x +:+ (y +:+ z).
Proof.
  induction x as [|c x IH]; [ done | ]. rewrite !append_cons. by rewrite IH.
Qed.

Lemma normpath_rooted (d : bool) (X : string) :
  Str.startswith X "/" = false →
  os_path.normpath (rooted d X)
  = rooted d (Str.join_slash
                (os_path.normpath_loop (if d then 2 else 1)
                   (Str.split_slash X) [])).
Proof.
  intros Hhead. destruct d; unfold rooted, os_path.normpath.
  - change (String.eqb (String "/" (String "/" X)) "") with false. cbn match.
    fold (os_path.isabs (String "/" (String "/" X))). rewrite isabs_slash.
    rewrite (startswith_same "/" (String "/" X) "/"),
      (startswith_same "/" X ""), startswith_empty.
    rewrite (startswith_same "/" (String "/" X) "//"),
      (startswith_same "/" X "/"), Hhead.
    cbn [andb negb].
    change (Str.split_slash (String "/" (String "/" X)))
      with ("" :: "" :: Str.split_slash X).
    change (os_path.normpath_loop 2 ("" :: "" :: ?l) [])
      with (os_path.normpath_loop 2 l []).
    reflexivity.
  - change (String.eqb (String "/" X) "") with false. cbn match.
    fold (os_path.isabs (String "/" X)). rewrite isabs_slash.
    rewrite (startswith_same "/" X "/"), Hhead. cbn [andb].
    change (Str.split_slash (String "/" X)) with ("" :: Str.split_slash X).
    change (os_path.normpath_loop 1 ("" :: ?l) [])
      with (os_path.normpath_loop 1 l []).
    reflexivity.
Qed.

Lemma normpath_rooted_form (p : string) :
  os_path.isabs p = true →
  ∃ d pieces,
    Forall (fun c => is_clean c = true) pieces ∧
    os_path.normpath p = rooted d (Str.join_slash pieces).
Proof.
  intros Hp. destruct (normpath_absolute_form p Hp) as (pieces & Hclean & [H | H]).
  - by exists false, pieces.
  - by exists true, pieces.
Qed.

Lemma upto_last_slash_no_slash (a : string) :
  has_slash a = false → Str.upto_last_slash a = "".
Proof.
  induction a as [|c r IH]; [ done | ]. cbn [has_slash Str.upto_last_slash].
  destruct (Ascii.eqb c "/"); [ discriminate | ]. cbn [orb].
  intros Hr. by rewrite (IH Hr).
Qed.

Lemma upto_last_slash_app (s a : string) :
  has_slash a = false →
  Str.upto_last_slash (s +:+ String "/" a) = s +:+ "/".
Proof.
  intros Ha. induction s as [|c s IH].
  - rewrite !append_nil_l. cbn [Str.upto_last_slash].
    by rewrite (upto_last_slash_no_slash a Ha).
  - rewrite !append_cons. cbn [Str.upto_last_slash]. rewrite IH.
    by destruct s.
Qed.

Lemma rstrip_slash_no_slash (a : string) :
  has_slash a = false → Str.rstrip_slash a = a.
Proof.
  induction a as [|c r IH]; [ done | ]. cbn [has_slash Str.rstrip_slash].
  destruct (Ascii.eqb c "/"); [ discriminate | ]. cbn [orb].
  intros Hr. rewrite (IH Hr). by destruct r.
Qed.

Lemma rstrip_slash_app (t a : string) :
  Str.rstrip_slash a = a → a ≠ "" → Str.rstrip_slash (t +:+ a) = t +:+ a.
Proof.
  intros Ha Hne. induction t as [|c t IH]; [ done | ].
  rewrite append_cons. cbn [Str.rstrip_slash]. rewrite IH.
  destruct t; [ | done ]. rewrite append_nil_l. by destruct a.
Qed.

Lemma rstrip_slash_snoc (u : string) :
  Str.rstrip_slash (u +:+ "/") = Str.rstrip_slash u.
Proof.
  induction u as [|c u IH]; [ done | ].
  rewrite append_cons. cbn [Str.rstrip_slash]. by rewrite IH.
Qed.

Lemma join_slash_snoc (pieces : list string) (a : string) :
  pieces ≠ [] →
  Str.join_slash (pieces ++ [a]) = Str.join_slash pieces +:+ String "/" a.
Proof.
  induction pieces as [|p rest IH]; [ done | ]. intros _.
  destruct rest as [|q rest]; [ done | ].
  change (Str.join_slash ((p :: q :: rest) ++ [a]))
    with (p +:+ String "/" (Str.join_slash ((q :: rest) ++ [a]))).
  rewrite IH by done.
  change (Str.join_slash (p :: q :: rest))
    with (p +:+ String "/" (Str.join_slash (q :: rest))).
  by rewrite append_assoc, append_cons.
Qed.

Lemma is_clean_nonempty (c : string) : is_clean c = true → c ≠ "".
Proof. intros (He & _)%is_clean_inv ->. discriminate He. Qed.

Lemma join_slash_cons_head (p : string) (rest : list string) :
  is_clean p = true →
  ∃ c J, Ascii.eqb c "/" = false ∧ Str.join_slash (p :: rest) = String c J.
Proof.
  intros (He & _ & _ & Hs)%is_clean_inv.
  destruct p as [|c p]; [ discriminate He | ]. cbn in Hs.
  destruct (Ascii.eqb c "/") eqn:Hc; [ discriminate | ].
  exists c. destruct rest; eexists; (split; [ done | ]); reflexivity.
Qed.

Lemma join_slash_rstrip (pieces : list string) :
  pieces ≠ [] →
  Forall (fun c => is_clean c = true) pieces →
  Str.rstrip_slash (Str.join_slash pieces) = Str.join_slash pieces ∧
  Str.join_slash pieces ≠ "" ∧
  Str.endswith_slash (Str.join_slash pieces) = false.
Proof.
  destruct pieces as [|b front _] using rev_ind; [ done | ].
  intros _ [Hfront Hb]%Forall_app. inversion Hb as [|? ? Hclean _]; subst.
  pose proof (is_clean_nonempty _ Hclean) as Hne.
  apply is_clean_inv in Hclean as (_ & _ & _ & Hs).
  assert (Hend : ∀ a, has_slash a = false → a ≠ "" → Str.endswith_slash a = false).
  { clear. induction a as [|c a IH]; [ done | ]. cbn [has_slash].
    destruct (Ascii.eqb c "/") eqn:Hc; [ discriminate | ]. cbn [orb].
    intros Ha _. destruct a as [|c' a]; [ cbn; by rewrite Hc | ].
    change (Str.endswith_slash (String c (String c' a)))
      with (Str.endswith_slash (String c' a)). by apply IH. }
  destruct front as [|p front].
  - cbn. split; [ by apply rstrip_slash_no_slash | ]. split; [ done | ].
    by apply Hend.
  - rewrite join_slash_snoc by done.
    assert (Hr : Str.rstrip_slash (String "/" b) = String "/" b).
    { cbn [Str.rstrip_slash]. rewrite (rstrip_slash_no_slash b Hs).
      by destruct b. }
    split; [ by apply rstrip_slash_app | ].
    split; [ by destruct (Str.join_slash (p :: front)) | ].
    generalize (Str.join_slash (p :: front)). intros t.
    induction t as [|c t IH].
    + rewrite append_nil_l.
      destruct b as [|c' b]; [ done | ].
      change (Str.endswith_slash (String "/" (String c' b)))
        with (Str.endswith_slash (String c' b)). by apply Hend.
    + rewrite append_cons.
      destruct (t +:+ String "/" b) as [|c' t'] eqn:Ht; [ by destruct t | ].
      change (Str.endswith_slash (String c (String c' t')))
        with (Str.endswith_slash (String c' t')). exact IH.
Qed.

Lemma upto_last_slash_cons (c : ascii) (s : string) :
  Str.upto_last_slash s ≠ "" →
  Str.upto_last_slash (String c s) = String c (Str.upto_last_slash s).
Proof. cbn [Str.upto_last_slash]. by destruct (Str.upto_last_slash s). Qed.

Lemma rstrip_slash_cons (c : ascii) (s : string) :
  Str.rstrip_slash s ≠ "" →
  Str.rstrip_slash (String c s) = String c (Str.rstrip_slash s).
Proof. cbn [Str.rstrip_slash]. by destruct (Str.rstrip_slash s). Qed.

Lemma upto_last_slash_rooted (d : bool) (s : string) :
  Str.upto_last_slash s ≠ "" →
  Str.upto_last_slash (rooted d s) = rooted d (Str.upto_last_slash s).
Proof.
  intros Hs.
  assert (H1 : Str.upto_last_slash (String "/" s)
               = String "/" (Str.upto_last_slash s))
    by (by apply upto_last_slash_cons).
  destruct d; unfold rooted; [ | exact H1 ].
  rewrite upto_last_slash_cons; rewrite H1; done.
Qed.

Lemma rstrip_slash_rooted (d : bool) (s : string) :
  Str.rstrip_slash s ≠ "" →
  Str.rstrip_slash (rooted d s) = rooted d (Str.rstrip_slash s).
Proof.
  intros Hs.
  assert (H1 : Str.rstrip_slash (String "/" s)
               = String "/" (Str.rstrip_slash s))
    by (by apply rstrip_slash_cons).
  destruct d; unfold rooted; [ | exact H1 ].
  rewrite rstrip_slash_cons; rewrite H1; done.
Qed.

(** The directory of a normalised absolute path: the path without its last
    component. *)
Lemma dirname_rooted (d : bool) (pieces : list string) :
  Forall (fun c => is_clean c = true) pieces →
  os_path.dirname (rooted d (Str.join_slash pieces))
  = rooted d (Str.join_slash (removelast pieces)).
Proof.
  destruct pieces as [|a front _] using rev_ind.
  { intros _. by destruct d. }
  intros [Hfront Ha]%Forall_app. inversion Ha as [|? ? Hclean _]; subst.
  rewrite List.removelast_last.
  apply is_clean_inv in Hclean as (_ & _ & _ & Hs).
  destruct front as [|p front].
  - unfold os_path.dirname. cbn [app Str.join_slash].
    assert (Str.upto_last_slash (rooted d a) = rooted d "") as ->.
    { destruct d; unfold rooted; cbn [Str.upto_last_slash];
        by rewrite (upto_last_slash_no_slash a Hs). }
    by destruct d.
  - rewrite join_slash_snoc by done.
    inversion Hfront as [|? ? Hp _]; subst.
    destruct (join_slash_rstrip (p :: front)) as (Hr & Hne & _); [ done.. | ].
    destruct (join_slash_cons_head p front Hp) as (c & J & Hc & HJ).
    set (Y := Str.join_slash (p :: front)) in *.
    pose proof (upto_last_slash_app Y a Hs) as Hu.
    assert (Hy : Y +:+ "/" ≠ "") by (by destruct Y).
    unfold os_path.dirname.
    rewrite upto_last_slash_rooted by (by rewrite Hu). rewrite Hu.
    assert (Hall : Str.all_slashes (rooted d (Y +:+ "/")) = false).
    { rewrite HJ, append_cons.
      destruct d; unfold rooted; cbn [Str.all_slashes]; rewrite Hc;
        by rewrite ?andb_false_r. }
    assert (Hnz : String.eqb (rooted d (Y +:+ "/")) "" = false) by (by destruct d).
    rewrite Hall, Hnz. cbn [negb andb].
    assert (Hrs : Str.rstrip_slash (Y +:+ "/") = Y)
      by (by rewrite rstrip_slash_snoc).
    rewrite rstrip_slash_rooted by (by rewrite Hrs). by rewrite Hrs.
Qed.

Lemma rooted_append (d : bool) (s t : string) :
  rooted d s +:+ t = rooted d (s +:+ t).
Proof. destruct d; unfold rooted; by rewrite !append_cons. Qed.

Lemma split_join_app (pieces : list string) (t : string) :
  pieces ≠ [] →
  Forall (fun c => has_slash c = false) pieces →
  Str.split_slash (Str.join_slash pieces +:+ String "/" t)
  = pieces ++ Str.split_slash t.
Proof.
  induction pieces as [|p rest IH]; [ done | ]. intros _ Hall.
  inversion Hall as [|? ? Hp Hrest]; subst.
  destruct rest as [|q rest].
  - cbn [Str.join_slash app]. by apply split_slash_app.
  - change (Str.join_slash (p :: q :: rest))
      with (p +:+ String "/" (Str.join_slash (q :: rest))).
    rewrite append_assoc, append_cons, split_slash_app by done.
    cbn [app]. f_equal. by apply IH.
Qed.

Lemma normpath_loop_app (m : nat) (pieces rest acc : list string) :
  Forall (fun c => is_clean c = true) pieces →
  os_path.normpath_loop (S m) (pieces ++ rest) acc
  = os_path.normpath_loop (S m) rest (acc ++ pieces).
Proof.
  revert acc. induction pieces as [|p pieces IH]; intros acc Hall.
  - by rewrite app_nil_r.
  - inversion Hall as [|? ? Hp Hrest]; subst.
    apply is_clean_inv in Hp as (He & Hd & Hdd & _).
    cbn [app os_path.normpath_loop]. rewrite He, Hd, Hdd. cbn [orb negb].
    rewrite (IH _ Hrest). by rewrite <- app_assoc.
Qed.

(** A file name written with a leading dot and slash, joined to a normalised
    absolute directory: [normpath] removes the dot and nothing else. *)
Lemma normpath_join_dot (d : bool) (pieces : list string) (n : string) :
  Forall (fun c => is_clean c = true) pieces →
  is_clean n = true →
  os_path.normpath
    (os_path.join (rooted d (Str.join_slash pieces)) (String "." (String "/" n)))
  = os_path.join (rooted d (Str.join_slash pieces)) n.
Proof.
  intros Hclean Hn.
  pose proof (is_clean_inv n Hn) as (He & Hd & Hdd & Hs).
  assert (Hn1 : Forall (fun c => is_clean c = true) [n]) by (by constructor).
  pose proof (join_slash_head [n] Hn1) as Hhead. cbn [Str.join_slash] in Hhead.
  assert (Hdot : ∀ s, Str.startswith (String "." s) "/" = false)
    by (intros s; by apply startswith_diff).
  assert (Hsplit : Str.split_slash (String "." (String "/" n)) = ["."; n]).
  { cbn [Str.split_slash].
    change (Ascii.eqb "." "/") with false. change (Ascii.eqb "/" "/") with true.
    cbn match. by rewrite (split_slash_no_slash n Hs). }
  assert (Hloop : ∀ m acc,
    os_path.normpath_loop (S m) ["."; n] acc = acc ++ [n]).
  { intros m acc. cbn [os_path.normpath_loop].
    change (String.eqb "." "" || String.eqb "." ".") with true. cbn match.
    by rewrite He, Hd, Hdd. }
  assert (Hnz : String.eqb (rooted d (Str.join_slash pieces)) "" = false)
    by (by destruct d).
  unfold os_path.join. rewrite Hdot, Hhead, Hnz. cbn [orb].
  destruct pieces as [|p rest].
  - assert (Str.endswith_slash (rooted d (Str.join_slash [])) = true) as ->
      by (by destruct d).
    rewrite !rooted_append. cbn [Str.join_slash]. rewrite !append_nil_l.
    rewrite normpath_rooted by apply Hdot.
    rewrite Hsplit.
    assert (os_path.normpath_loop (if d then 2%nat else 1%nat) ["."; n] []
            = [n]) as -> by (destruct d; apply Hloop).
    reflexivity.
  - destruct (join_slash_rstrip (p :: rest)) as (_ & _ & Hend); [ done.. | ].
    inversion Hclean as [|? ? Hp _]; subst.
    destruct (join_slash_cons_head p rest Hp) as (c & J & Hc & HJ).
    set (Y := Str.join_slash (p :: rest)) in *.
    assert (Str.endswith_slash (rooted d Y) = false) as ->.
    { rewrite HJ in Hend |- *. destruct d; unfold rooted; exact Hend. }
    rewrite !rooted_append.
    change ("/" +:+ String "." (String "/" n))
      with (String "/" (String "." (String "/" n))).
    change ("/" +:+ n) with (String "/" n).
    rewrite normpath_rooted.
    2: { rewrite HJ, append_cons. apply startswith_diff.
         by apply Ascii.eqb_neq. }
    subst Y. rewrite split_join_app by (done || by apply clean_no_slash).
    rewrite Hsplit.
    assert (os_path.normpath_loop (if d then 2%nat else 1%nat)
              ((p :: rest) ++ ["."; n]) [] = (p :: rest) ++ [n]) as ->.
    { destruct d; by rewrite normpath_loop_app, Hloop. }
    by rewrite join_slash_snoc.
Qed.

Lemma removelast_clean (pieces : list string) :
  Forall (fun c => is_clean c = true) pieces →
  Forall (fun c => is_clean c = true) (removelast pieces).
Proof.
  destruct pieces as [|a front _] using rev_ind; [ done | ].
  intros [Hfront _]%Forall_app. by rewrite List.removelast_last.
Qed.

(** A configuration path of the form [./name] is the file [name] in the
    directory of [main.py]. *)
Lemma config_path_dot_slash (w : world) (args : Namespace) (n : string) :
  os_path.isabs (module_file w) = true →
  config args = String "." (String "/" n) →
  is_clean n = true →
  config_path w args
  = os_path.join (os_path.dirname (os_path.normpath (module_file w))) n.
Proof.
  intros Hfile Hconfig Hn. unfold config_path. rewrite Hconfig.
  assert (Str.startswith (String "." (String "/" n)) "." = true) as ->.
  { by rewrite (startswith_same "." (String "/" n) ""), startswith_empty. }
  unfold os_path.abspath at 2. rewrite Hfile.
  destruct (normpath_rooted_form (module_file w) Hfile)
    as (d & pieces & Hclean & ->).
  rewrite dirname_rooted by done.
  pose proof (removelast_clean pieces Hclean) as Hdir.
  unfold os_path.abspath.
  assert (os_path.isabs (os_path.join (rooted d (Str.join_slash (removelast pieces)))
                           (String "." (String "/" n))) = true) as ->.
  { apply join_isabs. destruct d; apply isabs_slash. }
  by apply normpath_join_dot.
Qed.

(** X17: with no [--config] option and no [CONFIG] variable, the file opened
    is [voltha.yml] in the directory of [main.py], when [__file__] is
    absolute. *)
Theorem default_config_beside_main (w : world) (args : Namespace) :
  parse_args w = Ok args →
  environ w !! "CONFIG" = None →
  cli_last given_config (argv w) = None →
  os_path.isabs (module_file w) = true →
  config_path w args
  = os_path.join (os_path.dirname (os_path.normpath (module_file w)))
      "voltha.yml".
Proof.
  intros Hargs Henv Hcli Hfile.
  apply parse_args_inv in Hargs as (_ & ns0 & Hns0 & Hpost).
  apply argparse_fields in Hns0 as (Hconfig & _).
  rewrite Henv, Hcli in Hconfig. cbn [default] in Hconfig.
  apply config_path_dot_slash; [ done | | done ].
  destruct (instance_id_is_container_name ns0); [ | by subst ].
  destruct Hpost as (name & _ & ->). by destruct ns0.
Qed.

(** The world [quiet_world]. *)
Lemma default_config_beside_main_witness :
  ∃ args,
    parse_args quiet_world = Ok args ∧
    config_path quiet_world args = "/opt/voltha/voltha/voltha.yml".
Proof.
  eexists. split; [ vm_compute; reflexivity | ].
  match goal with
  | |- config_path _ ?a = _ =>
      rewrite (default_config_beside_main quiet_world a)
  end; vm_compute; reflexivity.
Defined.

